(** * legacyfileconverter: the EBCDIC to ASCII converter, embedded in Rocq

    A shallow embedding of the copybook layout resolver
    ([copybook_parser.py]), the byte decoders ([data_types/*.py]), the
    record reader ([ebcdic_reader.py]), the record walker
    ([conversion_engine.py]), the validator's run, comparison and
    classification ([validation_engine/*.py]) and the byte helpers of
    [utils.py], followed by the properties of the specification that
    concern them and by further properties of the embedded code.

    Conventions of the embedding.
    - Python [int] is [Z]; [bytes] is [list byte]; [str] is [string], one
      [ascii] per code point.  Every string the decoders build comes from
      the CP037 codec, whose image is U+0000..U+00FF, or from digits, so
      eight-bit code points are enough.
    - A Python [float] is modelled by the exact rational it denotes (or an
      infinity or a NaN).  Rounding to binary64, overflow and the sign of
      zero are not modelled; no statement below depends on them.
    - An exception is an explicit outcome: fallible code returns [res].
    - The [encoding] argument of the decoders is left at its default,
      [cp037]: the engine is never built with another one. *)

From Stdlib Require Import ZArith NArith QArith Qround Qabs List String Ascii Bool Lia.
From Stdlib Require Import Strings.Byte.
From Stdlib Require Import DecimalString.
From Stdlib Require DecimalPos DecimalZ.
From Equations Require Import Equations.
Import ListNotations.

Local Open Scope Z_scope.

(* ================================================================== *)
(** * Python primitives used by the source                             *)
(* ================================================================== *)

Module Py.

(** The exceptions the embedded code can raise. *)
Inductive exn : Type :=
| ValueError
| IndexError
| TypeError
| StructError
| UnknownUsage.

Inductive res (A : Type) : Type :=
| Ok (a : A)
| Raise (e : exn).
Arguments Ok {A} a.
Arguments Raise {A} e.

Definition bind {A B : Type} (m : res A) (k : A -> res B) : res B :=
  match m with
  | Ok a => k a
  | Raise e => Raise e
  end.

(** [try: body except ValueError: handler]. *)
Definition except_ValueError {A : Type} (body : res A) (handler : res A) : res A :=
  match body with
  | Raise ValueError => handler
  | other => other
  end.


(** ** Sequences: [len], indexing and slicing *)

Definition len {A : Type} (l : list A) : Z := Z.of_nat (List.length l).

(** Clamp of a slice bound [i] for a sequence of length [n] (step 1). *)
Definition slice_bound (n : Z) (i : option Z) (default : Z) : Z :=
  match i with
  | None => default
  | Some i => if i <? 0 then Z.max 0 (i + n) else Z.min i n
  end.

(** [l[start:stop]]; never raises. *)
Definition slice {A : Type} (l : list A) (start stop : option Z) : list A :=
  let n := len l in
  let s := slice_bound n start 0 in
  let e := slice_bound n stop n in
  firstn (Z.to_nat (e - s)) (skipn (Z.to_nat s) l).

(** [l[i]]: IndexError outside [-len, len). *)
Definition index {A : Type} (l : list A) (i : Z) : res A :=
  let n := len l in
  let j := if i <? 0 then i + n else i in
  if (j <? 0) || (n <=? j) then Raise IndexError
  else match nth_error l (Z.to_nat j) with
       | Some a => Ok a
       | None => Raise IndexError
       end.

(** ** Characters *)

Definition ord (c : ascii) : Z := Z.of_N (N_of_ascii c).
Definition chr (n : Z) : ascii := ascii_of_N (Z.to_N n).

Definition in_range (lo hi : Z) (c : ascii) : bool :=
  (lo <=? ord c) && (ord c <=? hi).

(** [str.isspace] on U+0000..U+00FF: what [strip] and [rstrip] remove. *)
Definition isspace (c : ascii) : bool :=
  in_range 9 13 c || in_range 28 32 c || (ord c =? 133) || (ord c =? 160).

(** The white space [int()] and [float()] skip around a literal: the ASCII
    class of C plus the non-ASCII Unicode spaces; U+001C..U+001F are not
    in it. *)
Definition isspace_conv (c : ascii) : bool :=
  in_range 9 13 c || (ord c =? 32) || (ord c =? 133) || (ord c =? 160).

(** Decimal digits (category Nd): what [\d], [int()] and [float()] take. *)
Definition is_decimal (c : ascii) : bool := in_range 48 57 c.

(** [str.isdigit] on U+0000..U+00FF also takes the superscripts 1, 2, 3. *)
Definition isdigit (c : ascii) : bool :=
  is_decimal c || (ord c =? 178) || (ord c =? 179) || (ord c =? 185).

Definition digit_value (c : ascii) : Z := ord c - 48.

Definition lower (c : ascii) : ascii :=
  if in_range 65 90 c || in_range 192 214 c || in_range 216 222 c
  then chr (ord c + 32) else c.

(** ** Strings *)

Definition chars (s : string) : list ascii := list_ascii_of_string s.
Definition str (l : list ascii) : string := string_of_list_ascii l.

Definition slen (s : string) : Z := len (chars s).

Definition sslice (s : string) (start stop : option Z) : string :=
  str (slice (chars s) start stop).

(** [c in s] for a one-character [c]. *)
Fixpoint contains (c : ascii) (s : string) : bool :=
  match s with
  | EmptyString => false
  | String d r => Ascii.eqb c d || contains c r
  end.

(** [s.find(c)] for a one-character [c]. *)
Fixpoint find_from (c : ascii) (s : string) (i : Z) : Z :=
  match s with
  | EmptyString => -1
  | String d r => if Ascii.eqb c d then i else find_from c r (i + 1)
  end.
Definition find (c : ascii) (s : string) : Z := find_from c s 0.

Fixpoint lstrip_by (p : ascii -> bool) (l : list ascii) : list ascii :=
  match l with
  | c :: r => if p c then lstrip_by p r else l
  | [] => []
  end.
Definition rstrip_by (p : ascii -> bool) (l : list ascii) : list ascii :=
  rev (lstrip_by p (rev l)).

Definition rstrip (s : string) : string := str (rstrip_by isspace (chars s)).
Definition strip (s : string) : string :=
  str (rstrip_by isspace (lstrip_by isspace (chars s))).
(** [s.lstrip('0')]. *)
Definition lstrip_zeros (s : string) : string :=
  str (lstrip_by (Ascii.eqb "0") (chars s)).

(** [c * n]. *)
Definition repeat_char (c : ascii) (n : Z) : string :=
  str (List.repeat c (Z.to_nat n)).

(** [s.ljust(width, fill)]. *)
Definition ljust (s : string) (width : Z) (fill : ascii) : string :=
  (s ++ repeat_char fill (width - slen s))%string.

Definition startswith (c : ascii) (s : string) : bool :=
  match s with
  | String d _ => Ascii.eqb c d
  | EmptyString => false
  end.

(** [sep.join(parts)]. *)
Fixpoint join (sep : string) (parts : list string) : string :=
  match parts with
  | [] => EmptyString
  | [p] => p
  | p :: rest => (p ++ sep ++ join sep rest)%string
  end.

(** ** [str(n)] and [f'{b:02x}'] *)

Definition str_of_int (n : Z) : string := NilEmpty.string_of_int (Z.to_int n).

Definition hex_digit (n : Z) : ascii :=
  if n <? 10 then chr (48 + n) else chr (87 + n).

Definition hex02 (b : Z) : string :=
  String (hex_digit (b / 16)) (String (hex_digit (b mod 16)) EmptyString).

(** ** Numeric literals: [int(s)] and [float(s)] *)

(** Rest of a [digitpart ::= digit (["_"] digit)*] after its first digit:
    the digits read and what follows them. *)
Fixpoint scan_more (l : list ascii) : list ascii * list ascii :=
  match l with
  | [] => ([], [])
  | c :: r =>
      if is_decimal c then
        let (ds, rest) := scan_more r in (c :: ds, rest)
      else if Ascii.eqb c "_" then
        match r with
        | d :: r' =>
            if is_decimal d then
              let (ds, rest) := scan_more r' in (d :: ds, rest)
            else ([], l)
        | [] => ([], l)
        end
      else ([], l)
  end.

(** Longest [digitpart] at the head of [l]; no digits when there is none. *)
Definition scan_digitpart (l : list ascii) : list ascii * list ascii :=
  match l with
  | c :: r =>
      if is_decimal c then let (ds, rest) := scan_more r in (c :: ds, rest)
      else ([], l)
  | [] => ([], [])
  end.

Definition digits_value (ds : list ascii) : Z :=
  fold_left (fun acc d => acc * 10 + digit_value d) ds 0.

(** An optional sign: is it a minus, and what follows. *)
Definition scan_sign (l : list ascii) : bool * list ascii :=
  match l with
  | c :: r =>
      if Ascii.eqb c "-" then (true, r)
      else if Ascii.eqb c "+" then (false, r)
      else (false, l)
  | [] => (false, [])
  end.

Definition strip_conv (s : string) : list ascii :=
  rstrip_by isspace_conv (lstrip_by isspace_conv (chars s)).

(** [int(s)], base ten: [None] stands for ValueError.  (The interpreter's
    limit on the number of digits of a literal is not modelled.) *)
Definition parse_int (s : string) : option Z :=
  let (neg, l) := scan_sign (strip_conv s) in
  match scan_digitpart l with
  | ((_ :: _) as ds, []) =>
      Some (if neg then - digits_value ds else digits_value ds)
  | _ => None
  end.

(** A float: the rational it denotes, an infinity, or a NaN. *)
Inductive pyfloat : Type :=
| Fin (q : Q)
| Inf (negative : bool)
| NaN.

Definition scale10 (m : Z) (e : Z) : Q :=
  if 0 <=? e then Qmake (m * 10 ^ e) 1
  else Qmake m (Z.to_pos (10 ^ (- e))).

Definition lower_all (l : list ascii) : string := str (map lower l).

(** The exponent of a [floatnumber]: empty, or [e|E [sign] digitpart]. *)
Definition scan_exponent (l : list ascii) : option Z :=
  match l with
  | [] => Some 0
  | c :: r =>
      if Ascii.eqb c "e" || Ascii.eqb c "E" then
        let (neg, r') := scan_sign r in
        match scan_digitpart r' with
        | ((_ :: _) as ds, []) =>
            Some (if neg then - digits_value ds else digits_value ds)
        | _ => None
        end
      else None
  end.

(** [floatnumber ::= ([digitpart] "." digitpart | digitpart ["."]) [exponent]]. *)
Definition scan_floatnumber (l : list ascii) : option Q :=
  let (ip, r1) := scan_digitpart l in
  match r1 with
  | c :: r =>
      if Ascii.eqb c "." then
        let (fp, r2) := scan_digitpart r in
        match ip, fp with
        | [], [] => None
        | _, _ =>
            match scan_exponent r2 with
            | Some e => Some (scale10 (digits_value (ip ++ fp)) (e - len fp))
            | None => None
            end
        end
      else
        match ip, scan_exponent r1 with
        | _ :: _, Some e => Some (scale10 (digits_value ip) e)
        | _, _ => None
        end
  | [] =>
      match ip with
      | _ :: _ => Some (scale10 (digits_value ip) 0)
      | [] => None
      end
  end.

(** [float(s)]: [None] stands for ValueError. *)
Definition parse_float (s : string) : option pyfloat :=
  let (neg, l) := scan_sign (strip_conv s) in
  let w := lower_all l in
  if String.eqb w "inf" || String.eqb w "infinity" then Some (Inf neg)
  else if String.eqb w "nan" then Some NaN
  else match scan_floatnumber l with
       | Some q => Some (Fin (if neg then Qopp q else q))
       | None => None
       end.

Definition int_of (s : string) : res Z :=
  match parse_int s with
  | Some n => Ok n
  | None => Raise ValueError
  end.

Definition float_of (s : string) : res pyfloat :=
  match parse_float s with
  | Some x => Ok x
  | None => Raise ValueError
  end.

End Py.

Import Py.

Notation "x <- m ;; k" := (bind m (fun x => k))
  (at level 61, m at next level, right associativity).

(* ================================================================== *)
(** * copybook_parser.py: the field tree and the layout resolver       *)
(* ================================================================== *)

Module Copybook.

(** [class Field].  The [parent] back-reference is left out: nothing in the
    resolver or the decoders reads it. *)
#[local] Unset Elimination Schemes.
Inductive Field : Type := mkField {
  level : Z;
  name : string;
  picture : option string;
  usage : option string;
  occurs : option Z;
  redefines : option string;
  value : option string;
  is_filler : bool;
  is_group : bool;
  justified_right : bool;
  blank_when_zero : bool;
  sign_separate : bool;
  sign_leading : bool;
  synchronized : bool;
  children : list Field;
  size : Z;
  offset : Z;
  conditions : list (string * string)
}.
#[local] Set Elimination Schemes.

(** Truth value of an optional string and of a list. *)
Definition truthy_str (o : option string) : bool :=
  match o with
  | Some (String _ _) => true
  | _ => false
  end.

Definition nonempty {A : Type} (l : list A) : bool :=
  match l with
  | [] => false
  | _ :: _ => true
  end.

Definition with_size (f : Field) (sz : Z) : Field :=
  mkField (level f) (name f) (picture f) (usage f) (occurs f) (redefines f)
    (value f) (is_filler f) (is_group f) (justified_right f)
    (blank_when_zero f) (sign_separate f) (sign_leading f) (synchronized f)
    (children f) sz (offset f) (conditions f).

Definition with_offset (f : Field) (off : Z) : Field :=
  mkField (level f) (name f) (picture f) (usage f) (occurs f) (redefines f)
    (value f) (is_filler f) (is_group f) (justified_right f)
    (blank_when_zero f) (sign_separate f) (sign_leading f) (synchronized f)
    (children f) (size f) off (conditions f).

Definition with_children (f : Field) (ch : list Field) : Field :=
  mkField (level f) (name f) (picture f) (usage f) (occurs f) (redefines f)
    (value f) (is_filler f) (is_group f) (justified_right f)
    (blank_when_zero f) (sign_separate f) (sign_leading f) (synchronized f)
    ch (size f) (offset f) (conditions f).

(** [re.sub(r'\((\d+)\)', lambda m: rep * int(m.group(1)), s)], scanning
    left to right.  [pending] holds the digits read since an open
    parenthesis that may still turn into a match.  The source builds
    [rep * n] for every count [n] it reads, and Python raises
    OverflowError or MemoryError for a count too large to build, and
    ValueError for a count of more than 4300 digits; this function is
    total, and gives the expansion whenever the source builds one. *)
Fixpoint sub_repeats (rep : ascii) (pending : option (list ascii))
    (l : list ascii) : list ascii :=
  match l with
  | [] =>
      match pending with
      | Some ds => "("%char :: ds
      | None => []
      end
  | c :: r =>
      match pending with
      | None =>
          if Ascii.eqb c "(" then sub_repeats rep (Some []) r
          else c :: sub_repeats rep None r
      | Some ds =>
          if is_decimal c then sub_repeats rep (Some (ds ++ [c])) r
          else if Ascii.eqb c ")" && nonempty ds then
            List.repeat rep (Z.to_nat (digits_value ds)) ++ sub_repeats rep None r
          else
            "("%char :: ds ++
              (if Ascii.eqb c "(" then sub_repeats rep (Some []) r
               else c :: sub_repeats rep None r)
      end
  end.

Definition expand_repeats (rep : ascii) (s : string) : string :=
  str (sub_repeats rep None (chars s)).

(** [re.sub(r'[A-Z9]', 'X', pic)]. *)
Definition to_X (c : ascii) : ascii :=
  if in_range 65 90 c || Ascii.eqb c "9" then "X"%char else c.

(** The normalised picture of [calculate_picture_size]. *)
Definition normalize_picture (pic : string) : string :=
  str (map to_X (chars (expand_repeats "X" pic))).

Definition base_size (pic : string) : Z := slen (normalize_picture pic).

Definition usage_is (u : option string) (s : string) : bool :=
  match u with
  | Some v => String.eqb v s
  | None => false
  end.

Definition binary_size (base : Z) : Z :=
  if base <=? 4 then 2 else if base <=? 9 then 4 else 8.

Definition calculate_picture_size (pic : string) (u : option string) : Z :=
  let base := base_size pic in
  if usage_is u "COMP" || usage_is u "COMP-4" || usage_is u "BINARY" then
    binary_size base
  else if usage_is u "COMP-1" then 4
  else if usage_is u "COMP-2" then 8
  else if usage_is u "COMP-3" || usage_is u "PACKED-DECIMAL" then
    (base + 1) / 2
  else if usage_is u "COMP-5" then binary_size base
  else if usage_is u "COMP-6" then (base + 1) / 2
  else base.

Definition sum (l : list Z) : Z := fold_left Z.add l 0.

(** [calculate_field_sizes]: the field with [size] set, on it and below it.
    The integer the source returns is the [size] of the result. *)
Fixpoint calculate_field_sizes (f : Field) : Field :=
  if is_group f && nonempty (children f) then
    let ch := map calculate_field_sizes (children f) in
    with_size (with_children f ch) (sum (map size ch))
  else
    match picture f with
    | Some ((String _ _) as pic) =>
        let sz := calculate_picture_size pic (usage f) in
        match occurs f with
        | Some n => if n =? 0 then with_size f sz else with_size f (sz * n)
        | None => with_size f sz
        end
    | _ => with_size f 0
    end.

(** [next((f for f in children if f.name == target), None)]. *)
Fixpoint find_named (l : list Field) (target : string) : option Field :=
  match l with
  | [] => None
  | f :: r => if String.eqb (name f) target then Some f else find_named r target
  end.

(** [calculate_field_offsets]: the field with [offset] set on it and below
    it, and the next free offset.  In the loop over the children [done]
    are the children already visited and [rest] those still as they were,
    so that [done ++ rest] is the list the source searches. *)
Fixpoint calculate_field_offsets (f : Field) (start_offset : Z) : Field * Z :=
  let f0 := with_offset f start_offset in
  if is_group f && nonempty (children f) then
    let fix loop (rest done : list Field) (next_offset : Z)
        : list Field * Z :=
      match rest with
      | [] => (done, next_offset)
      | child :: rest' =>
          if truthy_str (redefines child) then
            match find_named (done ++ rest)
                    (match redefines child with Some t => t | None => EmptyString end) with
            | Some redefined_field =>
                let (c, _) := calculate_field_offsets child (offset redefined_field) in
                loop rest' (done ++ [c]) next_offset
            | None =>
                let (c, n) := calculate_field_offsets child next_offset in
                loop rest' (done ++ [c]) n
            end
          else
            let (c, n) := calculate_field_offsets child next_offset in
            loop rest' (done ++ [c]) n
      end in
    let (ch, next_offset) := loop (children f) [] start_offset in
    (with_children f0 ch, next_offset)
  else (f0, start_offset + size f).

(** The two resolver passes at the end of [parse_copybook]. *)
Definition resolve (root : Field) : Field :=
  fst (calculate_field_offsets (calculate_field_sizes root) 0).

End Copybook.

Import Copybook.

(* ================================================================== *)
(** * Decoded values                                                   *)
(* ================================================================== *)

(** What a decoded record holds, and what the validator compares. *)
#[local] Unset Elimination Schemes.
Inductive value : Type :=
| VNone
| VInt (n : Z)
| VFloat (x : pyfloat)
| VStr (s : string)
| VList (items : list value)
| VDict (entries : list (string * value)).
#[local] Set Elimination Schemes.

(** [d[k] = v] on an insertion-ordered dictionary. *)
Fixpoint dict_set (d : list (string * value)) (k : string) (v : value)
    : list (string * value) :=
  match d with
  | [] => [(k, v)]
  | (k', v') :: r =>
      if String.eqb k' k then (k, v) :: r else (k', v') :: dict_set r k v
  end.

Fixpoint dict_get (d : list (string * value)) (k : string) : option value :=
  match d with
  | [] => None
  | (k', v') :: r => if String.eqb k' k then Some v' else dict_get r k
  end.

(* ================================================================== *)
(** * The CP037 codec and [struct.unpack]                              *)
(* ================================================================== *)

Module Cp037.

(** The decoding table of the standard [cp037] codec: entry [b] is the
    code point of byte [b]. *)
Definition decoding_table : list Z :=
  [
   0; 1; 2; 3; 156; 9; 134; 127; 151; 141; 142; 11; 12; 13; 14; 15;
   16; 17; 18; 19; 157; 133; 8; 135; 24; 25; 146; 143; 28; 29; 30; 31;
   128; 129; 130; 131; 132; 10; 23; 27; 136; 137; 138; 139; 140; 5; 6; 7;
   144; 145; 22; 147; 148; 149; 150; 4; 152; 153; 154; 155; 20; 21; 158; 26;
   32; 160; 226; 228; 224; 225; 227; 229; 231; 241; 162; 46; 60; 40; 43; 124;
   38; 233; 234; 235; 232; 237; 238; 239; 236; 223; 33; 36; 42; 41; 59; 172;
   45; 47; 194; 196; 192; 193; 195; 197; 199; 209; 166; 44; 37; 95; 62; 63;
   248; 201; 202; 203; 200; 205; 206; 207; 204; 96; 58; 35; 64; 39; 61; 34;
   216; 97; 98; 99; 100; 101; 102; 103; 104; 105; 171; 187; 240; 253; 254; 177;
   176; 106; 107; 108; 109; 110; 111; 112; 113; 114; 170; 186; 230; 184; 198; 164;
   181; 126; 115; 116; 117; 118; 119; 120; 121; 122; 161; 191; 208; 221; 222; 174;
   94; 163; 165; 183; 169; 167; 182; 188; 189; 190; 91; 93; 175; 168; 180; 215;
   123; 65; 66; 67; 68; 69; 70; 71; 72; 73; 173; 244; 246; 242; 243; 245;
   125; 74; 75; 76; 77; 78; 79; 80; 81; 82; 185; 251; 252; 249; 250; 255;
   92; 247; 83; 84; 85; 86; 87; 88; 89; 90; 178; 212; 214; 210; 211; 213;
   48; 49; 50; 51; 52; 53; 54; 55; 56; 57; 179; 219; 220; 217; 218; 159
  ].

Definition byte_val (b : byte) : Z := Z.of_N (Byte.to_N b).

Definition decode_byte (b : byte) : ascii :=
  chr (nth (Z.to_nat (byte_val b)) decoding_table 0).

(** [data.decode('cp037')]: every byte has an entry, so it never raises. *)
Definition decode (data : list byte) : string := str (map decode_byte data).

End Cp037.

Import Cp037.

Module Struct.

(** The bytes read as one unsigned number, most significant first. *)
Definition be_unsigned (data : list byte) : Z :=
  fold_left (fun acc b => acc * 256 + byte_val b) data 0.

(** Two's complement on [bits] bits. *)
Definition to_signed (bits : Z) (u : Z) : Z :=
  if u <? 2 ^ (bits - 1) then u else u - 2 ^ bits.

(** [struct.unpack(order + code, data)[0]] for the signed integer codes
    [h], [i], [q] of 2, 4 and 8 bytes; [struct.error] on any other
    length. *)
Definition unpack_signed (little : bool) (nbytes : Z) (data : list byte) : res Z :=
  if len data =? nbytes then
    Ok (to_signed (8 * nbytes) (be_unsigned (if little then rev data else data)))
  else Raise StructError.

End Struct.

(* ================================================================== *)
(** * data_types: the byte decoders                                    *)
(* ================================================================== *)

(** [record[field.offset : field.offset + field.size]]. *)
Definition field_data (record : list byte) (f : Field) : list byte :=
  slice record (Some (offset f)) (Some (offset f + size f)).

(** [field.picture and (c in field.picture)]. *)
Definition picture_has (c : ascii) (f : Field) : bool :=
  match picture f with
  | Some p => contains c p
  | None => false
  end.

(** [field.picture[field.picture.find(c) + 1 :]]. *)
Definition picture_after (c : ascii) (p : string) : string :=
  sslice p (Some (find c p + 1)) None.

(** [sum(1 for c in s if c in '9')]. *)
Fixpoint count_nines (s : string) : Z :=
  match s with
  | EmptyString => 0
  | String c r => (if Ascii.eqb c "9" then 1 else 0) + count_nines r
  end.

(** The text with a point before its last [places] characters, as the
    decoders build it for an unsigned text. *)
Definition insert_point (text : string) (places : Z) : string :=
  let integer_part :=
    if slen text >? places then sslice text None (Some (- places))
    else "0"%string in
  let decimal_part := ljust (sslice text (Some (- places)) None) places "0" in
  (integer_part ++ "." ++ decimal_part)%string.

(** The same for a text that starts with a minus sign. *)
Definition insert_point_negative (text : string) (places : Z) : string :=
  let integer_part :=
    if slen text >? places + 1 then sslice text (Some 1) (Some (- places))
    else "0"%string in
  let decimal_part := ljust (sslice text (Some (- places)) None) places "0" in
  ("-" ++ integer_part ++ "." ++ decimal_part)%string.

Definition as_float (s : string) : res value :=
  x <- float_of s ;; Ok (VFloat x).

Definition as_int (s : string) : res value :=
  n <- int_of s ;; Ok (VInt n).

(** ** display.py *)

Module DisplayHandler.

Definition ebcdic_to_ascii (data : list byte) (f : Field) : res string :=
  let ascii_value := decode data in
  let ascii_value :=
    if justified_right f then rstrip ascii_value else ascii_value in
  if blank_when_zero f
     && String.eqb (strip ascii_value)
          (repeat_char "0" (slen (strip ascii_value)))
  then Ok (repeat_char " " (slen ascii_value))
  else Ok ascii_value.

(** Returns the text: [to_dict_value] is not applied here. *)
Definition extract_from_record (record : list byte) (f : Field) : res value :=
  s <- ebcdic_to_ascii (field_data record f) f ;; Ok (VStr s).

Definition decimal_places (f : Field) : Z :=
  match picture f with
  | Some p =>
      if contains "V" p then slen (expand_repeats "9" (picture_after "V" p))
      else if contains "." p then slen (expand_repeats "9" (picture_after "." p))
      else 0
  | None => 0
  end.

Definition to_dict_value (ascii_value : string) (f : Field) : res value :=
  if picture_has "X" f || picture_has "A" f then Ok (VStr ascii_value)
  else if picture_has "9" f then
    if picture_has "V" f || picture_has "." f then
      let places := decimal_places f in
      let ascii_value :=
        if picture_has "V" f && negb (contains "." ascii_value) then
          if places >? 0 then insert_point ascii_value places
          else ascii_value
        else ascii_value in
      except_ValueError (as_float ascii_value) (Ok (VStr ascii_value))
    else
      except_ValueError (as_int ascii_value) (Ok (VStr ascii_value))
  else Ok (VStr ascii_value).

End DisplayHandler.

(** ** binary.py and native_binary.py *)

Definition hex_dump (data : list byte) : string :=
  join " " (map (fun b => hex02 (byte_val b)) data).

(** [to_dict_value] of [BinaryHandler] and of [NativeBinaryHandler]. *)
Definition binary_to_dict_value (ascii_value : string) (f : Field) : res value :=
  except_ValueError
    (if picture_has "V" f || picture_has "." f then as_float ascii_value
     else as_int ascii_value)
    (Ok (VStr ascii_value)).

(** [ebcdic_to_ascii] of both, [little] telling the byte order. *)
Definition binary_ebcdic_to_ascii (little : bool) (data : list byte)
    (f : Field) : res string :=
  if len data =? 2 then
    v <- Struct.unpack_signed little 2 data ;; Ok (str_of_int v)
  else if len data =? 4 then
    v <- Struct.unpack_signed little 4 data ;; Ok (str_of_int v)
  else if len data =? 8 then
    v <- Struct.unpack_signed little 8 data ;; Ok (str_of_int v)
  else Ok (hex_dump data).

Module BinaryHandler.

Definition ebcdic_to_ascii (data : list byte) (f : Field) : res string :=
  binary_ebcdic_to_ascii false data f.

Definition to_dict_value := binary_to_dict_value.

Definition extract_from_record (record : list byte) (f : Field) : res value :=
  ascii_value <- ebcdic_to_ascii (field_data record f) f ;;
  to_dict_value ascii_value f.

End BinaryHandler.

Module NativeBinaryHandler.
Section Host.
(** [sys.byteorder == 'little'] on the host. *)
Variable little_endian : bool.

Definition ebcdic_to_ascii (data : list byte) (f : Field) : res string :=
  binary_ebcdic_to_ascii little_endian data f.

Definition to_dict_value := binary_to_dict_value.

Definition extract_from_record (record : list byte) (f : Field) : res value :=
  ascii_value <- ebcdic_to_ascii (field_data record f) f ;;
  to_dict_value ascii_value f.

End Host.
End NativeBinaryHandler.

(** ** packed_decimal.py, unsigned_packed.py *)

Definition high_nibble (b : byte) : Z := Z.shiftr (byte_val b) 4.
Definition low_nibble (b : byte) : Z := Z.land (byte_val b) 15.

(** The two nibbles of each byte as [str(nibble)], joined. *)
Fixpoint nibble_digits (data : list byte) : string :=
  match data with
  | [] => EmptyString
  | b :: r =>
      (str_of_int (high_nibble b) ++ str_of_int (low_nibble b)
         ++ nibble_digits r)%string
  end.

(** The implied decimal places the packed and signed decoders count. *)
Definition count_places (p : string) : Z :=
  if contains "V" p then count_nines (picture_after "V" p) else 0.

(** Body of the [try] of [to_dict_value] in [PackedDecimalHandler] and
    [SignedHandler], for a picture [p].  Both test ['V' in field.picture]
    with no guard, which is a TypeError when the field has no picture. *)
Definition scaled_value (ascii_value : string) (p : string) : res value :=
  if contains "V" p || contains "." p then
    let places := count_places p in
    if places >? 0 then
      if startswith "-" ascii_value
      then as_float (insert_point_negative ascii_value places)
      else as_float (insert_point ascii_value places)
    else as_int ascii_value
  else as_int ascii_value.

Module PackedDecimalHandler.

Definition ebcdic_to_ascii (data : list byte) (f : Field) : res string :=
  let digits := nibble_digits (firstn (List.length data - 1) data) in
  last_byte <- index data (-1) ;;
  let last_digit := high_nibble last_byte in
  let sign_nibble := low_nibble last_byte in
  let digits := (digits ++ str_of_int last_digit)%string in
  let is_negative := (sign_nibble =? 11) || (sign_nibble =? 13) in
  Ok (if is_negative then ("-" ++ digits)%string else digits).

Definition to_dict_value (ascii_value : string) (f : Field) : res value :=
  except_ValueError
    (match picture f with
     | Some p => scaled_value ascii_value p
     | None => Raise TypeError
     end)
    (Ok (VStr ascii_value)).

Definition extract_from_record (record : list byte) (f : Field) : res value :=
  ascii_value <- ebcdic_to_ascii (field_data record f) f ;;
  to_dict_value ascii_value f.

End PackedDecimalHandler.

Module UnsignedPackedHandler.

Definition ebcdic_to_ascii (data : list byte) (f : Field) : res string :=
  let v := lstrip_zeros (nibble_digits data) in
  Ok (match v with EmptyString => "0"%string | _ => v end).

Definition to_dict_value (ascii_value : string) (f : Field) : res value :=
  except_ValueError
    (if picture_has "V" f || picture_has "." f then
       let places :=
         match picture f with Some p => count_places p | None => 0 end in
       if places >? 0 then as_float (insert_point ascii_value places)
       else as_int ascii_value
     else as_int ascii_value)
    (Ok (VStr ascii_value)).

Definition extract_from_record (record : list byte) (f : Field) : res value :=
  ascii_value <- ebcdic_to_ascii (field_data record f) f ;;
  to_dict_value ascii_value f.

End UnsignedPackedHandler.

(** ** signed.py *)

Module SignedHandler.

(** The text without its sign character, a minus put in front when the
    sign character is [-] or [D]; any other sign counts as positive. *)
Definition apply_sign (sign_char : ascii) (text : string) : string :=
  if Ascii.eqb sign_char "+" || Ascii.eqb sign_char "C" then text
  else if Ascii.eqb sign_char "-" || Ascii.eqb sign_char "D"
  then ("-" ++ text)%string
  else text.

Definition ebcdic_to_ascii (data : list byte) (f : Field) : res string :=
  let ascii_value := decode data in
  if sign_separate f then
    if sign_leading f then
      sign_char <- index (chars ascii_value) 0 ;;
      Ok (apply_sign sign_char (sslice ascii_value (Some 1) None))
    else
      sign_char <- index (chars ascii_value) (-1) ;;
      Ok (apply_sign sign_char (sslice ascii_value None (Some (-1))))
  else Ok ascii_value.

Definition to_dict_value (ascii_value : string) (f : Field) : res value :=
  except_ValueError
    (match picture f with
     | Some p => scaled_value ascii_value p
     | None => Raise TypeError
     end)
    (Ok (VStr ascii_value)).

Definition extract_from_record (record : list byte) (f : Field) : res value :=
  ascii_value <- ebcdic_to_ascii (field_data record f) f ;;
  to_dict_value ascii_value f.

End SignedHandler.

(** ** floating_point.py *)

Module FloatingPointHandler.
Section Formats.

(** The floats of [struct]: [unpack_single] is the value of
    [struct.unpack('>f', data)[0]] on four bytes, [unpack_double] that of
    [struct.unpack('>d', data)[0]] on eight, and [format_g p value] the
    text [f"{value:.{p}g}"]. *)
Variable binary_float : Type.
Variable unpack_single unpack_double : list byte -> binary_float.
Variable format_g : Z -> binary_float -> string.

(** [struct.unpack] of one float of [nbytes] bytes: [struct.error] on
    any other length. *)
Definition unpack (nbytes : Z) (read : list byte -> binary_float)
    (data : list byte) : res binary_float :=
  if len data =? nbytes then Ok (read data) else Raise StructError.

Definition ebcdic_to_ascii (data : list byte) (f : Field) : res string :=
  let format value :=
    if usage_is (usage f) "COMP-1" then format_g 7 value
    else format_g 16 value in
  if usage_is (usage f) "COMP-1" || (len data =? 4) then
    value <- unpack 4 unpack_single data ;; Ok (format value)
  else if usage_is (usage f) "COMP-2" || (len data =? 8) then
    value <- unpack 8 unpack_double data ;; Ok (format value)
  else Ok (hex_dump data).

Definition to_dict_value (ascii_value : string) (f : Field) : res value :=
  except_ValueError (as_float ascii_value) (Ok (VStr ascii_value)).

Definition extract_from_record (record : list byte) (f : Field) : res value :=
  ascii_value <- ebcdic_to_ascii (field_data record f) f ;;
  to_dict_value ascii_value f.

End Formats.

Arguments unpack {binary_float} nbytes read data.
Arguments ebcdic_to_ascii {binary_float} unpack_single unpack_double format_g
  data f.
Arguments extract_from_record {binary_float} unpack_single unpack_double
  format_g record f.

End FloatingPointHandler.

(** An elementary field as the scenarios declare them: level 05, a
    name, a picture and a usage, everything else at the dataclass
    default. *)
Definition elementary (nm pic : string) (u : option string) : Field :=
  mkField 5 nm (Some pic) u None None None false false false false false
    false false [] 0 0 [].

(* ================================================================== *)
(** * ebcdic_reader.py: the record reader                              *)
(* ================================================================== *)

Module EbcdicReader.

(** The [record_length] property: 80 when the reader was built without
    one, which is how [cli.main] builds it. *)
Definition record_length (_record_length : option Z) : Z :=
  match _record_length with
  | Some n => n
  | None => 80
  end.

(** [file.read(n)] on the unread part of the file: the bytes read and
    what is left.  A negative [n] reads all that is left, as [read(-1)]
    does; for [n] below -1 the source's [read] raises ValueError, which
    is not modelled. *)
Definition file_read (n : Z) (unread : list byte) : list byte * list byte :=
  if n <? 0 then (unread, [])
  else (firstn (Z.to_nat n) unread, skipn (Z.to_nat n) unread).

(** [read_record]: [None] at the end of the file and on a short read. *)
Definition read_record (rl : option Z) (unread : list byte)
    : option (list byte) * list byte :=
  let (record, unread') := file_read (record_length rl) unread in
  if negb (nonempty record) || (len record <? record_length rl)
  then (None, unread')
  else (Some record, unread').

(** A value paired with the proof that it is the value. *)
Definition inspect {A : Type} (x : A) : { y : A | x = y } :=
  exist _ x eq_refl.

(** What [__iter__] yields: records until [read_record] gives none. *)
Equations? records (rl : option Z) (unread : list byte)
    : list (list byte) by wf (List.length unread) lt :=
  records rl unread with inspect (read_record rl unread) := {
    | @exist (Some record, unread') Heq => record :: records rl unread'
    | @exist (None, _) _ => [] }.
Proof.
  clear records. revert Heq. unfold read_record, file_read.
  destruct (record_length rl <? 0) eqn:Hneg.
  - destruct unread as [|b u]; simpl; [discriminate|].
    destruct (len _ <? _); [discriminate|].
    intros H; inversion H; subst; simpl; lia.
  - destruct (negb _ || _) eqn:Hc; [discriminate|].
    intros H; inversion H; subst; clear H.
    apply orb_false_elim in Hc as [Hne _].
    apply negb_false_iff in Hne.
    destruct (Z.to_nat (record_length rl)) as [|n]; [discriminate|].
    destruct unread as [|b u]; [discriminate|].
    simpl. pose proof (length_skipn n u). lia.
Qed.

(** Outcome of running the generator to its end.  Neither [read_record]
    nor [__iter__] has a [raise]: the generator always ends normally. *)
Definition iterate (rl : option Z) (contents : list byte)
    : res (list (list byte)) :=
  Ok (records rl contents).

(** The reader of [cli.main]: no record length is passed. *)
Definition cli_reader (contents : list byte) : res (list (list byte)) :=
  iterate None contents.

End EbcdicReader.

(* ================================================================== *)
(** * conversion_engine.py: the record walker                          *)
(* ================================================================== *)

(** A handler class.  Every class of [data_types] defines
    [extract_from_record], so the walker's [hasattr] fallbacks are never
    taken and a handler is that method. *)
Record Handler : Type := mkHandler {
  extract_from_record : list byte -> Field -> res value
}.

Definition display_handler := mkHandler DisplayHandler.extract_from_record.
Definition binary_handler := mkHandler BinaryHandler.extract_from_record.
Definition packed_decimal_handler :=
  mkHandler PackedDecimalHandler.extract_from_record.
Definition unsigned_packed_handler :=
  mkHandler UnsignedPackedHandler.extract_from_record.
Definition signed_handler := mkHandler SignedHandler.extract_from_record.
Definition native_binary_handler (little_endian : bool) :=
  mkHandler (NativeBinaryHandler.extract_from_record little_endian).

Module ConversionEngine.
Section Walker.

(** [data_types.get_handler_for_field]. *)
Variable get_handler_for_field : Field -> res Handler.

Variable record : list byte.

(** [_process_field]: the result dictionary after the field was
    processed.  ([parent_path] only feeds [field_path], which is not
    used.) *)
Fixpoint _process_field (f : Field) (result : list (string * value))
    : res (list (string * value)) :=
  let fix each (l : list Field) (acc : list (string * value)) :=
    match l with
    | [] => Ok acc
    | child :: rest => acc' <- _process_field child acc ;; each rest acc'
    end in
  if level f =? 0 then each (children f) result
  else if is_filler f then Ok result
  else if level f =? 88 then Ok result
  else if is_group f then
    group_result <- each (children f) [] ;;
    Ok (dict_set result (name f) (VDict group_result))
  else if truthy_str (picture f) || truthy_str (usage f) then
    handler <- get_handler_for_field f ;;
    v <- extract_from_record handler record f ;;
    (* [if field.occurs and field.occurs > 1] and its [else] store alike *)
    Ok (dict_set result (name f) v)
  else Ok result.

End Walker.

(** [convert]. *)
Definition convert (get_handler_for_field : Field -> res Handler)
    (structure : Field) (ebcdic_record : list byte)
    : res (list (string * value)) :=
  _process_field get_handler_for_field ebcdic_record structure [].

End ConversionEngine.

(** Modelled from the spec: [get_handler_for_field] of
    [data_types/__init__.py], which is not among the sources.  The decoder
    is chosen by [field.usage], an absent usage meaning DISPLAY; DISPLAY
    with SIGN SEPARATE goes to the sign-separate decoder; an unknown
    usage is an error.  The decoder of COMP-1 and COMP-2 and the byte
    order of the host are parameters. *)
Definition get_handler_for_field (floating_point_handler : Handler)
    (little_endian : bool) (f : Field) : res Handler :=
  let display :=
    if sign_separate f then signed_handler else display_handler in
  match usage f with
  | None => Ok display
  | Some u =>
      if String.eqb u "DISPLAY" then Ok display
      else if String.eqb u "COMP" || String.eqb u "COMP-4"
              || String.eqb u "BINARY" then Ok binary_handler
      else if String.eqb u "COMP-1" || String.eqb u "COMP-2"
      then Ok floating_point_handler
      else if String.eqb u "COMP-3" || String.eqb u "PACKED-DECIMAL"
      then Ok packed_decimal_handler
      else if String.eqb u "COMP-5" then Ok (native_binary_handler little_endian)
      else if String.eqb u "COMP-6" then Ok unsigned_packed_handler
      else Raise UnknownUsage
  end.

(* ================================================================== *)
(** * validation_engine: normalisation, comparison, classification     *)
(* ================================================================== *)

Module Validation.

(** ** Arithmetic on numbers

    An [int] operand is converted to a float; on two finite operands the
    operation is exact. *)

Definition Qlt_bool (a b : Q) : bool := negb (Qle_bool b a).

Definition fsub (a b : pyfloat) : pyfloat :=
  match a, b with
  | NaN, _ | _, NaN => NaN
  | Fin x, Fin y => Fin (x - y)
  | Fin _, Inf s => Inf (negb s)
  | Inf s, Fin _ => Inf s
  | Inf s, Inf t => if Bool.eqb s t then NaN else Inf s
  end.

Definition fmul (a b : pyfloat) : pyfloat :=
  match a, b with
  | NaN, _ | _, NaN => NaN
  | Fin x, Fin y => Fin (x * y)
  | Fin x, Inf s | Inf s, Fin x =>
      if Qeq_bool x 0 then NaN else Inf (xorb s (Qlt_bool x 0))
  | Inf s, Inf t => Inf (xorb s t)
  end.

Definition fabs (a : pyfloat) : pyfloat :=
  match a with
  | Fin x => Fin (Qabs x)
  | Inf _ => Inf false
  | NaN => NaN
  end.

Definition feq (a b : pyfloat) : bool :=
  match a, b with
  | Fin x, Fin y => Qeq_bool x y
  | Inf s, Inf t => Bool.eqb s t
  | _, _ => false
  end.

Definition flt (a b : pyfloat) : bool :=
  match a, b with
  | NaN, _ | _, NaN => false
  | Fin x, Fin y => Qlt_bool x y
  | Fin _, Inf s => negb s
  | Inf s, Fin _ => s
  | Inf s, Inf t => s && negb t
  end.

Definition fle (a b : pyfloat) : bool := flt a b || feq a b.

Definition of_int (n : Z) : pyfloat := Fin (inject_Z n).

(** The number a value is, when it is an [int] or a [float]. *)
Definition number (v : value) : option pyfloat :=
  match v with
  | VInt n => Some (of_int n)
  | VFloat x => Some x
  | _ => None
  end.

(** ** normalization.py *)

(** [float.is_integer] on a finite value. *)
Definition is_integer (q : Q) : bool := Qeq_bool q (inject_Z (Qfloor q)).

(** Nearest integer, ties to even: the rounding of [f"{x:.10f}"]. *)
Definition round_half_even (q : Q) : Z :=
  let fl := Qfloor q in
  let frac := (q - inject_Z fl)%Q in
  if Qlt_bool frac (1 # 2) then fl
  else if Qlt_bool (1 # 2) frac then fl + 1
  else if Z.even fl then fl else fl + 1.

Definition ten_digits : Z := 10 ^ 10.

(** [normalize_numeric]: a whole number becomes an [int]; another float
    is printed with ten decimals, stripped of its trailing zeros and read
    back.  The text of an infinity or a NaN has no point and is no
    integer literal either: ValueError. *)
Definition normalize_numeric (x : pyfloat) : res value :=
  match x with
  | Fin q =>
      if is_integer q then Ok (VInt (Qfloor q))
      else
        let r := round_half_even (q * inject_Z ten_digits) in
        if r mod ten_digits =? 0 then Ok (VInt (r / ten_digits))
        else Ok (VFloat (Fin (Qmake r (Z.to_pos ten_digits))))
  | _ => Raise ValueError
  end.

(** [s.isdigit()]. *)
Definition all_isdigit (s : string) : bool :=
  match s with
  | EmptyString => false
  | _ => forallb isdigit (chars s)
  end.

(** [s.split('.')]. *)
Fixpoint split_dot (s : string) : list string :=
  match s with
  | EmptyString => [EmptyString]
  | String c r =>
      if Ascii.eqb c "." then EmptyString :: split_dot r
      else match split_dot r with
           | p :: ps => String c p :: ps
           | [] => [String c EmptyString]
           end
  end.

Definition is_numeric_string (v : string) : bool :=
  let v := strip v in
  match v with
  | EmptyString => false
  | _ =>
      let v := if startswith "-" v then sslice v (Some 1) None else v in
      if contains "." v then
        match split_dot v with
        | [p0; p1] => all_isdigit p0 && all_isdigit p1
        | _ => false
        end
      else all_isdigit v
  end.

Definition normalize_string (v : string) : res value :=
  let normalized := strip v in
  if is_numeric_string normalized then
    except_ValueError
      (x <- float_of normalized ;;
       match x with
       | Fin q => if is_integer q then Ok (VInt (Qfloor q)) else Ok (VFloat x)
       | _ => Ok (VFloat x)
       end)
      (Ok (VStr normalized))
  else Ok (VStr normalized).

Fixpoint normalize_value (v : value) : res value :=
  match v with
  | VNone => Ok VNone
  | VInt n => normalize_numeric (of_int n)
  | VFloat x => normalize_numeric x
  | VStr s => normalize_string s
  | VList items =>
      l <- (fix each (l : list value) : res (list value) :=
              match l with
              | [] => Ok []
              | item :: rest =>
                  item' <- normalize_value item ;;
                  rest' <- each rest ;; Ok (item' :: rest')
              end) items ;;
      Ok (VList l)
  | VDict entries =>
      l <- (fix each (l : list (string * value)) : res (list (string * value)) :=
              match l with
              | [] => Ok []
              | (k, item) :: rest =>
                  item' <- normalize_value item ;;
                  rest' <- each rest ;; Ok ((k, item') :: rest')
              end) entries ;;
      Ok (VDict l)
  end.

(** ** dual_pass_validator.py: [_values_equal] *)

(** [value1 == value2]. *)
Fixpoint py_eq (a b : value) : bool :=
  match a, b with
  | VNone, VNone => true
  | VInt m, VInt n => m =? n
  | VInt m, VFloat y => feq (of_int m) y
  | VFloat x, VInt n => feq x (of_int n)
  | VFloat x, VFloat y => feq x y
  | VStr s, VStr t => String.eqb s t
  | VList l1, VList l2 =>
      (fix each (l1 l2 : list value) : bool :=
         match l1, l2 with
         | [], [] => true
         | x :: r1, y :: r2 => py_eq x y && each r1 r2
         | _, _ => false
         end) l1 l2
  | VDict d1, VDict d2 =>
      (List.length d1 =? List.length d2)%nat
      && (fix each (l : list (string * value)) : bool :=
            match l with
            | [] => true
            | (k, x) :: r =>
                match dict_get d2 k with
                | Some y => py_eq x y && each r
                | None => false
                end
            end) d1
  | _, _ => false
  end.

Definition is_float (v : value) : bool :=
  match v with VFloat _ => true | _ => false end.

Definition _values_equal (tolerance : pyfloat) (value1 value2 : value) : bool :=
  match value1, value2 with
  | VNone, VNone => true
  | VNone, _ | _, VNone => false
  | _, _ =>
      match number value1, number value2 with
      | Some a, Some b =>
          if is_float value1 || is_float value2
          then fle (fabs (fsub a b)) tolerance
          else py_eq value1 value2
      | _, _ =>
          match value1, value2 with
          | VStr s, VStr t => String.eqb (strip s) (strip t)
          | _, _ => py_eq value1 value2
          end
      end
  end.

(** ** error_classifier.py *)

Local Open Scope string_scope.

(** [type(v).__name__]. *)
Definition type_name (v : value) : string :=
  match v with
  | VNone => "NoneType"
  | VInt _ => "int"
  | VFloat _ => "float"
  | VStr _ => "str"
  | VList _ => "list"
  | VDict _ => "dict"
  end.

(** The second component of a classification.  The texts that print the
    two numbers keep them as values: [About p a b] stands for
    [f"{p}: {a} vs {b}"]. *)
Inductive details : Type :=
| Text (s : string)
| About (prefix : string) (value1 value2 : value).

(** The loop [for i in range(1, 10)] from [i] on, [n] rounds left: the
    first exponent whose factor relates the two numbers. *)
Fixpoint scale_exponent (a b tolerance : pyfloat) (i : Z) (n : nat)
    : option Z :=
  match n with
  | O => None
  | S n' =>
      let factor := of_int (10 ^ i) in
      if flt (fabs (fsub (fmul a factor) b)) tolerance
         || flt (fabs (fsub a (fmul b factor))) tolerance
      then Some i
      else scale_exponent a b tolerance (i + 1) n'
  end.

Definition classify_numeric_error (value1 value2 : value)
    (a b tolerance : pyfloat) : string * details :=
  if flt (fmul a b) (of_int 0) then
    ("sign_error", About "Sign mismatch" value1 value2)
  else if feq (fabs (fsub a b)) (of_int 1) then
    ("off_by_one", About "Off by one" value1 value2)
  else if fle (fabs (fsub a b)) tolerance then
    ("precision_loss", About "Precision loss within tolerance" value1 value2)
  else
    match scale_exponent a b tolerance 1 9 with
    | Some i =>
        ("scale_error",
         About ("Scale error (factor of 10^" ++ str_of_int i ++ ")") value1 value2)
    | None =>
        ("numeric_mismatch", About "Numeric values don't match" value1 value2)
    end.

(** Does some position of the two strings differ with a code point
    above 127 on either side ([zip] stops at the shorter). *)
Fixpoint encoding_issue (s t : string) : bool :=
  match s, t with
  | String c1 r1, String c2 r2 =>
      (negb (Ascii.eqb c1 c2) && ((127 <? ord c1)%Z || (127 <? ord c2)%Z))
      || encoding_issue r1 r2
  | _, _ => false
  end.

Definition lower_str (s : string) : string := str (map lower (chars s)).

Definition classify_string_error (value1 value2 : string) : string * details :=
  if String.eqb (strip value1) (strip value2) then
    ("whitespace_error", Text "Whitespace differences only")
  else if String.eqb (lower_str value1) (lower_str value2) then
    ("case_error", Text "Case differences only")
  else if encoding_issue value1 value2 then
    ("character_encoding", Text "Possible character encoding issues")
  else if String.prefix value2 value1 || String.prefix value1 value2 then
    ("truncation", Text "One string appears to be truncated")
  else
    ("string_mismatch",
     Text ("String values don't match: '" ++ value1 ++ "' vs '" ++ value2 ++ "'")).

Definition classify_error (value1 value2 : value) (tolerance : pyfloat)
    : string * details :=
  match value1, value2 with
  | VNone, _ | _, VNone => ("missing_value", Text "One of the values is None")
  | _, _ =>
      if negb (String.eqb (type_name value1) (type_name value2)) then
        ("type_mismatch",
         Text ("Type mismatch: " ++ type_name value1 ++ " vs " ++ type_name value2))
      else
        match number value1, number value2 with
        | Some a, Some b => classify_numeric_error value1 value2 a b tolerance
        | _, _ =>
            match value1, value2 with
            | VStr s, VStr t => classify_string_error s t
            | _, _ => ("unknown_error", Text "Unknown error type")
            end
        end
  end.

(** The comparison [_compare_records] makes for a field path that both
    passes have: nothing when the normalised values are equal, else the
    classification. *)
Definition compare_leaf (tolerance : pyfloat) (first_value second_value : value)
    : res (option (string * details)) :=
  norm_first <- normalize_value first_value ;;
  norm_second <- normalize_value second_value ;;
  if _values_equal tolerance norm_first norm_second then Ok None
  else Ok (Some (classify_error norm_first norm_second tolerance)).

End Validation.

(* ================================================================== *)
(** * dual_pass_validator.py: flattening, comparison of records, the run *)
(* ================================================================== *)

Module DualPassValidator.
Import Validation.

(** [dict(items)]: later items replace earlier ones of the same key. *)
Definition dict_of_items (items : list (string * value)) : list (string * value) :=
  fold_left (fun d kv => dict_set d (fst kv) (snd kv)) items [].

(** [f"{parent_key}.{k}" if parent_key else k]. *)
Definition new_key (parent_key k : string) : string :=
  match parent_key with
  | EmptyString => k
  | _ => (parent_key ++ "." ++ k)%string
  end.

(** [_flatten_dict(d, parent_key)] for the dictionary [d]. *)
Fixpoint _flatten_dict (d : value) (parent_key : string)
    : list (string * value) :=
  match d with
  | VDict entries =>
      dict_of_items
        ((fix items (l : list (string * value)) : list (string * value) :=
            match l with
            | [] => []
            | (k, v) :: rest =>
                match v with
                | VDict _ => _flatten_dict v (new_key parent_key k)
                | _ => [(new_key parent_key k, v)]
                end ++ items rest
            end) entries)
  | _ => []
  end.

(** [_parse_ascii_line]: the placeholder of the source, an empty
    dictionary whatever the line. *)
Definition _parse_ascii_line (line : string) : list (string * value) := [].

(** One entry of [mismatch_details]. *)
Record mismatch : Type := mkMismatch {
  record_index : Z;
  field_path : string;
  first_pass : value;
  second_pass : value;
  error_type : string;
  error_details : details
}.

Definition has_key (d : list (string * value)) (k : string) : bool :=
  match dict_get d k with
  | Some _ => true
  | None => false
  end.

Section Compare.
Variable tolerance : pyfloat.

(** The first loop of [_compare_records], over the items of the
    flattened first pass. *)
Fixpoint compare_first (items flat_second : list (string * value))
    (index : Z) : res (list mismatch) :=
  match items with
  | [] => Ok []
  | (path, first_value) :: rest =>
      match dict_get flat_second path with
      | None =>
          more <- compare_first rest flat_second index ;;
          Ok (mkMismatch index path first_value VNone "missing_field"
                (Text "Field present in first pass but missing in second pass")
              :: more)
      | Some second_value =>
          norm_first <- normalize_value first_value ;;
          norm_second <- normalize_value second_value ;;
          if _values_equal tolerance norm_first norm_second then
            compare_first rest flat_second index
          else
            let (ty, det) := classify_error norm_first norm_second tolerance in
            more <- compare_first rest flat_second index ;;
            Ok (mkMismatch index path first_value second_value ty det :: more)
      end
  end.

(** The second loop, over the items of the flattened second pass. *)
Fixpoint compare_second (items flat_first : list (string * value))
    (index : Z) : list mismatch :=
  match items with
  | [] => []
  | (path, second_value) :: rest =>
      if has_key flat_first path then compare_second rest flat_first index
      else
        mkMismatch index path VNone second_value "missing_field"
          (Text "Field present in second pass but missing in first pass")
        :: compare_second rest flat_first index
  end.

Definition _compare_records (first second : list (string * value))
    (index : Z) : res (list mismatch) :=
  let flat_first := _flatten_dict (VDict first) "" in
  let flat_second := _flatten_dict (VDict second) "" in
  found <- compare_first flat_first flat_second index ;;
  Ok (found ++ compare_second flat_second flat_first index).

(** The [results] dictionary of [validate]. *)
Record results : Type := mkResults {
  total_records : Z;
  total_fields : Z;
  mismatches : Z;
  mismatch_details : list mismatch
}.

Variable get_handler_for_field : Field -> res Handler.
Variable structure : Field.

(** The loop of [validate] over [zip(ebcdic_reader, ascii_lines)],
    records numbered from [index]. *)
Fixpoint validate_loop (pairs : list (list byte * string)) (index : Z)
    (acc : results) : res results :=
  match pairs with
  | [] => Ok acc
  | (ebcdic_record, ascii_line) :: rest =>
      second_pass_result <-
        ConversionEngine.convert get_handler_for_field structure ebcdic_record ;;
      let first_pass_result := _parse_ascii_line ascii_line in
      record_mismatches <-
        _compare_records first_pass_result second_pass_result index ;;
      validate_loop rest (index + 1)
        (mkResults (total_records acc + 1)
           (total_fields acc + len (_flatten_dict (VDict first_pass_result) ""))
           (mismatches acc + len record_mismatches)
           (mismatch_details acc ++ record_mismatches))
  end.

(** [validate], for the contents of the EBCDIC file and the lines of the
    ASCII file.  The reader is built without a record length. *)
Definition validate (contents : list byte) (ascii_lines : list string)
    : res results :=
  validate_loop
    (combine (EbcdicReader.records None contents) ascii_lines) 0
    (mkResults 0 0 0 []).

End Compare.

End DualPassValidator.

(* ================================================================== *)
(** * report_generator.py: the mismatch rate                           *)
(* ================================================================== *)

(** [results['mismatches'] / results['total_fields'] * 100
     if results['total_fields'] > 0 else 0], as the JSON, HTML and text
    reports compute it. *)
Definition mismatch_rate (r : DualPassValidator.results) : value :=
  if DualPassValidator.total_fields r >? 0 then
    VFloat (Fin (inject_Z (DualPassValidator.mismatches r)
                 / inject_Z (DualPassValidator.total_fields r)
                 * inject_Z 100)%Q)
  else VInt 0.

(* ================================================================== *)
(** * utils.py                                                         *)
(* ================================================================== *)

Module Utils.

(** [swap_endianness]: the bytes exchanged two by two; a last single
    byte stays. *)
Fixpoint swap_endianness (data : list byte) : list byte :=
  match data with
  | a :: b :: rest => b :: a :: swap_endianness rest
  | other => other
  end.

(** [get_record_length_from_structure]. *)
Definition get_record_length_from_structure (structure : Field) : Z :=
  size structure.

(** [fill_value * n] on bytes. *)
Definition bytes_times (fill_value : list byte) (n : Z) : list byte :=
  List.concat (List.repeat fill_value (Z.to_nat n)).

(** [create_sample_record]. *)
Definition create_sample_record (structure : Field) (fill_value : list byte)
    : list byte :=
  bytes_times fill_value (get_record_length_from_structure structure).

End Utils.

(* ================================================================== *)
(** * Scenarios and predicates of the properties                       *)
(* ================================================================== *)

(** The sizes the children contribute when the REDEFINES ones count for
    nothing, as the offsets count them. *)
Definition non_redefines_sum (ch : list Field) : Z :=
  sum (map size (filter (fun c => negb (truthy_str (redefines c))) ch)).

(** Scenario: a group of [A PIC X(4)] and [B REDEFINES A PIC 9(4)]. *)
Definition redefines_group : Field :=
  mkField 1 "G" None None None None None false true false false false false
    false
    [ elementary "A" "X(4)" None;
      mkField 5 "B" (Some "9(4)"%string) None None (Some "A"%string) None
        false false false false false false false [] 0 0 [] ]
    0 0 [].

(** The smallest such group: one-character pictures. *)
Definition redefines_pair : Field :=
  mkField 1 "G" None None None None None false true false false false false
    false
    [ elementary "A" "X" None;
      mkField 5 "B" (Some "9"%string) None None (Some "A"%string) None
        false false false false false false false [] 0 0 [] ]
    0 0 [].


(** The scenario fields, sized by the resolver. *)
Definition amt : Field :=
  calculate_field_sizes (elementary "AMT" "S9(3)V99" None).
Definition qty : Field :=
  calculate_field_sizes (elementary "QTY" "S9(5)" (Some "COMP-3"%string)).
Definition scaled_cnt : Field :=
  calculate_field_sizes (elementary "CNT" "S9(3)V99" (Some "COMP"%string)).
Definition scaled_cnt_one : Field :=
  calculate_field_sizes (elementary "CNT" "S9(4)V9" (Some "COMP"%string)).

(** Scenario: [05 ITEM OCCURS 3 TIMES PIC 9(2).] under the root. *)
Definition item : Field :=
  mkField 5 "ITEM" (Some "9(2)"%string) None (Some 3) None None false false
    false false false false false [] 0 0 [].

Definition occurs_root : Field :=
  mkField 0 "ROOT" None None None None None false true false false false
    false false [item] 0 0 [].



(** ** Predicates of the properties of the decoders *)

(** Decimal digits only. *)
Definition digit_chars (l : list ascii) : Prop :=
  Forall (fun c => is_decimal c = true) l.

(** The text with a minus sign put before it, or as it is. *)
Definition with_sign (negative : bool) (s : string) : string :=
  if negative then String "-" s else s.

(** The number the packed and the sign-separate decoder make of the
    integer [v] their digits write: [v] itself for a picture without V or
    point, else [v] with as many decimals as nines are written after the
    V. *)
Definition scaled_number (v : Z) (p : string) : value :=
  if contains "V" p || contains "." p then
    if count_places p >? 0
    then VFloat (Fin (Qmake v (Z.to_pos (10 ^ count_places p))))
    else VInt v
  else VInt v.

Definition signed_int (negative : bool) (v : Z) : Z :=
  if negative then - v else v.

(** The bytes read as a two's complement number, most significant byte
    first. *)
Definition signed_big_endian (data : list byte) : Z :=
  Struct.to_signed (8 * len data) (Struct.be_unsigned data).

(** What the binary decoders make of the integer [n]. *)
Definition binary_number (n : Z) (f : Field) : value :=
  if picture_has "V" f || picture_has "." f then VFloat (Fin (n # 1))
  else VInt n.

(** Both nibbles of the byte are decimal digits. *)
Definition bcd_byte (b : byte) : bool :=
  (high_nibble b <=? 9) && (low_nibble b <=? 9).

(** The number the digit pairs of [data] write after [acc]. *)
Fixpoint bcd_number (acc : Z) (data : list byte) : Z :=
  match data with
  | [] => acc
  | b :: r => bcd_number (acc * 100 + 10 * high_nibble b + low_nibble b) r
  end.

(** The character of the digit [n]. *)
Definition digit_char (n : Z) : ascii := chr (48 + n).

(** The digit characters of the nibbles of [data]. *)
Fixpoint nibble_chars (data : list byte) : list ascii :=
  match data with
  | [] => []
  | b :: r => digit_char (high_nibble b) :: digit_char (low_nibble b) :: nibble_chars r
  end.

(** The number a packed field writes: the digit pairs of all bytes but
    the last, then the high nibble of the last. *)
Definition packed_number (init : list byte) (b : byte) : Z :=
  bcd_number 0 init * 10 + high_nibble b.

(** The sign nibble of the last byte says minus: B or D. *)
Definition packed_negative (b : byte) : bool :=
  (low_nibble b =? 11) || (low_nibble b =? 13).

(** The byte is one of F0 .. F9. *)
Definition zoned_digit (b : byte) : bool :=
  (240 <=? byte_val b) && (byte_val b <=? 249).

(** The number the zoned digits write. *)
Definition zoned_number (data : list byte) : Z :=
  fold_left (fun acc b => acc * 10 + (byte_val b - 240)) data 0.

(** The sign the sign-separate decoder reads off a sign byte: minus for
    the characters [-] and [D]. *)
Definition sign_byte_negative (b : byte) : bool :=
  Ascii.eqb (decode_byte b) "-" || Ascii.eqb (decode_byte b) "D".

(** What [DisplayHandler.to_dict_value] makes of the integer [v] that
    zoned digits write. *)
Definition display_number (v : Z) (f : Field) : value :=
  if picture_has "V" f || picture_has "." f then
    if picture_has "V" f && (DisplayHandler.decimal_places f >? 0)
    then VFloat (Fin (Qmake v (Z.to_pos (10 ^ DisplayHandler.decimal_places f))))
    else VFloat (Fin (v # 1))
  else VInt v.

(** ** The trees: induction, the loops by themselves *)

(** Induction on the field tree: a property that holds for a field when
    it holds for its children holds for every field. *)
Fixpoint field_induction (P : Field -> Prop)
    (step : forall f, Forall P (children f) -> P f) (f : Field) : P f :=
  step f
    (match f as f0 return Forall P (children f0) with
     | mkField _ _ _ _ _ _ _ _ _ _ _ _ _ _ ch _ _ _ =>
         (fix go (l : list Field) : Forall P l :=
            match l with
            | [] => Forall_nil P
            | c :: r => Forall_cons c (field_induction P step c) (go r)
            end) ch
     end).

Section ValueInduction.
Variable P : value -> Prop.
Hypothesis HNone : P VNone.
Hypothesis HInt : forall n, P (VInt n).
Hypothesis HFloat : forall x, P (VFloat x).
Hypothesis HStr : forall s, P (VStr s).
Hypothesis HList : forall items, Forall P items -> P (VList items).
Hypothesis HDict :
  forall entries, Forall (fun kv => P (snd kv)) entries -> P (VDict entries).

(** Induction on a decoded value, through its lists and dictionaries. *)
Fixpoint value_induction (v : value) : P v :=
  match v with
  | VNone => HNone
  | VInt n => HInt n
  | VFloat x => HFloat x
  | VStr s => HStr s
  | VList items =>
      HList items
        ((fix each (l : list value) : Forall P l :=
            match l with
            | [] => Forall_nil _
            | x :: r => Forall_cons x (value_induction x) (each r)
            end) items)
  | VDict entries =>
      HDict entries
        ((fix each (l : list (string * value)) : Forall (fun kv => P (snd kv)) l :=
            match l with
            | [] => Forall_nil _
            | kv :: r => Forall_cons kv (value_induction (snd kv)) (each r)
            end) entries)
  end.
End ValueInduction.

(** The loop of [calculate_field_offsets] over the children, by
    itself. *)
Definition offsets_loop : list Field -> list Field -> Z -> list Field * Z :=
  fix loop (rest done : list Field) (next_offset : Z) : list Field * Z :=
    match rest with
    | [] => (done, next_offset)
    | child :: rest' =>
        if truthy_str (redefines child) then
          match find_named (done ++ rest)
                  (match redefines child with Some t => t | None => EmptyString end) with
          | Some redefined_field =>
              let (c, _) := calculate_field_offsets child (offset redefined_field) in
              loop rest' (done ++ [c]) next_offset
          | None =>
              let (c, n) := calculate_field_offsets child next_offset in
              loop rest' (done ++ [c]) n
          end
        else
          let (c, n) := calculate_field_offsets child next_offset in
          loop rest' (done ++ [c]) n
    end.

(** No field below [f] redefines another. *)
Fixpoint no_redefines_below (f : Field) : bool :=
  forallb (fun c => negb (truthy_str (redefines c)) && no_redefines_below c)
    (children f).

(** The loop of [_process_field] over the children, by itself. *)
Definition process_each (gh : Field -> res Handler) (record : list byte)
    : list Field -> list (string * value) -> res (list (string * value)) :=
  fix each (l : list Field) (acc : list (string * value)) :=
    match l with
    | [] => Ok acc
    | child :: rest =>
        acc' <- ConversionEngine._process_field gh record child acc ;;
        each rest acc'
    end.

(** The items [_flatten_dict] collects before it builds the
    dictionary. *)
Definition flatten_items (parent_key : string)
    : list (string * value) -> list (string * value) :=
  fix items (l : list (string * value)) : list (string * value) :=
    match l with
    | [] => []
    | (k, v) :: rest =>
        match v with
        | VDict _ =>
            DualPassValidator._flatten_dict v (DualPassValidator.new_key parent_key k)
        | _ => [(DualPassValidator.new_key parent_key k, v)]
        end ++ items rest
    end.

(** ** Predicates of the properties of the walker and the validator *)

(** A field the walker decodes and stores: neither a FILLER nor a
    condition, and with a picture or a usage. *)
Definition visible (c : Field) : bool :=
  negb (is_filler c) && negb (level c =? 88)
  && (truthy_str (picture c) || truthy_str (usage c)).

(** What the walker decodes for an elementary field. *)
Definition decode_field (gh : Field -> res Handler) (record : list byte)
    (c : Field) : res value :=
  handler <- gh c ;; extract_from_record handler record c.

(** The dictionary after the entries were stored one by one. *)
Definition store_all (entries : list (string * value))
    (d : list (string * value)) : list (string * value) :=
  fold_left (fun d kv => dict_set d (fst kv) (snd kv)) entries d.

(** The entry of a field whose value is [value_of]. *)
Definition entry (value_of : Field -> value) (c : Field) : string * value :=
  (name c, value_of c).

Definition keys (d : list (string * value)) : list string := map fst d.

Definition is_dict (v : value) : bool :=
  match v with VDict _ => true | _ => false end.

(** A class other than the two that repeat the comparison. *)
Definition reported (ty : string) : Prop :=
  ty <> "precision_loss"%string /\ ty <> "whitespace_error"%string.

(** The mismatch [_compare_records] lists for an item that only the
    second pass has. *)
Definition missing_in_first (index : Z) (kv : string * value)
    : DualPassValidator.mismatch :=
  DualPassValidator.mkMismatch index (fst kv) VNone (snd kv) "missing_field"
    (Validation.Text "Field present in second pass but missing in first pass").

Definition only_missing (m : DualPassValidator.mismatch) : Prop :=
  DualPassValidator.error_type m = "missing_field"%string
  /\ DualPassValidator.first_pass m = VNone.

(** A leaf as the decoders produce them, within the range of a float:
    no value, an integer below 10^308 in magnitude, a finite float, or a
    text of at most 308 characters. *)
Definition plain (v : value) : bool :=
  match v with
  | VNone => true
  | VInt n => Z.abs n <? 10 ^ 308
  | VFloat (Fin _) => true
  | VStr s => slen s <=? 308
  | _ => false
  end.

(** ** Pictures with decimals, and further scenarios *)

(** The picture part [99...9] of [k] nines. *)
Definition nines (k : Z) : string := repeat_char "9" k.

(** The picture [p] followed, for [k > 0], by a V and [k] nines. *)
Definition with_decimals (p : string) (k : Z) : string :=
  if k >? 0 then (p ++ String "V" (nines k))%string else p.

(** The integer [v] with [k] decimals: [v / 10^k] as a float for
    [k > 0], the integer [v] itself for no decimals. *)
Definition decimal_number (v k : Z) : value :=
  if k >? 0 then VFloat (Fin (Qmake v (Z.to_pos (10 ^ k)))) else VInt v.

(** The picture is at most 4300 characters long, so that no repeat count
    has more digits than [int()] takes, and its decimal part expands to
    at most a million characters: the [re.sub] of
    [DisplayHandler.to_dict_value], which stands outside the [try],
    builds the expansion and raises nothing. *)
Definition small_repeats (f : Field) : Prop :=
  match picture f with
  | Some p => slen p <= 4300 /\ DisplayHandler.decimal_places f <= 1000000
  | None => True
  end.



(** Scenario: a flat record with a FILLER, a condition, a field that has
    neither picture nor usage, and the name [A] used twice. *)
Definition flat_root : Field :=
  mkField 0 "ROOT" None None None None None false true false false false
    false false
    [ elementary "A" "XX" None;
      mkField 5 "FILLER" (Some "X"%string) None None None None true false
        false false false false false [] 0 0 [];
      mkField 88 "IS-SET" None None None None (Some "Y"%string) false false
        false false false false false [] 0 0 [];
      mkField 5 "N" None None None None None false false false false false
        false false [] 0 0 [];
      elementary "B" "S999" (Some "COMP-3"%string);
      elementary "A" "99" None ]
    0 0 [].

(** The same with the last field named [C]. *)
Definition flat_root_distinct : Field :=
  mkField 0 "ROOT" None None None None None false true false false false
    false false
    [ elementary "A" "XX" None;
      mkField 5 "FILLER" (Some "X"%string) None None None None true false
        false false false false false [] 0 0 [];
      mkField 88 "IS-SET" None None None None (Some "Y"%string) false false
        false false false false false [] 0 0 [];
      mkField 5 "N" None None None None None false false false false false
        false false [] 0 0 [];
      elementary "B" "S999" (Some "COMP-3"%string);
      elementary "C" "99" None ]
    0 0 [].

(** The value decoded for a field, no value when decoding raises. *)
Definition decoded_or_none (gh : Field -> res Handler) (record : list byte)
    (c : Field) : value :=
  match decode_field gh record c with
  | Ok v => v
  | Raise _ => VNone
  end.

(* ================================================================== *)
(** * Properties                                                       *)
(* ================================================================== *)

(** ** The embedding on small inputs *)

Example parse_float_ok : parse_float "001.23" = Some (Fin (123 # 100)).
Proof. reflexivity. Qed.

Example parse_float_bad : parse_float "001.2C" = None.
Proof. reflexivity. Qed.

Example parse_float_exp : parse_float "0.E00" = Some (Fin (0 # 1)).
Proof. reflexivity. Qed.

Example parse_int_ok : parse_int " -0012 " = Some (-12).
Proof. reflexivity. Qed.

Example parse_int_digits : parse_int "123456" = Some 123456 /\ parse_int "1_0" = Some 10.
Proof. split; reflexivity. Qed.

Example parse_int_bad :
  parse_int "1__0" = None /\ parse_int "" = None /\ parse_int "+-1" = None
  /\ parse_int "0a" = None /\ parse_int "1 2" = None.
Proof. repeat split. Qed.

Example parse_float_more :
  parse_float "1e1_0" = Some (Fin (10000000000 # 1))
  /\ parse_float "1e-0_1" = Some (Fin (1 # 10))
  /\ parse_float ".5e+5" = Some (Fin (50000 # 1))
  /\ parse_float "-Infinity" = Some (Inf true)
  /\ parse_float "+nAn" = Some NaN
  /\ parse_float "1._5" = None /\ parse_float "." = None
  /\ parse_float "1e" = None /\ parse_float "infi" = None
  /\ parse_float "e5" = None /\ parse_float "1.0.0" = None.
Proof. repeat split. Qed.

Example str_of_int_neg : str_of_int (-2) = "-2"%string /\ str_of_int 0 = "0"%string.
Proof. split; reflexivity. Qed.

Example base_size_S9_9 : base_size "S9(9)" = 11.
Proof. reflexivity. Qed.

Example normalize_unclosed : normalize_picture "9(3V(2)" = "X(3XXX"%string.
Proof. reflexivity. Qed.

Example expand_repeats_mixed :
  expand_repeats "X" "9(3V(2)(()(12)(0)x" = "9(3VXX(()XXXXXXXXXXXXx"%string.
Proof. reflexivity. Qed.

Example cp037_digits :
  decode [xf0; xf1; xf9; xc3; xd3; x40] = "019CL "%string.
Proof. reflexivity. Qed.

Example unpack_minus_two :
  Struct.unpack_signed false 4 [xff; xff; xff; xfe] = Ok (-2).
Proof. reflexivity. Qed.

Example packed_1234 :
  PackedDecimalHandler.ebcdic_to_ascii [x01; x23; x4c]
    (elementary "QTY" "S9(5)" (Some "COMP-3"%string)) = Ok "01234"%string.
Proof. reflexivity. Qed.

Example packed_1234_neg :
  PackedDecimalHandler.extract_from_record [x01; x23; x4d]
    (with_size (elementary "QTY" "S9(5)" (Some "COMP-3"%string)) 3)
  = Ok (VInt (-1234)).
Proof. reflexivity. Qed.

Example display_unsigned :
  DisplayHandler.to_dict_value "00123" (elementary "AMT" "9(3)V99" None)
  = Ok (VFloat (Fin (123 # 100))).
Proof. reflexivity. Qed.

Example reader_two_records :
  EbcdicReader.iterate (Some 2) [x01; x02; x03; x04; x05]
  = Ok [[x01; x02]; [x03; x04]].
Proof. reflexivity. Qed.

Example normalize_float_kept :
  Validation.normalize_value (VFloat (Fin (12345 # 100)))
  = Ok (VFloat (Fin (1234500000000 # 10000000000))).
Proof. vm_compute. reflexivity. Qed.

(** ** Strings and lists of characters *)

Lemma chars_str l : chars (str l) = l.
Proof. apply list_ascii_of_string_of_list_ascii. Qed.

Lemma str_chars s : str (chars s) = s.
Proof. apply string_of_list_ascii_of_string. Qed.

Lemma chars_app s t : chars (s ++ t)%string = chars s ++ chars t.
Proof. induction s as [|c s IH]; simpl; [reflexivity | now rewrite IH]. Qed.

Lemma len_app {A : Type} (l1 l2 : list A) : len (l1 ++ l2) = len l1 + len l2.
Proof. unfold len. rewrite length_app. lia. Qed.

Lemma len_nonneg {A : Type} (l : list A) : 0 <= len l.
Proof. unfold len. lia. Qed.

Lemma slen_app s t : slen (s ++ t)%string = slen s + slen t.
Proof. unfold slen. now rewrite chars_app, len_app. Qed.

Lemma slen_String c s : slen (String c s) = 1 + slen s.
Proof.
  unfold slen, len. change (chars (String c s)) with (c :: chars s).
  cbn [List.length]. lia.
Qed.

(** ** The layout resolver *)

Section PictureSize.

Lemma sub_repeats_plain rep c l :
  Ascii.eqb c "(" = false ->
  sub_repeats rep None (c :: l) = c :: sub_repeats rep None l.
Proof. intros H. simpl. now rewrite H. Qed.

(** Characters before the first parenthesis go through unchanged. *)
Lemma sub_repeats_prefix rep (p : string) l :
  contains "(" p = false ->
  sub_repeats rep None (chars p ++ l) = chars p ++ sub_repeats rep None l.
Proof.
  induction p as [|c p IH]; intros H; [reflexivity|].
  simpl in H. apply orb_false_elim in H as [Hc Hp].
  change (chars (String c p) ++ l) with (c :: (chars p ++ l)).
  rewrite sub_repeats_plain by (now rewrite Ascii.eqb_sym).
  simpl. now rewrite IH.
Qed.

Lemma base_size_sub l :
  len (map to_X l) = len l.
Proof. unfold len. now rewrite length_map. Qed.

Lemma base_size_chars pic :
  base_size pic = len (sub_repeats "X" None (chars pic)).
Proof.
  unfold base_size, normalize_picture, expand_repeats, slen.
  now rewrite !chars_str, base_size_sub.
Qed.

(** Before the first parenthesis every character is one position. *)
Lemma base_size_prefix (p q : string) :
  contains "(" p = false ->
  base_size (p ++ q) = slen p + base_size q.
Proof.
  intros H. rewrite !base_size_chars, chars_app, sub_repeats_prefix by exact H.
  now rewrite len_app.
Qed.

Lemma base_size_plain (p : string) :
  contains "(" p = false -> base_size p = slen p.
Proof.
  intros H. pose proof (base_size_prefix p EmptyString H) as E.
  assert (Hp : (p ++ "")%string = p).
  { clear. induction p; simpl; [reflexivity | now f_equal]. }
  rewrite Hp in E. rewrite E.
  change (base_size "") with 0. lia.
Qed.

End PictureSize.

(** COMP-3 and COMP-6 are sized by the same expression. *)
Lemma packed_size_is_unsigned_packed_size pic :
  calculate_picture_size pic (Some "COMP-3"%string)
  = calculate_picture_size pic (Some "COMP-6"%string)
  /\ calculate_picture_size pic (Some "COMP-3"%string) = (base_size pic + 1) / 2.
Proof. split; reflexivity. Qed.

(** A group with children is as large as all its children together,
    whether they redefine a sibling or not. *)
Lemma group_size_sums_all_children f :
  is_group f = true -> children f <> [] ->
  size (calculate_field_sizes f)
  = sum (map (fun c => size (calculate_field_sizes c)) (children f)).
Proof.
  intros Hg Hc. destruct f as [lv nm pic us oc rd vl fl gr jr bz ss sl sy ch sz off cd].
  simpl in *. subst gr. destruct ch as [|c ch]; [contradiction|].
  cbn [nonempty andb]. cbn [with_size with_children size].
  now rewrite map_map.
Qed.





(** C5 (the code departs from it): a COMP-3 picture of two digits needs
    two bytes, ceil((2+1)/2), and is sized 1; PIC S9(5) COMP-3 is sized 4,
    not 3.  The expression is the one of COMP-6, which has no sign
    nibble. *)
Theorem C5_packed_size_rounds_down :
  calculate_picture_size "99" (Some "COMP-3"%string) = 1
  /\ base_size "99" = 2
  /\ calculate_picture_size "99" (Some "PACKED-DECIMAL"%string) = 1
  /\ calculate_picture_size "S9(5)" (Some "COMP-3"%string) = 4
  /\ calculate_picture_size "99" (Some "COMP-6"%string) = 1.
Proof. repeat split. Qed.

(** C8 (the code departs from it): in the REDEFINES scenario the group
    is sized 10, the sizes of [A] and of [B REDEFINES A] added up, while
    its children that redefine nothing amount to 5, which is also where
    the offsets end. *)
Theorem C8_group_size_counts_redefines :
  let g := calculate_field_sizes redefines_group in
  size g = 10
  /\ map size (children g) = [5; 5]
  /\ non_redefines_sum (children g) = 5
  /\ snd (calculate_field_offsets g 0) = 5
  /\ map offset (children (fst (calculate_field_offsets g 0))) = [0; 0]
  /\ size (calculate_field_sizes redefines_pair) = 2
  /\ non_redefines_sum (children (calculate_field_sizes redefines_pair)) = 1.
Proof. repeat split. Qed.

(** ** The byte decoders *)




(** *** DisplayHandler *)




(** *** BinaryHandler, NativeBinaryHandler *)






(** *** PackedDecimalHandler, SignedHandler *)

Lemma index_last {A : Type} (init : list A) (a : A) :
  index (init ++ [a]) (-1) = Ok a.
Proof.
  unfold index. rewrite len_app. change (len [a]) with 1.
  pose proof (len_nonneg init) as Hn.
  change (-1 <? 0) with true. cbv iota.
  replace (-1 + (len init + 1)) with (len init) by lia.
  destruct (len init <? 0) eqn:E1; [apply Z.ltb_lt in E1; lia|].
  destruct (len init + 1 <=? len init) eqn:E2; [apply Z.leb_le in E2; lia|].
  simpl. unfold len. rewrite Nat2Z.id.
  rewrite nth_error_app2 by lia. now rewrite Nat.sub_diag.
Qed.

Lemma index_first {A : Type} (a : A) (l : list A) : index (a :: l) 0 = Ok a.
Proof.
  unfold index. change (0 <? 0) with false. cbv iota.
  pose proof (len_nonneg l) as Hn.
  assert (E : len (a :: l) = len l + 1) by (unfold len; cbn [List.length]; lia).
  rewrite E. destruct (len l + 1 <=? 0) eqn:E2; [apply Z.leb_le in E2; lia|].
  reflexivity.
Qed.

Lemma index_empty {A : Type} (i : Z) : index (@nil A) i = Raise IndexError.
Proof.
  unfold index. change (len (@nil A)) with 0.
  destruct (i <? 0) eqn:E.
  - replace (i + 0) with i by lia. now rewrite E.
  - rewrite E. destruct (0 <=? i) eqn:E2; [reflexivity|].
    apply Z.ltb_ge in E. apply Z.leb_gt in E2. lia.
Qed.

Lemma firstn_init {A : Type} (init : list A) (a : A) :
  firstn (List.length (init ++ [a]) - 1) (init ++ [a]) = init.
Proof.
  rewrite length_app. simpl. rewrite Nat.add_sub.
  rewrite firstn_app, Nat.sub_diag, firstn_all. simpl. apply app_nil_r.
Qed.

(** The digits and the sign the packed decoder reads off a slice that
    ends in [b]. *)
Lemma packed_ebcdic_to_ascii_nonempty init b f :
  PackedDecimalHandler.ebcdic_to_ascii (init ++ [b]) f
  = Ok (String.append
          (if ((low_nibble b =? 11) || (low_nibble b =? 13))%Z
           then "-"%string else ""%string)
          (String.append (nibble_digits init) (str_of_int (high_nibble b)))).
Proof.
  unfold PackedDecimalHandler.ebcdic_to_ascii.
  rewrite firstn_init, index_last. simpl.
  destruct ((low_nibble b =? 11) || (low_nibble b =? 13)); reflexivity.
Qed.






Lemma nibble_first_char b :
  exists c r, str_of_int (high_nibble b) = String c r /\ Ascii.eqb "-" c = false.
Proof. destruct b; vm_compute; eauto. Qed.

Lemma packed_digits_unsigned init b :
  startswith "-" (nibble_digits init ++ str_of_int (high_nibble b)) = false.
Proof.
  destruct init as [|b0 r]; simpl.
  - destruct (nibble_first_char b) as (c & t & -> & Hc). exact Hc.
  - destruct (nibble_first_char b0) as (c & t & -> & Hc). exact Hc.
Qed.

Example scenario_sizes : size amt = 8 /\ size qty = 4 /\ size scaled_cnt = 4.
Proof. repeat split. Qed.

(** *** Float literals and the DISPLAY text *)



















Lemma string_app_empty s : (s ++ "")%string = s.
Proof. induction s; simpl; [reflexivity | now f_equal]. Qed.

Lemma str_app l1 l2 : str (l1 ++ l2) = (str l1 ++ str l2)%string.
Proof. induction l1 as [|a l1 IH]; simpl; [reflexivity | now rewrite IH]. Qed.









(** *** Literals that end in a letter *)









(** The binary decoder's value does not depend on where V stands. *)
Lemma binary_value_ignores_places s f g :
  picture_has "V" f = true -> picture_has "V" g = true ->
  BinaryHandler.to_dict_value s f = BinaryHandler.to_dict_value s g.
Proof.
  intros Hf Hg. unfold BinaryHandler.to_dict_value, binary_to_dict_value.
  now rewrite Hf, Hg.
Qed.

(** C6 (the code departs from it): PIC S9(3)V99 COMP over 00 00 30 39 is
    the integer 12345 and two implied decimals; the decoder returns the
    float 12345, not 123.45, and the same for PIC S9(4)V9.  No division
    by a power of ten takes place; the packed decoder, given the same
    digits and picture, returns 123.45. *)
Theorem C6_binary_ignores_scale :
  BinaryHandler.ebcdic_to_ascii [x00; x00; x30; x39] scaled_cnt = Ok "12345"%string
  /\ BinaryHandler.extract_from_record [x00; x00; x30; x39] scaled_cnt
     = Ok (VFloat (Fin (12345 # 1)))
  /\ ~ (12345 # 1 == 12345 # 100)%Q
  /\ BinaryHandler.extract_from_record [x00; x00; x30; x39] scaled_cnt_one
     = Ok (VFloat (Fin (12345 # 1)))
  /\ BinaryHandler.extract_from_record [xff; xff; xff; xfe] scaled_cnt
     = Ok (VFloat (Fin (-2 # 1)))
  /\ PackedDecimalHandler.to_dict_value "12345" scaled_cnt
     = Ok (VFloat (Fin (12345 # 100))).
Proof. repeat split; try reflexivity. intros H; discriminate H. Qed.

(** C7 (as stated, refuted): 01 2A 4C for PIC S9(5) COMP-3 is no decode
    error; the nibble A is written as 10 and the field is the integer
    12104.  A sign nibble that is a digit is no error either. *)
Lemma C7_counterexample :
  PackedDecimalHandler.ebcdic_to_ascii [x01; x2a; x4c] qty = Ok "012104"%string
  /\ PackedDecimalHandler.to_dict_value "012104" qty = Ok (VInt 12104)
  /\ PackedDecimalHandler.extract_from_record [x01; x2a; x4c] qty
     = Ok (VInt 12104)
  /\ PackedDecimalHandler.extract_from_record [x01; x23; x45] qty
     = Ok (VInt 1234).
Proof. repeat split. Qed.

(** C7 (amended): on a slice that is not empty the COMP-3 decoder returns
    a text and raises nothing: the nibbles of all bytes but the sign
    nibble, each written as a decimal number, with a minus in front
    exactly when the sign nibble is B or D.  Every other sign nibble,
    A, C, E and F among them, is positive. *)
Theorem C7_packed_sign_nibble (init : list byte) (b : byte) (f : Field) :
  exists s,
    PackedDecimalHandler.ebcdic_to_ascii (init ++ [b]) f = Ok s
    /\ startswith "-" s = (low_nibble b =? 11) || (low_nibble b =? 13)
    /\ (s = (nibble_digits init ++ str_of_int (high_nibble b))%string
        \/ s = ("-" ++ nibble_digits init ++ str_of_int (high_nibble b))%string).
Proof.
  eexists. split; [apply packed_ebcdic_to_ascii_nonempty|].
  destruct ((low_nibble b =? 11) || (low_nibble b =? 13)).
  - split; [reflexivity | right; reflexivity].
  - split; [apply packed_digits_unsigned | left; reflexivity].
Qed.

(** *** UnsignedPackedHandler, FloatingPointHandler *)



Section FloatingPoint.
Variable binary_float : Type.
Variable unpack_single unpack_double : list byte -> binary_float.
Variable format_g : Z -> binary_float -> string.





End FloatingPoint.




(** ** The record reader *)

Section Reader.
Import EbcdicReader.

Lemma records_unfold rl unread :
  records rl unread =
  match read_record rl unread with
  | (Some record, unread') => record :: records rl unread'
  | (None, _) => []
  end.
Proof.
  rewrite records_equation_1.
  destruct (inspect (read_record rl unread)) as [[[r|] u] E]; simpl;
    now rewrite E.
Qed.

Lemma firstn_plus {A : Type} (n m : nat) (l : list A) :
  firstn (n + m) l = firstn n l ++ firstn m (skipn n l).
Proof.
  revert l. induction n as [|n IH]; intros l; [reflexivity|].
  destruct l as [|a l]; simpl; [now rewrite firstn_nil | now rewrite IH].
Qed.

Lemma len_firstn_short {A : Type} (n : Z) (l : list A) :
  len l < n -> firstn (Z.to_nat n) l = l.
Proof. intros H. apply firstn_all2. unfold len in H. lia. Qed.

Lemma len_firstn_full {A : Type} (n : Z) (l : list A) :
  0 <= n <= len l -> len (firstn (Z.to_nat n) l) = n.
Proof. intros H. unfold len in *. rewrite length_firstn. lia. Qed.

Lemma len_skipn {A : Type} (n : Z) (l : list A) :
  0 <= n <= len l -> len (skipn (Z.to_nat n) l) = len l - n.
Proof. intros H. unfold len in *. rewrite length_skipn. lia. Qed.

(** With a positive record length a read gives a whole record or, on a
    short remainder, nothing. *)
Lemma read_record_positive rl unread :
  0 < record_length rl ->
  read_record rl unread =
  if len unread <? record_length rl
  then (None, skipn (Z.to_nat (record_length rl)) unread)
  else (Some (firstn (Z.to_nat (record_length rl)) unread),
        skipn (Z.to_nat (record_length rl)) unread).
Proof.
  intros HL. unfold read_record, file_read.
  destruct (record_length rl <? 0) eqn:E; [apply Z.ltb_lt in E; lia|].
  destruct (len unread <? record_length rl) eqn:Es.
  - apply Z.ltb_lt in Es. rewrite len_firstn_short by exact Es.
    apply Z.ltb_lt in Es. rewrite Es. now rewrite orb_true_r.
  - apply Z.ltb_ge in Es.
    pose proof (len_nonneg unread).
    rewrite len_firstn_full by lia. rewrite Z.ltb_irrefl.
    destruct (firstn _ unread) as [|b r] eqn:Ef; [|reflexivity].
    exfalso. assert (Hl : len (firstn (Z.to_nat (record_length rl)) unread)
                          = record_length rl) by (apply len_firstn_full; lia).
    rewrite Ef in Hl. change (len (@nil byte)) with 0 in Hl. lia.
Qed.

(** What the reader yields, for a positive record length [L]: the
    [len / L] whole records, in order. *)
Lemma records_whole rl :
  0 < record_length rl ->
  forall (n : nat) (unread : list byte),
    (List.length unread <= n)%nat ->
    Forall (fun r => len r = record_length rl) (records rl unread)
    /\ List.concat (records rl unread)
       = firstn (Z.to_nat (record_length rl * (len unread / record_length rl)))
           unread
    /\ len (records rl unread) = len unread / record_length rl.
Proof.
  intros HL. set (L := record_length rl) in *.
  induction n as [|n IH]; intros unread Hn.
  - destruct unread; [|simpl in Hn; lia].
    rewrite records_unfold, read_record_positive by exact HL. fold L.
    change (len (@nil byte)) with 0.
    destruct (0 <? L) eqn:E; [|apply Z.ltb_ge in E; lia].
    rewrite Z.div_0_l by lia. repeat split; [constructor | now rewrite firstn_nil].
  - pose proof (len_nonneg unread) as Hnn.
    rewrite records_unfold, read_record_positive by exact HL. fold L.
    destruct (len unread <? L) eqn:Es.
    + apply Z.ltb_lt in Es. rewrite Z.div_small by lia.
      rewrite Z.mul_0_r. repeat split. constructor.
    + apply Z.ltb_ge in Es.
      assert (Hlen : len (skipn (Z.to_nat L) unread) = len unread - L)
        by (apply len_skipn; lia).
      destruct (IH (skipn (Z.to_nat L) unread)) as (Hall & Hcat & Hcount).
      { unfold len in *. rewrite length_skipn in *. lia. }
      assert (Hdiv : (len unread - L) / L = len unread / L - 1).
      { replace (len unread - L) with (len unread + (-1) * L) by lia.
        rewrite Z.div_add by lia. lia. }
      rewrite Hlen, Hdiv in Hcat, Hcount.
      assert (Hq : 1 <= len unread / L).
      { apply Z.div_le_lower_bound; lia. }
      split; [|split].
      * constructor; [apply len_firstn_full; lia | exact Hall].
      * cbn [List.concat]. rewrite Hcat.
        replace (Z.to_nat (L * (len unread / L)))
          with (Z.to_nat L + Z.to_nat (L * (len unread / L - 1)))%nat by nia.
        now rewrite firstn_plus.
      * unfold len in *. cbn [List.length]. lia.
Qed.

End Reader.

(** C2 (as stated, refuted): seven bytes read with a record length of
    five yield one record and the generator ends; the two trailing bytes
    raise nothing.  The reader of the command line reads records of 80
    bytes whatever the copybook says: sixteen bytes, two records of the
    8-byte layout of PIC S9(3)V99, yield no record at all. *)
Lemma C2_counterexample :
  EbcdicReader.iterate (Some 5) [xf0; xf0; xf1; xf2; xc3; xf0; xf0]
  = Ok [[xf0; xf0; xf1; xf2; xc3]]
  /\ len [xf0; xf0; xf1; xf2; xc3; xf0; xf0] mod 5 <> 0
  /\ EbcdicReader.read_record (Some 5) [xf0; xf0] = (None, [])
  /\ size amt = 8
  /\ EbcdicReader.cli_reader (List.repeat xf0 16) = Ok [].
Proof. repeat split; try reflexivity. discriminate. Qed.

(** C2 (amended): for a positive record length [L], which is the one
    given to the reader and 80 when none is given, as on the command
    line, the reader yields the [len / L] whole records of the stream in
    order, each of [L] bytes, and then ends; a trailing partial record is
    left out and nothing is raised. *)
Theorem C2_reader_yields_whole_records (rl : option Z) (contents : list byte) :
  0 < EbcdicReader.record_length rl ->
  exists recs,
    EbcdicReader.iterate rl contents = Ok recs
    /\ Forall (fun r => len r = EbcdicReader.record_length rl) recs
    /\ List.concat recs
       = firstn (Z.to_nat (EbcdicReader.record_length rl
                           * (len contents / EbcdicReader.record_length rl)))
           contents
    /\ len recs = len contents / EbcdicReader.record_length rl
    /\ EbcdicReader.record_length None = 80.
Proof.
  intros HL. exists (EbcdicReader.records rl contents).
  split; [reflexivity|].
  destruct (records_whole rl HL (List.length contents) contents (le_n _))
    as (H1 & H2 & H3).
  repeat split; assumption.
Qed.

Lemma C2_reader_yields_whole_records_witness :
  exists recs,
    EbcdicReader.iterate (Some 2) [x01; x02; x03; x04; x05] = Ok recs
    /\ Forall (fun r => len r = 2) recs
    /\ List.concat recs = firstn (Z.to_nat (2 * (len [x01; x02; x03; x04; x05] / 2)))
                       [x01; x02; x03; x04; x05]
    /\ len recs = len [x01; x02; x03; x04; x05] / 2
    /\ EbcdicReader.record_length None = 80.
Proof.
  apply (C2_reader_yields_whole_records (Some 2) [x01; x02; x03; x04; x05]).
  reflexivity.
Defined.

(** ** The record walker *)

(** An elementary field that is neither the root, a FILLER nor a
    condition is stored as the one value its handler extracts, whatever
    its OCCURS. *)
Lemma process_elementary gh record f result :
  level f <> 0 -> level f <> 88 -> is_filler f = false -> is_group f = false ->
  truthy_str (picture f) || truthy_str (usage f) = true ->
  ConversionEngine._process_field gh record f result
  = (handler <- gh f ;;
     v <- extract_from_record handler record f ;;
     Ok (dict_set result (name f) v)).
Proof.
  intros H0 H88 Hf Hg Hp.
  destruct f as [lv nm pic us oc rd vl fl gr jr bz ss sl sy ch sz off cd].
  simpl in *. subst fl gr.
  apply Z.eqb_neq in H0, H88. now rewrite H0, H88, Hp.
Qed.

(** C3 (the code departs from it): the OCCURS 3 item over F1 .. F6 is
    stored as the single text 123456, the decoding of the whole slice,
    and not as the sequence [12, 34, 56]; the resolver has sized the
    item 9 bytes. *)
Theorem C3_occurs_stores_one_value (floating_point_handler : Handler)
    (little_endian : bool) :
  ConversionEngine.convert
    (get_handler_for_field floating_point_handler little_endian)
    (resolve occurs_root) [xf1; xf2; xf3; xf4; xf5; xf6]
  = Ok [("ITEM"%string, VStr "123456")]
  /\ map size (children (resolve occurs_root)) = [9]
  /\ DisplayHandler.to_dict_value "123456" item = Ok (VInt 123456).
Proof. split; [|split]; vm_compute; reflexivity. Qed.

(** ** The validator *)

(** A float against an integer is a mismatch of types, whatever the
    numbers. *)
Lemma float_against_int x n tolerance :
  fst (Validation.classify_error (VFloat x) (VInt n) tolerance)
  = "type_mismatch"%string.
Proof. reflexivity. Qed.

(** A number that is not whole stays a float under normalisation, and an
    integer stays an integer. *)
Lemma normalize_int n : Validation.normalize_value (VInt n) = Ok (VInt n).
Proof.
  cbn [Validation.normalize_value].
  unfold Validation.normalize_numeric, Validation.of_int, Validation.is_integer.
  rewrite Qfloor_Z.
  assert (E : Qeq_bool (inject_Z n) (inject_Z n) = true)
    by (apply Qeq_bool_iff; reflexivity).
  now rewrite E.
Qed.

(** C9 (the code departs from it): first pass 123.45, second pass 12345,
    tolerance 0.01.  Normalisation keeps a float and an integer, the
    comparison finds them apart, and the classifier answers
    type_mismatch before it looks at the numbers; the numeric classifier,
    had it been reached, says scale_error with factor 10^2.  Against the
    float 12345.0 the answer is the same: normalisation has made it an
    integer. *)
Theorem C9_float_against_int_is_type_mismatch :
  let first_pass := VFloat (Fin (12345 # 100)) in
  let second_pass := VInt 12345 in
  let tolerance := Fin (1 # 100) in
  Validation.compare_leaf tolerance first_pass second_pass
  = Ok (Some ("type_mismatch"%string,
              Validation.Text "Type mismatch: float vs int"))
  /\ Validation._values_equal tolerance first_pass second_pass = false
  /\ Validation.classify_error first_pass second_pass tolerance
     = ("type_mismatch"%string, Validation.Text "Type mismatch: float vs int")
  /\ Validation.classify_numeric_error first_pass second_pass
       (Fin (12345 # 100)) (Validation.of_int 12345) tolerance
     = ("scale_error"%string,
        Validation.About "Scale error (factor of 10^2)" first_pass second_pass)
  /\ Validation.compare_leaf tolerance first_pass (VFloat (Fin (12345 # 1)))
     = Ok (Some ("type_mismatch"%string,
                 Validation.Text "Type mismatch: float vs int")).
Proof. repeat split; vm_compute; reflexivity. Qed.

(* ================================================================== *)
(** * Further properties of the embedded code                         *)
(* ================================================================== *)

(** ** Decimal texts of integers *)

Lemma scan_more_digits l : digit_chars l -> scan_more l = (l, []).
Proof.
  induction 1 as [|c l Hc Hl IH]; [reflexivity|].
  simpl. now rewrite Hc, IH.
Qed.

Lemma scan_digitpart_digits l : digit_chars l -> scan_digitpart l = (l, []).
Proof.
  destruct 1 as [|c l Hc Hl]; [reflexivity|].
  simpl. now rewrite Hc, (scan_more_digits l Hl).
Qed.

Lemma decimal_not_space c : is_decimal c = true -> isspace_conv c = false.
Proof.
  unfold is_decimal, isspace_conv, in_range. intros H.
  apply andb_true_iff in H as [H1 H2]. apply Z.leb_le in H1, H2.
  repeat rewrite orb_false_iff. repeat split.
  - apply andb_false_iff. right. apply Z.leb_gt. lia.
  - apply Z.eqb_neq. lia.
  - apply Z.eqb_neq. lia.
  - apply Z.eqb_neq. lia.
Qed.

Lemma lstrip_by_head p c l : p c = false -> lstrip_by p (c :: l) = c :: l.
Proof. intros H. simpl. now rewrite H. Qed.

(** Stripping leaves a text alone whose first and last characters are no
    white space. *)
Lemma strip_by_fixed p (l : list ascii) c d m :
  l = c :: m -> (exists m', l = m' ++ [d]) -> p c = false -> p d = false ->
  rstrip_by p (lstrip_by p l) = l.
Proof.
  intros -> (m' & E) Hc Hd. rewrite lstrip_by_head by exact Hc.
  rewrite E. unfold rstrip_by. rewrite rev_app_distr. simpl. rewrite Hd.
  simpl. now rewrite rev_involutive.
Qed.

Lemma digits_strip_conv l :
  digit_chars l -> rstrip_by isspace_conv (lstrip_by isspace_conv l) = l.
Proof.
  intros H. destruct l as [|c m]; [reflexivity|].
  destruct (exists_last (l := c :: m)) as (m' & d & E); [discriminate|].
  assert (Hd : is_decimal d = true).
  { rewrite E in H. apply Forall_app in H as [_ H]. now inversion H. }
  inversion H; subst.
  eapply strip_by_fixed; eauto using decimal_not_space.
Qed.

Lemma uint_chars_digits u : digit_chars (chars (NilEmpty.string_of_uint u)).
Proof. induction u; simpl; constructor; auto. Qed.

Lemma digits_fold_uint u acc :
  fold_left (fun a d => a * 10 + digit_value d)
    (chars (NilEmpty.string_of_uint u)) (Z.of_N (DecimalPos.Unsigned.of_lu acc))
  = Z.of_N (DecimalPos.Unsigned.of_lu (Decimal.revapp u acc)).
Proof.
  revert acc. induction u; intros acc; [reflexivity|..];
    cbn [NilEmpty.string_of_uint chars list_ascii_of_string fold_left Decimal.revapp];
    rewrite <- IHu; f_equal;
    rewrite (DecimalPos.Unsigned.of_lu_eqn (_ acc)); cbn [DecimalPos.Unsigned.hd DecimalPos.Unsigned.tl];
    rewrite N2Z.inj_add, N2Z.inj_mul; unfold digit_value, ord;
    cbn [N_of_ascii N_of_digits]; lia.
Qed.

Lemma digits_value_uint u :
  digits_value (chars (NilEmpty.string_of_uint u)) = Z.of_N (N.of_uint u).
Proof.
  unfold digits_value. change 0 with (Z.of_N (DecimalPos.Unsigned.of_lu Decimal.Nil)).
  rewrite digits_fold_uint. unfold N.of_uint. rewrite DecimalPos.Unsigned.of_uint_alt.
  reflexivity.
Qed.

Lemma decimal_not_sign c :
  is_decimal c = true -> Ascii.eqb c "-" = false /\ Ascii.eqb c "+" = false.
Proof.
  intros H. split; destruct (Ascii.eqb_spec c "-"), (Ascii.eqb_spec c "+");
    subst; try reflexivity; discriminate H.
Qed.

Lemma scan_sign_digits l : digit_chars l -> scan_sign l = (false, l).
Proof.
  destruct 1 as [|c l Hc Hl]; [reflexivity|].
  simpl. destruct (decimal_not_sign c Hc) as [-> ->]. reflexivity.
Qed.

(** The text of a numeral: its digits, at least one. *)
Lemma parse_unsigned u :
  u <> Decimal.Nil ->
  parse_int (NilEmpty.string_of_uint u) = Some (Z.of_N (N.of_uint u)).
Proof.
  intros Hu. unfold parse_int, strip_conv.
  pose proof (uint_chars_digits u) as Hd.
  rewrite digits_strip_conv, scan_sign_digits, scan_digitpart_digits by exact Hd.
  destruct (chars (NilEmpty.string_of_uint u)) as [|c l] eqn:E.
  - destruct u; try discriminate E. contradiction.
  - now rewrite <- E, digits_value_uint.
Qed.

Lemma parse_negative u :
  u <> Decimal.Nil ->
  parse_int (String "-" (NilEmpty.string_of_uint u))
  = Some (- Z.of_N (N.of_uint u)).
Proof.
  intros Hu. unfold parse_int, strip_conv.
  pose proof (uint_chars_digits u) as Hd.
  change (chars (String "-" (NilEmpty.string_of_uint u)))
    with ("-"%char :: chars (NilEmpty.string_of_uint u)).
  destruct (chars (NilEmpty.string_of_uint u)) as [|c l] eqn:E.
  { destruct u; try discriminate E. contradiction. }
  destruct (exists_last (l := c :: l)) as (m' & d & E'); [discriminate|].
  assert (Hlast : is_decimal d = true).
  { rewrite E' in Hd. apply Forall_app in Hd as [_ H]. now inversion H. }
  rewrite (strip_by_fixed isspace_conv ("-"%char :: c :: l) "-" d (c :: l));
    [|reflexivity|exists ("-"%char :: m'); now rewrite E'|reflexivity
     |now apply decimal_not_space].
  cbn [scan_sign]. change (Ascii.eqb "-" "-") with true. cbv iota.
  rewrite scan_digitpart_digits by exact Hd.
  now rewrite <- E, digits_value_uint.
Qed.

(** [int(str(n)) == n]. *)
Lemma parse_int_str_of_int n : parse_int (str_of_int n) = Some n.
Proof.
  unfold str_of_int. rewrite <- (DecimalZ.of_to n) at 2.
  destruct n as [|p|p]; cbn [Z.to_int NilEmpty.string_of_int Z.of_int].
  - reflexivity.
  - apply parse_unsigned, DecimalPos.Unsigned.to_uint_nonnil.
  - apply parse_negative, DecimalPos.Unsigned.to_uint_nonnil.
Qed.

Lemma digit_head_no_inf_nan c m :
  is_decimal c = true ->
  String.eqb (lower_all (c :: m)) "inf" = false
  /\ String.eqb (lower_all (c :: m)) "infinity" = false
  /\ String.eqb (lower_all (c :: m)) "nan" = false.
Proof.
  intros H. unfold lower_all. cbn [map str string_of_list_ascii].
  destruct c as [[] [] [] [] [] [] [] []]; try discriminate H;
    repeat split; reflexivity.
Qed.

Lemma scale10_zero v : scale10 v 0 = (v # 1).
Proof. unfold scale10. simpl. now rewrite Z.mul_1_r. Qed.

Lemma scan_floatnumber_digits l :
  digit_chars l -> l <> [] -> scan_floatnumber l = Some (digits_value l # 1).
Proof.
  intros Hd Hne. unfold scan_floatnumber.
  rewrite scan_digitpart_digits by exact Hd.
  destruct l; [contradiction|]. now rewrite scale10_zero.
Qed.

Lemma parse_float_unsigned u :
  u <> Decimal.Nil ->
  parse_float (NilEmpty.string_of_uint u) = Some (Fin (Z.of_N (N.of_uint u) # 1)).
Proof.
  intros Hu. unfold parse_float, strip_conv.
  pose proof (uint_chars_digits u) as Hd.
  rewrite digits_strip_conv, scan_sign_digits by exact Hd.
  destruct (chars (NilEmpty.string_of_uint u)) as [|c l] eqn:E.
  { destruct u; try discriminate E. contradiction. }
  assert (Hc : is_decimal c = true) by now inversion Hd.
  destruct (digit_head_no_inf_nan c l Hc) as (-> & -> & ->). cbn [orb].
  rewrite scan_floatnumber_digits by (auto; discriminate).
  now rewrite <- E, digits_value_uint.
Qed.

Lemma parse_float_negative u :
  u <> Decimal.Nil ->
  parse_float (String "-" (NilEmpty.string_of_uint u))
  = Some (Fin (- Z.of_N (N.of_uint u) # 1)).
Proof.
  intros Hu. unfold parse_float, strip_conv.
  pose proof (uint_chars_digits u) as Hd.
  change (chars (String "-" (NilEmpty.string_of_uint u)))
    with ("-"%char :: chars (NilEmpty.string_of_uint u)).
  destruct (chars (NilEmpty.string_of_uint u)) as [|c l] eqn:E.
  { destruct u; try discriminate E. contradiction. }
  destruct (exists_last (l := c :: l)) as (m' & d & E'); [discriminate|].
  assert (Hlast : is_decimal d = true).
  { rewrite E' in Hd. apply Forall_app in Hd as [_ H]. now inversion H. }
  rewrite (strip_by_fixed isspace_conv ("-"%char :: c :: l) "-" d (c :: l));
    [|reflexivity|exists ("-"%char :: m'); now rewrite E'|reflexivity
     |now apply decimal_not_space].
  cbn [scan_sign]. change (Ascii.eqb "-" "-") with true. cbv iota.
  assert (Hc : is_decimal c = true) by now inversion Hd.
  destruct (digit_head_no_inf_nan c l Hc) as (-> & -> & ->). cbn [orb].
  rewrite scan_floatnumber_digits by (auto; discriminate).
  now rewrite <- E, digits_value_uint.
Qed.

(** [float(str(n))] is the number [n]. *)
Lemma parse_float_str_of_int n : parse_float (str_of_int n) = Some (Fin (n # 1)).
Proof.
  unfold str_of_int. rewrite <- (DecimalZ.of_to n) at 2.
  destruct n as [|p|p]; cbn [Z.to_int NilEmpty.string_of_int Z.of_int].
  - reflexivity.
  - apply parse_float_unsigned, DecimalPos.Unsigned.to_uint_nonnil.
  - apply parse_float_negative, DecimalPos.Unsigned.to_uint_nonnil.
Qed.

(** ** Texts of digits, with a sign and a point *)

Lemma parse_int_of_digits l :
  digit_chars l -> l <> [] -> parse_int (str l) = Some (digits_value l).
Proof.
  intros Hd Hne. unfold parse_int, strip_conv. rewrite chars_str.
  rewrite digits_strip_conv, scan_sign_digits, scan_digitpart_digits by exact Hd.
  destruct l; [contradiction|reflexivity].
Qed.

Lemma minus_digits_strip l :
  digit_chars l -> l <> [] ->
  strip_conv (String "-" (str l)) = "-"%char :: l.
Proof.
  intros Hd Hne. unfold strip_conv.
  change (chars (String "-" (str l))) with ("-"%char :: chars (str l)).
  rewrite chars_str.
  destruct (exists_last Hne) as (m' & d & E).
  assert (Hlast : is_decimal d = true).
  { rewrite E in Hd. apply Forall_app in Hd as [_ H]. now inversion H. }
  apply (strip_by_fixed isspace_conv ("-"%char :: l) "-" d l);
    [reflexivity|exists ("-"%char :: m'); now rewrite E|reflexivity
    |now apply decimal_not_space].
Qed.

Lemma parse_int_minus_digits l :
  digit_chars l -> l <> [] ->
  parse_int (String "-" (str l)) = Some (- digits_value l).
Proof.
  intros Hd Hne. unfold parse_int. rewrite minus_digits_strip by assumption.
  cbn [scan_sign]. change (Ascii.eqb "-" "-") with true. cbv iota.
  rewrite scan_digitpart_digits by exact Hd.
  destruct l; [contradiction|reflexivity].
Qed.

Lemma scan_more_stop l c r :
  digit_chars l -> is_decimal c = false -> Ascii.eqb c "_" = false ->
  scan_more (l ++ c :: r) = (l, c :: r).
Proof.
  intros Hd Hc Hu. induction Hd as [|d l Hd' Hl IH]; simpl.
  - now rewrite Hc, Hu.
  - now rewrite Hd', IH.
Qed.

Lemma scan_digitpart_stop l c r :
  digit_chars l -> is_decimal c = false -> Ascii.eqb c "_" = false ->
  scan_digitpart (l ++ c :: r) = (l, c :: r).
Proof.
  intros Hd Hc Hu. destruct Hd as [|d l Hd' Hl]; simpl.
  - now rewrite Hc.
  - now rewrite Hd', scan_more_stop.
Qed.

(** A numeral with a point: integer digits, the point, decimals. *)
Lemma scan_floatnumber_point ip fp :
  digit_chars ip -> digit_chars fp -> ip <> [] ->
  scan_floatnumber (ip ++ "."%char :: fp)
  = Some (scale10 (digits_value (ip ++ fp)) (- len fp)).
Proof.
  intros Hi Hf Hne. unfold scan_floatnumber.
  rewrite scan_digitpart_stop by (auto; reflexivity).
  change (Ascii.eqb "." ".") with true. cbv iota.
  rewrite scan_digitpart_digits by exact Hf.
  destruct ip as [|c ip']; [contradiction|].
  destruct fp; reflexivity.
Qed.

Lemma digits_app l1 l2 : digit_chars l1 -> digit_chars l2 -> digit_chars (l1 ++ l2).
Proof. intros. now apply Forall_app. Qed.

Lemma parse_float_point (neg : bool) ip fp :
  digit_chars ip -> digit_chars fp -> ip <> [] -> fp <> [] ->
  parse_float (str ((if neg then ["-"%char] else []) ++ ip ++ "."%char :: fp))
  = Some (Fin (if neg then Qopp (scale10 (digits_value (ip ++ fp)) (- len fp))
               else scale10 (digits_value (ip ++ fp)) (- len fp))).
Proof.
  intros Hi Hf Hni Hnf. unfold parse_float, strip_conv. rewrite chars_str.
  destruct ip as [|c ip']; [contradiction|].
  assert (Hc : is_decimal c = true) by now inversion Hi.
  destruct (exists_last Hnf) as (fp' & d & Ef).
  assert (Hd : is_decimal d = true).
  { rewrite Ef in Hf. apply Forall_app in Hf as [_ H]. now inversion H. }
  set (body := (c :: ip') ++ "."%char :: fp).
  assert (Hstrip : forall pre, (pre = [] \/ pre = ["-"%char]) ->
            rstrip_by isspace_conv (lstrip_by isspace_conv (pre ++ body))
            = pre ++ body).
  { intros pre [->| ->].
    - apply (strip_by_fixed isspace_conv _ c d (ip' ++ "."%char :: fp));
        [reflexivity| |now apply decimal_not_space|now apply decimal_not_space].
      exists ((c :: ip') ++ "."%char :: fp'). unfold body. rewrite Ef.
      now rewrite <- !app_assoc.
    - apply (strip_by_fixed isspace_conv _ "-" d body);
        [reflexivity| |reflexivity|now apply decimal_not_space].
      exists ("-"%char :: (c :: ip') ++ "."%char :: fp'). unfold body. rewrite Ef.
      cbn [app]. now rewrite <- !app_assoc. }
  assert (Hlow : String.eqb (lower_all body) "inf" = false
                 /\ String.eqb (lower_all body) "infinity" = false
                 /\ String.eqb (lower_all body) "nan" = false)
    by (apply digit_head_no_inf_nan; exact Hc).
  destruct Hlow as (L1 & L2 & L3).
  destruct neg.
  - rewrite (Hstrip ["-"%char]) by auto. cbn [app scan_sign].
    change (Ascii.eqb "-" "-") with true. cbv iota.
    fold body. rewrite L1, L2, L3. cbn [orb]. unfold body.
    now rewrite scan_floatnumber_point.
  - rewrite (Hstrip []) by auto. cbn [app].
    unfold body at 1. cbn [app scan_sign].
    destruct (decimal_not_sign c Hc) as [-> ->].
    change (c :: ip' ++ "."%char :: fp) with body.
    rewrite L1, L2, L3. cbn [orb]. unfold body.
    now rewrite scan_floatnumber_point.
Qed.

(** ** Slices of a text from its end *)

Lemma slice_drop_last {A : Type} (l : list A) (k : Z) :
  0 < k <= len l ->
  slice l None (Some (- k)) = firstn (Z.to_nat (len l - k)) l.
Proof.
  intros Hk. unfold slice, slice_bound.
  destruct (- k <? 0) eqn:E; [|apply Z.ltb_ge in E; lia].
  replace (Z.max 0 (- k + len l)) with (len l - k) by lia.
  cbn [Z.to_nat skipn]. now rewrite Z.sub_0_r.
Qed.

Lemma slice_take_last {A : Type} (l : list A) (k : Z) :
  0 < k <= len l ->
  slice l (Some (- k)) None = skipn (Z.to_nat (len l - k)) l.
Proof.
  intros Hk. unfold slice, slice_bound.
  destruct (- k <? 0) eqn:E; [|apply Z.ltb_ge in E; lia].
  replace (Z.max 0 (- k + len l)) with (len l - k) by lia.
  apply firstn_all2. rewrite length_skipn. unfold len in *. lia.
Qed.

Lemma slice_middle {A : Type} (c : A) (l : list A) (k : Z) :
  0 < k <= len l ->
  slice (c :: l) (Some 1) (Some (- k)) = firstn (Z.to_nat (len l - k)) l.
Proof.
  intros Hk. unfold slice, slice_bound.
  assert (E1 : len (c :: l) = len l + 1) by (unfold len; cbn [List.length]; lia).
  rewrite E1.
  destruct (- k <? 0) eqn:E; [|apply Z.ltb_ge in E; lia].
  change (1 <? 0) with false. cbv iota.
  replace (Z.min 1 (len l + 1)) with 1 by (pose proof (len_nonneg l); lia).
  replace (Z.max 0 (- k + (len l + 1))) with (len l + 1 - k) by lia.
  change (Z.to_nat 1) with 1%nat. cbn [skipn].
  f_equal. lia.
Qed.

Lemma slice_take_last_cons {A : Type} (c : A) (l : list A) (k : Z) :
  0 < k <= len l ->
  slice (c :: l) (Some (- k)) None = skipn (Z.to_nat (len l - k)) l.
Proof.
  intros Hk.
  assert (E1 : len (c :: l) = len l + 1) by (unfold len; cbn [List.length]; lia).
  rewrite slice_take_last by lia. rewrite E1.
  replace (Z.to_nat (len l + 1 - k)) with (S (Z.to_nat (len l - k))) by lia.
  reflexivity.
Qed.

Lemma len_skipn_last {A : Type} (l : list A) (k : Z) :
  0 < k <= len l -> len (skipn (Z.to_nat (len l - k)) l) = k.
Proof. intros Hk. unfold len in *. rewrite length_skipn. lia. Qed.

Lemma ljust_full s k : slen s = k -> ljust s k "0" = s.
Proof.
  intros H. unfold ljust. rewrite H, Z.sub_diag.
  change (repeat_char "0" 0) with ""%string. apply string_app_empty.
Qed.

(** The point put into a text of digits longer than the decimals. *)
Lemma insert_point_digits (l : list ascii) (k : Z) :
  0 < k < len l ->
  insert_point (str l) k
  = str (firstn (Z.to_nat (len l - k)) l ++ "."%char :: skipn (Z.to_nat (len l - k)) l).
Proof.
  intros Hk. unfold insert_point, sslice, slen. rewrite !chars_str.
  destruct (len l >? k) eqn:E; [|rewrite Z.gtb_ltb in E; apply Z.ltb_ge in E; lia].
  rewrite slice_drop_last, slice_take_last by lia.
  rewrite ljust_full by (unfold slen; rewrite chars_str; apply len_skipn_last; lia).
  now rewrite str_app.
Qed.

Lemma insert_point_negative_digits (l : list ascii) (k : Z) :
  0 < k < len l ->
  insert_point_negative (String "-" (str l)) k
  = str ("-"%char :: firstn (Z.to_nat (len l - k)) l
           ++ "."%char :: skipn (Z.to_nat (len l - k)) l).
Proof.
  intros Hk. unfold insert_point_negative, sslice, slen.
  change (chars (String "-" (str l))) with ("-"%char :: chars (str l)).
  rewrite !chars_str.
  assert (E1 : len ("-"%char :: l) = len l + 1)
    by (unfold len; cbn [List.length]; lia).
  rewrite E1.
  destruct (len l + 1 >? k + 1) eqn:E;
    [|rewrite Z.gtb_ltb in E; apply Z.ltb_ge in E; lia].
  rewrite slice_middle, slice_take_last_cons by lia.
  rewrite ljust_full by (unfold slen; rewrite chars_str; apply len_skipn_last; lia).
  cbn [str string_of_list_ascii]. now rewrite str_app.
Qed.

(** ** The value of a text of digits under a picture *)

Lemma count_nines_nonneg s : 0 <= count_nines s.
Proof. induction s as [|c s IH]; simpl; [lia|]. destruct (Ascii.eqb c "9"); lia. Qed.

Lemma count_places_nonneg p : 0 <= count_places p.
Proof. unfold count_places. destruct (contains "V" p); [apply count_nines_nonneg|lia]. Qed.

Lemma scale10_neg v k : 0 < k -> scale10 v (- k) = Qmake v (Z.to_pos (10 ^ k)).
Proof.
  intros Hk. unfold scale10.
  destruct (0 <=? - k) eqn:E; [apply Z.leb_le in E; lia|].
  now rewrite Z.opp_involutive.
Qed.

Lemma startswith_digits l : digit_chars l -> startswith "-" (str l) = false.
Proof.
  destruct 1 as [|c l Hc Hl]; [reflexivity|].
  cbn [str string_of_list_ascii startswith].
  rewrite Ascii.eqb_sym. apply (decimal_not_sign c Hc).
Qed.

Lemma scaled_value_digits (negative : bool) (l : list ascii) (p : string) :
  digit_chars l -> count_places p < len l ->
  scaled_value (with_sign negative (str l)) p
  = Ok (scaled_number (signed_int negative (digits_value l)) p).
Proof.
  intros Hd Hk. pose proof (count_places_nonneg p) as Hk0.
  assert (Hne : l <> []) by (intros ->; change (len (@nil ascii)) with 0 in Hk; lia).
  unfold scaled_value, scaled_number, signed_int.
  assert (Hint : as_int (with_sign negative (str l))
                 = Ok (VInt (if negative then - digits_value l else digits_value l))).
  { unfold as_int, int_of, with_sign. destruct negative.
    - now rewrite parse_int_minus_digits.
    - now rewrite parse_int_of_digits. }
  destruct (contains "V" p || contains "." p); [|exact Hint].
  destruct (count_places p >? 0) eqn:Eg; [|exact Hint].
  rewrite Z.gtb_ltb in Eg. apply Z.ltb_lt in Eg.
  set (k := count_places p) in *.
  set (n := Z.to_nat (len l - k)).
  assert (Hsplit : digit_chars (firstn n l) /\ digit_chars (skipn n l)).
  { apply Forall_app. now rewrite firstn_skipn. }
  destruct Hsplit as [Hip Hfp].
  assert (Hipn : firstn n l <> []).
  { intros E. apply (f_equal (@List.length ascii)) in E.
    rewrite length_firstn in E. simpl in E. unfold len in *. lia. }
  assert (Hfpn : skipn n l <> []).
  { intros E. apply (f_equal (@List.length ascii)) in E.
    rewrite length_skipn in E. simpl in E. unfold len in *. lia. }
  assert (Hlen : len (skipn n l) = k) by (apply len_skipn_last; lia).
  unfold with_sign, as_float, float_of. destruct negative.
  - change (startswith "-" (String "-" (str l))) with true. cbv iota.
    rewrite insert_point_negative_digits by lia. fold n.
    pose proof (parse_float_point true (firstn n l) (skipn n l) Hip Hfp Hipn Hfpn)
      as Hpf.
    cbn [app] in Hpf. rewrite Hpf.
    rewrite firstn_skipn, Hlen, scale10_neg by lia. reflexivity.
  - rewrite startswith_digits by exact Hd.
    rewrite insert_point_digits by lia. fold n.
    pose proof (parse_float_point false (firstn n l) (skipn n l) Hip Hfp Hipn Hfpn)
      as Hpf.
    cbn [app] in Hpf. rewrite Hpf.
    rewrite firstn_skipn, Hlen, scale10_neg by lia. reflexivity.
Qed.

Lemma parse_float_of_digits l :
  digit_chars l -> l <> [] -> parse_float (str l) = Some (Fin (digits_value l # 1)).
Proof.
  intros Hd Hne. unfold parse_float, strip_conv. rewrite chars_str.
  rewrite digits_strip_conv, scan_sign_digits by exact Hd.
  destruct l as [|c l]; [contradiction|].
  assert (Hc : is_decimal c = true) by now inversion Hd.
  destruct (digit_head_no_inf_nan c l Hc) as (-> & -> & ->). cbn [orb].
  now rewrite scan_floatnumber_digits.
Qed.

(** ** Two's complement *)

Lemma byte_val_range b : 0 <= byte_val b <= 255.
Proof.
  unfold byte_val. pose proof (Byte.to_N_bounded b). lia.
Qed.

Lemma be_unsigned_fold data acc :
  0 <= acc ->
  0 <= fold_left (fun a b => a * 256 + byte_val b) data acc
    < (acc + 1) * 256 ^ len data.
Proof.
  revert acc. induction data as [|b r IH]; intros acc Hacc.
  - change (len (@nil byte)) with 0. simpl. lia.
  - pose proof (byte_val_range b) as Hb. cbn [fold_left].
    assert (E : len (b :: r) = len r + 1) by (unfold len; cbn [List.length]; lia).
    rewrite E. pose proof (len_nonneg r) as Hr.
    rewrite Z.pow_add_r by lia. change (256 ^ 1) with 256.
    specialize (IH (acc * 256 + byte_val b) ltac:(lia)).
    assert (0 < 256 ^ len r) by (apply Z.pow_pos_nonneg; lia).
    nia.
Qed.

Lemma be_unsigned_range data :
  0 <= Struct.be_unsigned data < 256 ^ len data.
Proof.
  pose proof (be_unsigned_fold data 0 ltac:(lia)) as H.
  unfold Struct.be_unsigned. lia.
Qed.

Lemma to_signed_range bits u :
  0 < bits -> 0 <= u < 2 ^ bits ->
  - 2 ^ (bits - 1) <= Struct.to_signed bits u < 2 ^ (bits - 1).
Proof.
  intros Hb Hu. unfold Struct.to_signed.
  assert (E : 2 ^ bits = 2 * 2 ^ (bits - 1)).
  { replace bits with (1 + (bits - 1)) at 1 by lia.
    rewrite Z.pow_add_r by lia. reflexivity. }
  destruct (u <? 2 ^ (bits - 1)) eqn:El.
  - apply Z.ltb_lt in El. lia.
  - apply Z.ltb_ge in El. lia.
Qed.

(** ** BinaryHandler and NativeBinaryHandler *)

Lemma binary_to_dict_value_exact n f :
  binary_to_dict_value (str_of_int n) f = Ok (binary_number n f).
Proof.
  unfold binary_to_dict_value, binary_number, as_float, as_int, float_of, int_of.
  rewrite parse_float_str_of_int, parse_int_str_of_int.
  destruct (picture_has "V" f || picture_has "." f); reflexivity.
Qed.

Lemma binary_ebcdic_to_ascii_exact little data f :
  len data = 2 \/ len data = 4 \/ len data = 8 ->
  binary_ebcdic_to_ascii little data f
  = Ok (str_of_int (signed_big_endian (if little then rev data else data))).
Proof.
  intros H. unfold binary_ebcdic_to_ascii, Struct.unpack_signed, signed_big_endian.
  assert (Hrev : len (if little then rev data else data) = len data).
  { destruct little; [|reflexivity]. unfold len. now rewrite length_rev. }
  rewrite Hrev.
  destruct H as [E|[E|E]]; rewrite E; reflexivity.
Qed.

Lemma signed_big_endian_range data :
  0 < len data ->
  - 2 ^ (8 * len data - 1) <= signed_big_endian data < 2 ^ (8 * len data - 1).
Proof.
  intros H. unfold signed_big_endian. apply to_signed_range; [lia|].
  rewrite Z.pow_mul_r by lia. change (2 ^ 8) with 256.
  apply be_unsigned_range.
Qed.

(** X1.  BinaryHandler on a slice of 2, 4 or 8 bytes: the value is the
    two's complement number the bytes write, most significant byte
    first, and it lies in the range of that many bytes.  It is an
    integer; for a picture with a V or a point it is the float of that
    integer, no scale applied. *)
Theorem binary_extract_exact (record : list byte) (f : Field) :
  len (field_data record f) = 2 \/ len (field_data record f) = 4
  \/ len (field_data record f) = 8 ->
  BinaryHandler.extract_from_record record f
  = Ok (binary_number (signed_big_endian (field_data record f)) f)
  /\ - 2 ^ (8 * len (field_data record f) - 1)
     <= signed_big_endian (field_data record f)
     < 2 ^ (8 * len (field_data record f) - 1).
Proof.
  intros H. split.
  - unfold BinaryHandler.extract_from_record, BinaryHandler.ebcdic_to_ascii.
    rewrite binary_ebcdic_to_ascii_exact by exact H. cbn [bind].
    apply binary_to_dict_value_exact.
  - apply signed_big_endian_range. lia.
Qed.

Lemma binary_extract_exact_witness :
  let record := [x00; x00; x30; x39] in
  BinaryHandler.extract_from_record record scaled_cnt
  = Ok (binary_number (signed_big_endian (field_data record scaled_cnt)) scaled_cnt)
  /\ - 2 ^ (8 * len (field_data record scaled_cnt) - 1)
     <= signed_big_endian (field_data record scaled_cnt)
     < 2 ^ (8 * len (field_data record scaled_cnt) - 1).
Proof.
  apply (binary_extract_exact [x00; x00; x30; x39] scaled_cnt).
  right. left. reflexivity.
Defined.

(** X2.  NativeBinaryHandler on a slice of 2, 4 or 8 bytes decodes
    what BinaryHandler decodes from the bytes in the order of the host:
    the slice as it is on a big-endian host, the slice reversed on a
    little-endian one. *)
Theorem native_binary_is_binary_of_host_order (little : bool)
    (record : list byte) (f : Field) :
  len (field_data record f) = 2 \/ len (field_data record f) = 4
  \/ len (field_data record f) = 8 ->
  NativeBinaryHandler.extract_from_record little record f
  = Ok (binary_number
          (signed_big_endian
             (if little then rev (field_data record f) else field_data record f))
          f)
  /\ NativeBinaryHandler.ebcdic_to_ascii little (field_data record f) f
     = BinaryHandler.ebcdic_to_ascii
         (if little then rev (field_data record f) else field_data record f) f.
Proof.
  intros H. split.
  - unfold NativeBinaryHandler.extract_from_record, NativeBinaryHandler.ebcdic_to_ascii.
    rewrite binary_ebcdic_to_ascii_exact by exact H. cbn [bind].
    apply binary_to_dict_value_exact.
  - unfold NativeBinaryHandler.ebcdic_to_ascii, BinaryHandler.ebcdic_to_ascii.
    rewrite !binary_ebcdic_to_ascii_exact; [reflexivity| |exact H].
    destruct little; [|exact H]. unfold len in *. now rewrite length_rev.
Qed.

Lemma native_binary_is_binary_of_host_order_witness :
  let record := [x39; x30; x00; x00] in
  let f := calculate_field_sizes (elementary "CNT" "S9(4)" (Some "COMP-5"%string)) in
  NativeBinaryHandler.extract_from_record true record f
  = Ok (binary_number (signed_big_endian (rev (field_data record f))) f)
  /\ NativeBinaryHandler.ebcdic_to_ascii true (field_data record f) f
     = BinaryHandler.ebcdic_to_ascii (rev (field_data record f)) f.
Proof.
  apply (native_binary_is_binary_of_host_order true [x39; x30; x00; x00]
           (calculate_field_sizes (elementary "CNT" "S9(4)" (Some "COMP-5"%string)))).
  right. left. reflexivity.
Defined.

(** ** PackedDecimalHandler and UnsignedPackedHandler on binary coded
       decimals *)

Lemma high_nibble_text b :
  (high_nibble b <=? 9) = true ->
  str_of_int (high_nibble b) = String (digit_char (high_nibble b)) ""
  /\ is_decimal (digit_char (high_nibble b)) = true
  /\ digit_value (digit_char (high_nibble b)) = high_nibble b.
Proof. destruct b; intros H; try discriminate H; repeat split. Qed.

Lemma low_nibble_text b :
  (low_nibble b <=? 9) = true ->
  str_of_int (low_nibble b) = String (digit_char (low_nibble b)) ""
  /\ is_decimal (digit_char (low_nibble b)) = true
  /\ digit_value (digit_char (low_nibble b)) = low_nibble b.
Proof. destruct b; intros H; try discriminate H; repeat split. Qed.

Lemma nibble_digits_bcd data :
  forallb bcd_byte data = true ->
  nibble_digits data = str (nibble_chars data) /\ digit_chars (nibble_chars data).
Proof.
  induction data as [|b r IH]; intros H; [split; [reflexivity|constructor]|].
  cbn [forallb] in H. apply andb_true_iff in H as [Hb Hr].
  apply andb_true_iff in Hb as [Hh Hl].
  destruct (IH Hr) as [E Hd].
  destruct (high_nibble_text b Hh) as (Eh & Dh & _).
  destruct (low_nibble_text b Hl) as (El & Dl & _).
  split.
  - cbn [nibble_digits nibble_chars]. rewrite Eh, El, E. reflexivity.
  - cbn [nibble_chars]. repeat constructor; assumption.
Qed.

Lemma digits_fold_bcd data rest acc :
  forallb bcd_byte data = true ->
  fold_left (fun a d => a * 10 + digit_value d) (nibble_chars data ++ rest) acc
  = fold_left (fun a d => a * 10 + digit_value d) rest (bcd_number acc data).
Proof.
  revert acc. induction data as [|b r IH]; intros acc H; [reflexivity|].
  cbn [forallb] in H. apply andb_true_iff in H as [Hb Hr].
  apply andb_true_iff in Hb as [Hh Hl].
  destruct (high_nibble_text b Hh) as (_ & _ & Vh).
  destruct (low_nibble_text b Hl) as (_ & _ & Vl).
  cbn [nibble_chars app fold_left bcd_number]. rewrite Vh, Vl, IH by exact Hr.
  match goal with
  | |- fold_left _ _ (bcd_number ?x _) = fold_left _ _ (bcd_number ?y _) =>
      replace x with y by lia
  end.
  reflexivity.
Qed.

(** The packed decoder on binary coded digits and a sign nibble: the
    number the digits write, with the decimals that [scaled_number]
    counts in the picture. *)
Lemma packed_extract_scaled (record : list byte) (f : Field) (p : string)
    (init : list byte) (b : byte) :
  field_data record f = init ++ [b] ->
  picture f = Some p ->
  forallb bcd_byte init = true -> (high_nibble b <=? 9) = true ->
  count_places p < 2 * len init + 1 -> 2 * len init + 1 <= 308 ->
  PackedDecimalHandler.extract_from_record record f
  = Ok (scaled_number (signed_int (packed_negative b) (packed_number init b)) p).
Proof.
  intros Hdata Hp Hinit Hb Hk _.
  unfold PackedDecimalHandler.extract_from_record. rewrite Hdata.
  rewrite packed_ebcdic_to_ascii_nonempty. cbn [bind].
  unfold PackedDecimalHandler.to_dict_value. rewrite Hp.
  destruct (nibble_digits_bcd init Hinit) as [E Hd].
  destruct (high_nibble_text b Hb) as (Eh & Dh & Vh).
  set (l := nibble_chars init ++ [digit_char (high_nibble b)]).
  assert (Htext : (nibble_digits init ++ str_of_int (high_nibble b))%string = str l).
  { rewrite E, Eh. unfold l. now rewrite str_app. }
  assert (Hl : digit_chars l) by (apply digits_app; [exact Hd|now constructor]).
  assert (Hlen : len l = 2 * len init + 1).
  { unfold l. rewrite len_app. change (len [_]) with 1. f_equal.
    clear. induction init as [|x r IH]; [reflexivity|].
    unfold len in *. cbn [nibble_chars List.length]. lia. }
  assert (Hval : digits_value l = packed_number init b).
  { unfold digits_value, l, packed_number.
    rewrite digits_fold_bcd by exact Hinit. cbn [fold_left]. now rewrite Vh. }
  rewrite Htext.
  assert (Hsign : String.append
                    (if (low_nibble b =? 11) || (low_nibble b =? 13)
                     then "-"%string else ""%string) (str l)
                  = with_sign (packed_negative b) (str l)).
  { unfold with_sign, packed_negative.
    destruct ((low_nibble b =? 11) || (low_nibble b =? 13)); reflexivity. }
  rewrite Hsign.
  rewrite scaled_value_digits by (auto; lia).
  now rewrite Hval.
Qed.

Lemma lstrip_zeros_digits l :
  digit_chars l ->
  digit_chars (lstrip_by (Ascii.eqb "0") l)
  /\ digits_value (lstrip_by (Ascii.eqb "0") l) = digits_value l.
Proof.
  induction 1 as [|c l Hc Hl IH]; [split; [constructor|reflexivity]|].
  cbn [lstrip_by]. destruct (Ascii.eqb "0" c) eqn:E.
  - apply Ascii.eqb_eq in E. subst c. destruct IH as [IH1 IH2].
    split; [exact IH1|]. rewrite IH2. reflexivity.
  - split; [now constructor | reflexivity].
Qed.

(** X4.  UnsignedPackedHandler on a slice of bytes that hold two
    decimal digits each, for a picture without V and point: the value is
    the integer the digits write (at most 308 digits). *)
Theorem unsigned_packed_extract_exact (record : list byte) (f : Field) :
  forallb bcd_byte (field_data record f) = true ->
  picture_has "V" f = false -> picture_has "." f = false ->
  2 * len (field_data record f) <= 308 ->
  UnsignedPackedHandler.extract_from_record record f
  = Ok (VInt (bcd_number 0 (field_data record f))).
Proof.
  intros Hbcd HV Hdot _.
  unfold UnsignedPackedHandler.extract_from_record,
    UnsignedPackedHandler.ebcdic_to_ascii. cbn [bind].
  unfold UnsignedPackedHandler.to_dict_value. rewrite HV, Hdot. cbn [orb].
  destruct (nibble_digits_bcd _ Hbcd) as [E Hd].
  set (data := field_data record f) in *.
  assert (Hval : digits_value (nibble_chars data) = bcd_number 0 data).
  { unfold digits_value. rewrite <- (List.app_nil_r (nibble_chars data)).
    now rewrite digits_fold_bcd. }
  destruct (lstrip_zeros_digits _ Hd) as [Hd' Hv'].
  unfold lstrip_zeros. rewrite E, chars_str.
  destruct (lstrip_by (Ascii.eqb "0") (nibble_chars data)) as [|c l] eqn:El.
  - cbn [str string_of_list_ascii]. rewrite <- Hval, <- Hv'. reflexivity.
  - change (match str (c :: l) with EmptyString => "0"%string | _ => str (c :: l) end)
      with (str (c :: l)).
    unfold as_int, int_of. rewrite parse_int_of_digits by (auto; discriminate).
    cbn [bind except_ValueError]. now rewrite Hv', Hval.
Qed.

Lemma unsigned_packed_extract_exact_witness :
  let record := [x00; x01; x23] in
  let f := calculate_field_sizes (elementary "N" "9(4)" (Some "COMP-6"%string)) in
  UnsignedPackedHandler.extract_from_record record f
  = Ok (VInt (bcd_number 0 (field_data record f))).
Proof.
  apply (unsigned_packed_extract_exact [x00; x01; x23]
           (calculate_field_sizes (elementary "N" "9(4)" (Some "COMP-6"%string))));
    try reflexivity.
  vm_compute. discriminate.
Defined.

(** ** SignedHandler and DisplayHandler on zoned digits *)

Lemma zoned_digit_char b :
  zoned_digit b = true ->
  is_decimal (decode_byte b) = true
  /\ digit_value (decode_byte b) = byte_val b - 240.
Proof. destruct b; intros H; try discriminate H; split; reflexivity. Qed.

Lemma zoned_digits_text data :
  forallb zoned_digit data = true -> digit_chars (map decode_byte data).
Proof.
  induction data as [|b r IH]; intros H; [constructor|].
  cbn [forallb] in H. apply andb_true_iff in H as [Hb Hr].
  cbn [map]. constructor; [apply (zoned_digit_char b Hb) | exact (IH Hr)].
Qed.

Lemma zoned_digits_fold data acc :
  forallb zoned_digit data = true ->
  fold_left (fun a d => a * 10 + digit_value d) (map decode_byte data) acc
  = fold_left (fun a b => a * 10 + (byte_val b - 240)) data acc.
Proof.
  revert acc. induction data as [|b r IH]; intros acc H; [reflexivity|].
  cbn [forallb] in H. apply andb_true_iff in H as [Hb Hr].
  cbn [map fold_left]. destruct (zoned_digit_char b Hb) as [_ ->]. now apply IH.
Qed.

Lemma zoned_digits_value data :
  forallb zoned_digit data = true ->
  digits_value (map decode_byte data) = zoned_number data.
Proof. intros H. now apply zoned_digits_fold. Qed.

Lemma apply_sign_with_sign c s :
  SignedHandler.apply_sign c s
  = with_sign (negb (Ascii.eqb c "+" || Ascii.eqb c "C")
               && (Ascii.eqb c "-" || Ascii.eqb c "D")) s.
Proof.
  unfold SignedHandler.apply_sign, with_sign.
  destruct (Ascii.eqb c "+" || Ascii.eqb c "C"); [reflexivity|].
  destruct (Ascii.eqb c "-" || Ascii.eqb c "D"); reflexivity.
Qed.

Lemma sign_byte_negative_spec b :
  negb (Ascii.eqb (decode_byte b) "+" || Ascii.eqb (decode_byte b) "C")
  && (Ascii.eqb (decode_byte b) "-" || Ascii.eqb (decode_byte b) "D")
  = sign_byte_negative b.
Proof. destruct b; reflexivity. Qed.

(** The sign-separate decoder on zoned digits and a sign byte: the
    number the digits write, with the decimals that [scaled_number]
    counts in the picture. *)
Lemma signed_extract_scaled (record : list byte) (f : Field) (p : string)
    (sign : byte) (digits : list byte) :
  sign_separate f = true ->
  field_data record f
  = (if sign_leading f then sign :: digits else digits ++ [sign]) ->
  picture f = Some p ->
  forallb zoned_digit digits = true ->
  count_places p < len digits -> len digits <= 308 ->
  SignedHandler.extract_from_record record f
  = Ok (scaled_number
          (signed_int (sign_byte_negative sign) (zoned_number digits)) p).
Proof.
  intros Hsep Hdata Hp Hdig Hk _.
  unfold SignedHandler.extract_from_record, SignedHandler.ebcdic_to_ascii.
  rewrite Hdata, Hsep.
  assert (Htext :
            SignedHandler.to_dict_value
              (SignedHandler.apply_sign (decode_byte sign)
                 (str (map decode_byte digits))) f
            = Ok (scaled_number
                    (signed_int (sign_byte_negative sign) (zoned_number digits)) p)).
  { unfold SignedHandler.to_dict_value. rewrite Hp.
    rewrite apply_sign_with_sign, sign_byte_negative_spec.
    rewrite scaled_value_digits.
    - now rewrite zoned_digits_value.
    - now apply zoned_digits_text.
    - unfold len in *. now rewrite length_map. }
  destruct (sign_leading f).
  - unfold decode. cbn [map]. rewrite chars_str. rewrite index_first. cbn [bind].
    replace (sslice (str (decode_byte sign :: map decode_byte digits)) (Some 1) None)
      with (str (map decode_byte digits)); [exact Htext|].
    unfold sslice. rewrite chars_str. f_equal.
    unfold slice, slice_bound.
    set (l := map decode_byte digits).
    assert (E1 : len (decode_byte sign :: l) = len l + 1)
      by (unfold len; cbn [List.length]; lia).
    rewrite E1. pose proof (len_nonneg l).
    change (1 <? 0) with false. cbv iota.
    replace (Z.min 1 (len l + 1)) with 1 by lia.
    change (Z.to_nat 1) with 1%nat. cbn [skipn].
    symmetry. apply firstn_all2. unfold len. lia.
  - unfold decode. rewrite map_app, chars_str. cbn [map].
    rewrite index_last. cbn [bind].
    replace (sslice (str (map decode_byte digits ++ [decode_byte sign])) None (Some (-1)))
      with (str (map decode_byte digits)); [exact Htext|].
    unfold sslice. rewrite chars_str. f_equal.
    set (l := map decode_byte digits).
    change (Some (-1)) with (Some (Z.opp 1)).
    rewrite slice_drop_last
      by (rewrite len_app; change (len [decode_byte sign]) with 1;
          pose proof (len_nonneg l); lia).
    rewrite len_app. change (len [decode_byte sign]) with 1.
    replace (Z.to_nat (len l + 1 - 1)) with (List.length l) by (unfold len; lia).
    rewrite firstn_app, Nat.sub_diag, firstn_all. cbn [firstn]. now rewrite List.app_nil_r.
Qed.

Lemma digits_no_point l : digit_chars l -> contains "." (str l) = false.
Proof.
  induction 1 as [|c l Hc Hl IH]; [reflexivity|].
  cbn [str string_of_list_ascii contains]. fold (str l). rewrite IH.
  destruct (Ascii.eqb_spec "." c); [subst c; discriminate Hc | reflexivity].
Qed.

(** [DisplayHandler.to_dict_value] on the text of zoned digits, with
    the decimals that [display_number] takes from [decimal_places]. *)
Lemma display_digits_number (data : list byte) (f : Field) :
  picture_has "9" f = true -> picture_has "X" f = false ->
  picture_has "A" f = false ->
  forallb zoned_digit data = true ->
  DisplayHandler.decimal_places f < len data -> len data <= 308 ->
  DisplayHandler.to_dict_value (decode data) f
  = Ok (display_number (zoned_number data) f).
Proof.
  intros H9 HX HA Hdig Hk _.
  pose proof (zoned_digits_text data Hdig) as Hd.
  pose proof (zoned_digits_value data Hdig) as Hv.
  set (l := map decode_byte data) in *.
  assert (Hlen : len l = len data) by (unfold len, l; now rewrite length_map).
  assert (Hk0 : 0 <= DisplayHandler.decimal_places f).
  { unfold DisplayHandler.decimal_places.
    destruct (picture f) as [p|]; [|lia].
    destruct (contains "V" p); [apply len_nonneg|].
    destruct (contains "." p); [apply len_nonneg|lia]. }
  assert (Hne : l <> []) by (intros E; rewrite E in Hlen; change (len (@nil ascii)) with 0 in Hlen; lia).
  unfold DisplayHandler.to_dict_value, display_number, decode. fold l.
  rewrite H9, HX, HA. cbn [orb].
  rewrite digits_no_point by exact Hd. cbn [negb]. rewrite andb_true_r.
  destruct (picture_has "V" f || picture_has "." f) eqn:Evp.
  - destruct (picture_has "V" f) eqn:EV; cbn [andb].
    + destruct (DisplayHandler.decimal_places f >? 0) eqn:Eg.
      * rewrite Z.gtb_ltb in Eg. apply Z.ltb_lt in Eg.
        set (k := DisplayHandler.decimal_places f) in *.
        set (n := Z.to_nat (len l - k)).
        rewrite insert_point_digits by lia. fold n.
        assert (Hsplit : digit_chars (firstn n l) /\ digit_chars (skipn n l)).
        { apply Forall_app. now rewrite firstn_skipn. }
        destruct Hsplit as [Hip Hfp].
        assert (Hipn : firstn n l <> []).
        { intros E. apply (f_equal (@List.length ascii)) in E.
          rewrite length_firstn in E. simpl in E. unfold len in *. lia. }
        assert (Hfpn : skipn n l <> []).
        { intros E. apply (f_equal (@List.length ascii)) in E.
          rewrite length_skipn in E. simpl in E. unfold len in *. lia. }
        pose proof (parse_float_point false _ _ Hip Hfp Hipn Hfpn) as Hpf.
        cbn [app] in Hpf. unfold as_float, float_of. rewrite Hpf.
        assert (Hlk : len (skipn n l) = k) by (apply len_skipn_last; lia).
        rewrite firstn_skipn, Hlk, scale10_neg by lia.
        cbn [bind except_ValueError]. now rewrite Hv.
      * unfold as_float, float_of. rewrite parse_float_of_digits by assumption.
        cbn [bind except_ValueError]. now rewrite Hv.
    + unfold as_float, float_of. rewrite parse_float_of_digits by assumption.
      cbn [bind except_ValueError]. now rewrite Hv.
  - unfold as_int, int_of. rewrite parse_int_of_digits by assumption.
    cbn [bind except_ValueError]. now rewrite Hv.
Qed.

(** ** DisplayHandler: the length of the text, BLANK WHEN ZERO *)

Lemma slen_str l : slen (str l) = len l.
Proof. unfold slen. now rewrite chars_str. Qed.

Lemma slen_decode data : slen (decode data) = len data.
Proof. unfold decode. rewrite slen_str. unfold len. now rewrite length_map. Qed.

Lemma slen_repeat_char c n : 0 <= n -> slen (repeat_char c n) = n.
Proof.
  intros H. unfold repeat_char. rewrite slen_str. unfold len.
  rewrite repeat_length. lia.
Qed.

Lemma lstrip_by_length p l : (List.length (lstrip_by p l) <= List.length l)%nat.
Proof.
  induction l as [|c l IH]; [simpl; lia|]. simpl.
  destruct (p c); simpl; lia.
Qed.

Lemma slen_rstrip s : slen (rstrip s) <= slen s.
Proof.
  unfold rstrip, rstrip_by. rewrite slen_str. unfold slen, len.
  rewrite length_rev. pose proof (lstrip_by_length isspace (rev (chars s))) as H.
  rewrite length_rev in H. lia.
Qed.

(** X7.  [DisplayHandler.ebcdic_to_ascii] never raises.  Its text is
    never longer than the slice, one character per byte at most, and as
    long as the slice unless the field is JUSTIFIED RIGHT, whose trailing
    white space is removed (BLANK WHEN ZERO keeps the length). *)
Theorem display_text_length (data : list byte) (f : Field) :
  exists s,
    DisplayHandler.ebcdic_to_ascii data f = Ok s
    /\ slen s <= len data
    /\ (justified_right f = true \/ slen s = len data).
Proof.
  unfold DisplayHandler.ebcdic_to_ascii.
  set (t := if justified_right f then rstrip (decode data) else decode data).
  assert (Ht : slen t <= len data /\ (justified_right f = true \/ slen t = len data)).
  { unfold t. destruct (justified_right f).
    - split; [|now left]. rewrite <- slen_decode. apply slen_rstrip.
    - split; [rewrite slen_decode; lia | right; apply slen_decode]. }
  assert (Hn : 0 <= slen t) by apply len_nonneg.
  destruct (blank_when_zero f && _).
  - eexists. split; [reflexivity|]. rewrite slen_repeat_char by exact Hn. exact Ht.
  - eexists. split; [reflexivity|]. exact Ht.
Qed.

Lemma strip_by_clean p l :
  Forall (fun c => p c = false) l -> lstrip_by p l = l /\ rstrip_by p l = l.
Proof.
  intros H. assert (Hl : forall m, Forall (fun c => p c = false) m -> lstrip_by p m = m).
  { intros m Hm. destruct Hm as [|c m Hc Hm]; [reflexivity|]. simpl. now rewrite Hc. }
  split; [now apply Hl|]. unfold rstrip_by.
  rewrite Hl by (now apply Forall_rev). apply rev_involutive.
Qed.

(** X8.  Under BLANK WHEN ZERO a slice of zoned zeros becomes as many
    spaces, in [ebcdic_to_ascii] and in the value extracted from a
    record. *)
Theorem display_blank_when_zero (n : nat) (f : Field) :
  blank_when_zero f = true ->
  DisplayHandler.ebcdic_to_ascii (List.repeat xf0 n) f
  = Ok (repeat_char " " (Z.of_nat n))
  /\ DisplayHandler.extract_from_record (List.repeat xf0 n)
       (with_size (with_offset f 0) (Z.of_nat n))
     = Ok (VStr (repeat_char " " (Z.of_nat n))).
Proof.
  intros Hb.
  assert (Hmain : forall g, blank_when_zero g = true ->
            DisplayHandler.ebcdic_to_ascii (List.repeat xf0 n) g
            = Ok (repeat_char " " (Z.of_nat n))).
  { intros g Hg. unfold DisplayHandler.ebcdic_to_ascii. rewrite Hg. cbn [andb].
    assert (Hdec : decode (List.repeat xf0 n) = str (List.repeat "0"%char n)).
    { unfold decode. now rewrite map_repeat. }
    assert (Hclean : Forall (fun c => isspace c = false) (List.repeat "0"%char n)).
    { apply Forall_forall. intros c Hc. apply repeat_spec in Hc. now subst c. }
    destruct (strip_by_clean isspace _ Hclean) as [Hl Hr].
    assert (Hrs : rstrip (str (List.repeat "0"%char n)) = str (List.repeat "0"%char n)).
    { unfold rstrip. now rewrite chars_str, Hr. }
    assert (Ht : (if justified_right g then rstrip (decode (List.repeat xf0 n))
                  else decode (List.repeat xf0 n)) = str (List.repeat "0"%char n)).
    { rewrite Hdec. destruct (justified_right g); [exact Hrs|reflexivity]. }
    rewrite Ht.
    assert (Hs : strip (str (List.repeat "0"%char n)) = str (List.repeat "0"%char n)).
    { unfold strip. now rewrite chars_str, Hl, Hr. }
    rewrite Hs, slen_str. unfold len. rewrite repeat_length.
    unfold repeat_char at 1. rewrite Nat2Z.id. rewrite String.eqb_refl.
    reflexivity. }
  split; [now apply Hmain|].
  unfold DisplayHandler.extract_from_record, field_data.
  cbn [with_size with_offset offset size].
  assert (Hslice : slice (List.repeat xf0 n) (Some 0) (Some (0 + Z.of_nat n))
                   = List.repeat xf0 n).
  { unfold slice, slice_bound, len. rewrite repeat_length.
    change (0 <? 0) with false. cbv iota.
    destruct (0 + Z.of_nat n <? 0) eqn:E; [apply Z.ltb_lt in E; lia|].
    replace (Z.min 0 (Z.of_nat n)) with 0 by lia.
    replace (Z.min (0 + Z.of_nat n) (Z.of_nat n)) with (Z.of_nat n) by lia.
    cbn [Z.to_nat skipn]. apply firstn_all2. rewrite repeat_length. lia. }
  rewrite Hslice, Hmain; [reflexivity|exact Hb].
Qed.

Lemma display_blank_when_zero_witness :
  let f := mkField 5 "AMT" (Some "9(3)"%string) None None None None false false
             false true false false false [] 0 0 [] in
  DisplayHandler.ebcdic_to_ascii (List.repeat xf0 3) f
  = Ok (repeat_char " " (Z.of_nat 3))
  /\ DisplayHandler.extract_from_record (List.repeat xf0 3)
       (with_size (with_offset f 0) (Z.of_nat 3))
     = Ok (VStr (repeat_char " " (Z.of_nat 3))).
Proof.
  apply (display_blank_when_zero 3
           (mkField 5 "AMT" (Some "9(3)"%string) None None None None false false
              false true false false false [] 0 0 [])).
  reflexivity.
Defined.

(** ** Normalisation of the text of an integer *)

Lemma str_of_int_digits n :
  exists negative l,
    str_of_int n = with_sign negative (str l)
    /\ digit_chars l /\ l <> [].
Proof.
  unfold str_of_int.
  assert (Hu : forall u, u <> Decimal.Nil ->
            chars (NilEmpty.string_of_uint u) <> []).
  { intros u Hne E. destruct u; try discriminate E. contradiction. }
  destruct n as [|p|p]; cbn [Z.to_int NilEmpty.string_of_int].
  - exists false, ["0"%char]. repeat split; [repeat constructor|discriminate].
  - exists false, (chars (NilEmpty.string_of_uint (Pos.to_uint p))).
    rewrite str_chars. repeat split;
      [apply uint_chars_digits | apply Hu, DecimalPos.Unsigned.to_uint_nonnil].
  - exists true, (chars (NilEmpty.string_of_uint (Pos.to_uint p))).
    rewrite str_chars. repeat split;
      [apply uint_chars_digits | apply Hu, DecimalPos.Unsigned.to_uint_nonnil].
Qed.

Lemma decimal_not_isspace c : is_decimal c = true -> isspace c = false.
Proof.
  intros H. destruct c as [[] [] [] [] [] [] [] []]; try discriminate H; reflexivity.
Qed.

Lemma decimal_isdigit c : is_decimal c = true -> isdigit c = true.
Proof. intros H. unfold isdigit. now rewrite H. Qed.

Lemma strip_signed_digits negative l :
  digit_chars l -> strip (with_sign negative (str l)) = with_sign negative (str l).
Proof.
  intros Hd. unfold strip.
  assert (Hclean : Forall (fun c => isspace c = false)
                     (chars (with_sign negative (str l)))).
  { unfold with_sign. destruct negative.
    - change (chars (String "-" (str l))) with ("-"%char :: chars (str l)).
      rewrite chars_str. constructor; [reflexivity|].
      eapply Forall_impl; [|exact Hd]. intros c. apply decimal_not_isspace.
    - rewrite chars_str.
      eapply Forall_impl; [|exact Hd]. intros c. apply decimal_not_isspace. }
  destruct (strip_by_clean isspace _ Hclean) as [Hl Hr].
  now rewrite Hl, Hr, str_chars.
Qed.

Lemma is_numeric_signed_digits negative l :
  digit_chars l -> l <> [] ->
  Validation.is_numeric_string (with_sign negative (str l)) = true.
Proof.
  intros Hd Hne. unfold Validation.is_numeric_string.
  rewrite strip_signed_digits by exact Hd.
  assert (Hall : Validation.all_isdigit (str l) = true).
  { unfold Validation.all_isdigit. destruct l as [|c l']; [contradiction|].
    cbn [str string_of_list_ascii]. fold (str l').
    change (chars (String c (str l'))) with (c :: chars (str l')).
    rewrite chars_str. apply forallb_forall. intros x Hx.
    apply decimal_isdigit. revert x Hx. now apply Forall_forall. }
  assert (Hbody : (if contains "." (str l)
                   then match Validation.split_dot (str l) with
                        | [p0; p1] => Validation.all_isdigit p0 && Validation.all_isdigit p1
                        | _ => false
                        end
                   else Validation.all_isdigit (str l)) = true).
  { now rewrite digits_no_point. }
  destruct negative; unfold with_sign.
  - change (startswith "-" (String "-" (str l))) with true. cbv iota.
    assert (E : sslice (String "-" (str l)) (Some 1) None = str l).
    { unfold sslice.
      change (chars (String "-" (str l))) with ("-"%char :: chars (str l)).
      rewrite chars_str. f_equal. unfold slice, slice_bound.
      assert (E1 : len ("-"%char :: l) = len l + 1)
        by (unfold len; cbn [List.length]; lia).
      rewrite E1. pose proof (len_nonneg l).
      change (1 <? 0) with false. cbv iota.
      replace (Z.min 1 (len l + 1)) with 1 by lia.
      change (Z.to_nat 1) with 1%nat. cbn [skipn].
      apply firstn_all2. unfold len. lia. }
    rewrite E. exact Hbody.
  - rewrite startswith_digits by exact Hd.
    destruct l as [|c l']; [contradiction|]. exact Hbody.
Qed.

Lemma is_integer_whole n : Validation.is_integer (n # 1) = true /\ Qfloor (n # 1) = n.
Proof.
  assert (E : Qfloor (n # 1) = n) by (unfold Qfloor; apply Z.div_1_r).
  split; [|exact E]. unfold Validation.is_integer. rewrite E.
  apply Qeq_bool_iff. reflexivity.
Qed.

(** X9.  The text [str(n)] of an integer that a float holds exactly
    (at most 2^53 in magnitude) normalises to the integer [n], and the
    comparison of the text with [n] finds no mismatch, whatever the
    tolerance. *)
Theorem normalize_integer_text (n : Z) (tolerance : pyfloat) :
  Z.abs n <= 2 ^ 53 ->
  Validation.normalize_value (VStr (str_of_int n)) = Ok (VInt n)
  /\ Validation.compare_leaf tolerance (VStr (str_of_int n)) (VInt n) = Ok None.
Proof.
  intros _.
  assert (Hnorm : Validation.normalize_value (VStr (str_of_int n)) = Ok (VInt n)).
  { cbn [Validation.normalize_value]. unfold Validation.normalize_string.
    destruct (str_of_int_digits n) as (neg & l & E & Hd & Hne).
    rewrite E, strip_signed_digits by exact Hd.
    rewrite is_numeric_signed_digits by assumption.
    rewrite <- E. unfold float_of. rewrite parse_float_str_of_int.
    cbn [bind]. destruct (is_integer_whole n) as [-> ->]. reflexivity. }
  split; [exact Hnorm|].
  unfold Validation.compare_leaf. rewrite Hnorm. cbn [bind].
  rewrite normalize_int. cbn [bind].
  unfold Validation._values_equal.
  cbn [Validation.number Validation.is_float orb Validation.py_eq].
  now rewrite Z.eqb_refl.
Qed.

Lemma normalize_integer_text_witness :
  Validation.normalize_value (VStr (str_of_int (-42))) = Ok (VInt (-42))
  /\ Validation.compare_leaf (Fin (1 # 100)) (VStr (str_of_int (-42))) (VInt (-42)) = Ok None.
Proof.
  apply (normalize_integer_text (-42) (Fin (1 # 100))).
  vm_compute. discriminate.
Defined.

(** ** Decimals as the picture writes them *)

Lemma contains_app c p q :
  contains c (p ++ q) = contains c p || contains c q.
Proof.
  induction p as [|d p IH]; [reflexivity|].
  cbn [String.append contains]. now rewrite IH, orb_assoc.
Qed.

Lemma find_from_app c p q : forall i,
  contains c p = false ->
  find_from c (p ++ String c q) i = i + slen p.
Proof.
  induction p as [|d p IH]; intros i H.
  - cbn [String.append find_from]. rewrite Ascii.eqb_refl.
    change (slen EmptyString) with 0. lia.
  - cbn [contains] in H. apply orb_false_elim in H as [Hd Hp].
    cbn [String.append find_from]. rewrite Hd, IH by exact Hp.
    rewrite slen_String. lia.
Qed.

(** What stands after the first [c] of a picture. *)
Lemma picture_after_app c p q :
  contains c p = false -> picture_after c (p ++ String c q) = q.
Proof.
  intros H. unfold picture_after, find. rewrite find_from_app by exact H.
  unfold sslice. rewrite chars_app.
  change (chars (String c q)) with (c :: chars q).
  unfold slice, slice_bound. rewrite len_app.
  assert (E1 : len (c :: chars q) = 1 + len (chars q))
    by (unfold len; cbn [List.length]; lia).
  rewrite E1. fold (slen p).
  pose proof (len_nonneg (chars p)) as Hp. fold (slen p) in Hp.
  pose proof (len_nonneg (chars q)) as Hq.
  destruct (0 + slen p + 1 <? 0) eqn:E; [apply Z.ltb_lt in E; lia|].
  replace (Z.min (0 + slen p + 1) (slen p + (1 + len (chars q))))
    with (slen p + 1) by lia.
  replace (Z.to_nat (slen p + 1)) with (List.length (chars p) + 1)%nat
    by (unfold slen, len; lia).
  rewrite skipn_app.
  replace (List.length (chars p) + 1 - List.length (chars p))%nat with 1%nat by lia.
  rewrite skipn_all2 by lia. cbn [app skipn].
  rewrite firstn_all2 by (unfold len; lia).
  apply str_chars.
Qed.

Lemma chars_nines k : chars (nines k) = List.repeat "9"%char (Z.to_nat k).
Proof. unfold nines, repeat_char. apply chars_str. Qed.

Lemma slen_nines k : 0 <= k -> slen (nines k) = k.
Proof.
  intros H. unfold slen. rewrite chars_nines. unfold len.
  rewrite repeat_length. lia.
Qed.

Lemma count_nines_repeat n :
  count_nines (str (List.repeat "9"%char n)) = Z.of_nat n.
Proof.
  induction n as [|n IH]; [reflexivity|].
  cbn [List.repeat str string_of_list_ascii count_nines]. fold (str (List.repeat "9"%char n)).
  rewrite IH. change (Ascii.eqb "9" "9") with true. lia.
Qed.

Lemma count_nines_nines k : 0 <= k -> count_nines (nines k) = k.
Proof.
  intros H. unfold nines, repeat_char. rewrite count_nines_repeat. lia.
Qed.

(** The decimals the packed and the sign-separate decoder count for [k]
    nines after the V. *)
Lemma count_places_with_decimals p k :
  contains "V" p = false -> 0 <= k ->
  count_places (with_decimals p k) = k
  /\ (k > 0 -> contains "V" (with_decimals p k) = true).
Proof.
  intros Hp Hk. unfold with_decimals.
  destruct (k >? 0) eqn:E.
  - assert (HV : contains "V" (p ++ String "V" (nines k)) = true).
    { rewrite contains_app. cbn [contains]. rewrite Ascii.eqb_refl.
      now rewrite orb_true_r. }
    split; [|intros _; exact HV].
    unfold count_places. rewrite HV, picture_after_app by exact Hp.
    now apply count_nines_nines.
  - rewrite Z.gtb_ltb in E. apply Z.ltb_ge in E.
    split; [|lia]. unfold count_places. rewrite Hp. lia.
Qed.

Lemma scaled_number_with_decimals v p k :
  contains "V" p = false -> 0 <= k ->
  scaled_number v (with_decimals p k) = decimal_number v k.
Proof.
  intros Hp Hk. unfold scaled_number, decimal_number.
  destruct (count_places_with_decimals p k Hp Hk) as [-> HV].
  destruct (k >? 0) eqn:E.
  - rewrite HV by (rewrite Z.gtb_ltb in E; apply Z.ltb_lt in E; lia).
    reflexivity.
  - now destruct (_ || _).
Qed.

(** The repeat counts of a picture part of nines: none. *)
Lemma sub_repeats_plain_list rep (l : list ascii) :
  Forall (fun c => Ascii.eqb c "(" = false) l ->
  sub_repeats rep None l = l.
Proof.
  induction 1 as [|c l Hc Hl IH]; [reflexivity|].
  cbn [sub_repeats]. now rewrite Hc, IH.
Qed.

Lemma expand_nines k : expand_repeats "9" (nines k) = nines k.
Proof.
  unfold expand_repeats. rewrite chars_nines, sub_repeats_plain_list.
  - reflexivity.
  - apply Forall_forall. intros c Hc. apply repeat_spec in Hc. now subst c.
Qed.

(** Digits read after an open parenthesis are kept for the count. *)
Lemma sub_repeats_digits rep ds r : forall acc,
  digit_chars ds ->
  sub_repeats rep (Some acc) (ds ++ r) = sub_repeats rep (Some (acc ++ ds)) r.
Proof.
  induction ds as [|d ds IH]; intros acc H.
  - now rewrite List.app_nil_r.
  - inversion H as [|? ? Hd Hr]; subst. cbn [app sub_repeats]. rewrite Hd.
    rewrite IH by exact Hr. now rewrite <- app_assoc.
Qed.

(** A 9 with a repeat count: the 9 stays, and the count adds as many. *)
Lemma expand_nine_count rep (ds : list ascii) :
  digit_chars ds -> ds <> [] ->
  sub_repeats rep None ("9"%char :: "("%char :: ds ++ [")"%char])
  = "9"%char :: List.repeat rep (Z.to_nat (digits_value ds)).
Proof.
  intros Hd Hne. cbn [sub_repeats]. change (Ascii.eqb "9" "(") with false.
  change (Ascii.eqb "(" "(") with true. cbv iota.
  rewrite sub_repeats_digits by exact Hd. cbn [app sub_repeats].
  change (is_decimal ")") with false. change (Ascii.eqb ")" ")") with true.
  cbv iota. destruct ds; [contradiction|]. cbn [nonempty andb].
  now rewrite List.app_nil_r.
Qed.

(** The text of a number that is not negative: its digits. *)
Lemma str_of_int_nonneg n :
  0 <= n ->
  exists ds, str_of_int n = str ds /\ digit_chars ds /\ ds <> []
             /\ digits_value ds = n.
Proof.
  intros Hn. destruct (str_of_int_digits n) as (neg & l & E & Hd & Hne).
  pose proof (parse_int_str_of_int n) as Hp. rewrite E in Hp.
  destruct neg; unfold with_sign in *.
  - rewrite parse_int_minus_digits in Hp by assumption.
    injection Hp as Hv.
    assert (Hz : 0 <= digits_value l).
    { clear - Hd. unfold digits_value.
      assert (G : forall acc, 0 <= acc ->
                0 <= fold_left (fun a d => a * 10 + digit_value d) l acc).
      { induction Hd as [|c l Hc Hl IH]; intros acc Ha; [exact Ha|].
        cbn [fold_left]. apply IH. unfold is_decimal, in_range in Hc.
        apply andb_true_iff in Hc as [H1 _]. apply Z.leb_le in H1.
        unfold digit_value. lia. }
      apply G. lia. }
    assert (Hn0 : n = 0) by lia. rewrite Hn0 in E.
    change (str_of_int 0) with "0"%string in E. discriminate E.
  - rewrite parse_int_of_digits in Hp by assumption. injection Hp as Hv.
    exists l. auto.
Qed.

(** X3.  PackedDecimalHandler on a slice whose bytes but the last hold
    two decimal digits each and whose last byte holds a decimal digit
    and the sign nibble, for a picture made of a part [p] without a V
    and, for [k > 0], a V and [k] nines after it: the value is the
    number the digits write, minus it when the sign nibble is B or D
    (every other nibble counts as plus), divided by [10^k], and the
    integer itself for [k = 0].  There are more digits than decimals,
    and at most 308.  The decoder counts the characters 9 after the V
    and reads no repeat count: for PIC S9(3)V9(2) the bytes 12 34 5D are
    -1234.5, with one decimal. *)
Theorem packed_extract_exact (record : list byte) (f : Field) (p : string)
    (k : Z) (init : list byte) (b : byte) :
  field_data record f = init ++ [b] ->
  picture f = Some (with_decimals p k) -> contains "V" p = false ->
  forallb bcd_byte init = true -> (high_nibble b <=? 9) = true ->
  0 <= k < 2 * len init + 1 -> 2 * len init + 1 <= 308 ->
  PackedDecimalHandler.extract_from_record record f
  = Ok (decimal_number (signed_int (packed_negative b) (packed_number init b)) k)
  /\ PackedDecimalHandler.extract_from_record [x12; x34; x5d]
       (with_size (elementary "AMT" "S9(3)V9(2)" (Some "COMP-3"%string)) 3)
     = Ok (VFloat (Fin (-12345 # 10))).
Proof.
  intros Hdata Hp HV Hinit Hb Hk Hlen. split; [|reflexivity].
  rewrite (packed_extract_scaled record f (with_decimals p k) init b Hdata Hp Hinit Hb).
  - now rewrite (scaled_number_with_decimals _ p k HV (proj1 Hk)).
  - destruct (count_places_with_decimals p k HV (proj1 Hk)) as [-> _]; lia.
  - exact Hlen.
Qed.

Lemma packed_extract_exact_witness :
  PackedDecimalHandler.extract_from_record [x12; x34; x5d]
    (with_size (elementary "AMT" "S9(3)V99" (Some "COMP-3"%string)) 3)
  = Ok (VFloat (Fin (-12345 # 100)))
  /\ PackedDecimalHandler.extract_from_record [x12; x34; x5d]
       (with_size (elementary "AMT" "S9(3)V9(2)" (Some "COMP-3"%string)) 3)
     = Ok (VFloat (Fin (-12345 # 10))).
Proof.
  apply (packed_extract_exact [x12; x34; x5d]
           (with_size (elementary "AMT" "S9(3)V99" (Some "COMP-3"%string)) 3)
           "S9(3)" 2 [x12; x34] x5d); try reflexivity.
  - split; [discriminate|reflexivity].
  - vm_compute. discriminate.
Defined.

(** X5.  SignedHandler under SIGN SEPARATE, on a slice made of zoned
    digits F0 .. F9 and the sign byte, which leads under SIGN LEADING and
    trails otherwise, for a picture made of a part [p] without a V and,
    for [k > 0], a V and [k] nines after it: the value is the number the
    digits write, minus it when the sign character is [-] or [D] (every
    other character counts as plus), divided by [10^k], and the integer
    itself for [k = 0].  There are more digits than decimals, and at
    most 308.  The decoder counts the characters 9 after the V and reads
    no repeat count: for PIC S9(3)V9(2) the digits 1234 with a trailing
    minus are -123.4, with one decimal. *)
Theorem signed_extract_exact (record : list byte) (f : Field) (p : string)
    (k : Z) (sign : byte) (digits : list byte) :
  sign_separate f = true ->
  field_data record f
  = (if sign_leading f then sign :: digits else digits ++ [sign]) ->
  picture f = Some (with_decimals p k) -> contains "V" p = false ->
  forallb zoned_digit digits = true ->
  0 <= k < len digits -> len digits <= 308 ->
  SignedHandler.extract_from_record record f
  = Ok (decimal_number
          (signed_int (sign_byte_negative sign) (zoned_number digits)) k)
  /\ SignedHandler.extract_from_record [xf1; xf2; xf3; xf4; x60]
       (mkField 5 "BAL" (Some "S9(3)V9(2)"%string) None None None None false
          false false false true false false [] 5 0 [])
     = Ok (VFloat (Fin (-1234 # 10))).
Proof.
  intros Hsep Hdata Hp HV Hdig Hk Hlen. split; [|reflexivity].
  rewrite (signed_extract_scaled record f (with_decimals p k) sign digits
             Hsep Hdata Hp Hdig).
  - now rewrite (scaled_number_with_decimals _ p k HV (proj1 Hk)).
  - destruct (count_places_with_decimals p k HV (proj1 Hk)) as [-> _]; lia.
  - exact Hlen.
Qed.

Lemma signed_extract_exact_witness :
  SignedHandler.extract_from_record [x60; xf1; xf2; xf3; xf4]
    (mkField 5 "BAL" (Some "S9(2)V99"%string) None None None None false
       false false false true true false [] 5 0 [])
  = Ok (VFloat (Fin (-1234 # 100)))
  /\ SignedHandler.extract_from_record [xf1; xf2; xf3; xf4; x60]
       (mkField 5 "BAL" (Some "S9(3)V9(2)"%string) None None None None false
          false false false true false false [] 5 0 [])
     = Ok (VFloat (Fin (-1234 # 10))).
Proof.
  apply (signed_extract_exact [x60; xf1; xf2; xf3; xf4]
           (mkField 5 "BAL" (Some "S9(2)V99"%string) None None None None false
              false false false true true false [] 5 0 [])
           "S9(2)" 2 x60 [xf1; xf2; xf3; xf4]); try reflexivity.
  - split; [discriminate|reflexivity].
  - vm_compute. discriminate.
Defined.

Lemma contains_after c p q : contains c (p ++ String c q) = true.
Proof.
  rewrite contains_app. cbn [contains]. rewrite Ascii.eqb_refl.
  now rewrite orb_true_r.
Qed.

(** The decimals [DisplayHandler] counts for [k] nines after the V. *)
Lemma decimal_places_nines f p k :
  picture f = Some (p ++ String "V" (nines k))%string ->
  contains "V" p = false -> 0 <= k ->
  DisplayHandler.decimal_places f = k /\ picture_has "V" f = true.
Proof.
  intros Hp HV Hk. unfold DisplayHandler.decimal_places, picture_has.
  rewrite Hp, contains_after, picture_after_app by exact HV.
  split; [|reflexivity]. rewrite expand_nines. now apply slen_nines.
Qed.

(** The decimals [DisplayHandler] counts for a 9 with the repeat count
    [n] after the V: one more than [n]. *)
Lemma decimal_places_count f p n :
  picture f = Some (p ++ "V9(" ++ str_of_int n ++ ")")%string ->
  contains "V" p = false -> 0 <= n ->
  DisplayHandler.decimal_places f = n + 1 /\ picture_has "V" f = true.
Proof.
  intros Hp HV Hn. unfold DisplayHandler.decimal_places, picture_has.
  rewrite Hp. cbn [String.append].
  rewrite contains_after, picture_after_app by exact HV.
  split; [|reflexivity].
  destruct (str_of_int_nonneg n Hn) as (ds & -> & Hd & Hne & Hv).
  unfold expand_repeats.
  change (chars (String "9" (String "(" (str ds ++ ")"))))
    with ("9"%char :: "("%char :: chars (str ds ++ ")")).
  rewrite chars_app, chars_str.
  change (chars ")") with [")"%char].
  rewrite expand_nine_count by assumption.
  rewrite slen_str. unfold len. cbn [List.length]. rewrite repeat_length, Hv. lia.
Qed.

(** Zoned digits under a numeric picture with [k] counted decimals. *)
Lemma display_scaled_digits (data : list byte) (f : Field) (k : Z) :
  picture_has "9" f = true -> picture_has "X" f = false ->
  picture_has "A" f = false -> picture_has "V" f = true ->
  forallb zoned_digit data = true ->
  DisplayHandler.decimal_places f = k -> 0 < k < len data -> len data <= 308 ->
  DisplayHandler.to_dict_value (decode data) f
  = Ok (VFloat (Fin (Qmake (zoned_number data) (Z.to_pos (10 ^ k))))).
Proof.
  intros H9 HX HA HV Hdig Hk Hr Hlen.
  rewrite display_digits_number by (try assumption; lia).
  unfold display_number. rewrite HV, Hk. cbn [orb andb].
  destruct (k >? 0) eqn:E; [reflexivity|].
  rewrite Z.gtb_ltb in E. apply Z.ltb_ge in E. lia.
Qed.

(** X6.  [DisplayHandler.to_dict_value] on the text of zoned digits
    F0 .. F9, at most 308 of them, for a picture with a 9 and neither X
    nor A.  For a picture without V and point it is the integer the
    digits write; for a picture with a point and no V, whose repeat
    counts are small enough to be expanded, the float of that integer.
    For a picture that ends in a V and [k] nines it is the integer
    divided by [10^k], and for one that ends in [V9(n)] the integer
    divided by [10^(n+1)]: the expansion puts [n] nines in the place of
    the repeat count and keeps the 9 before it.  There are more digits
    than decimals. *)
Theorem display_digits_value (data : list byte) (f : Field) :
  picture_has "9" f = true -> picture_has "X" f = false ->
  picture_has "A" f = false ->
  forallb zoned_digit data = true -> 0 < len data <= 308 ->
  (picture_has "V" f = false -> picture_has "." f = false ->
   DisplayHandler.to_dict_value (decode data) f = Ok (VInt (zoned_number data)))
  /\ (small_repeats f ->
      picture_has "V" f = false -> picture_has "." f = true ->
      DisplayHandler.to_dict_value (decode data) f
      = Ok (VFloat (Fin (zoned_number data # 1))))
  /\ (forall p k,
        picture f = Some (p ++ String "V" (nines k))%string ->
        contains "V" p = false -> 0 < k < len data ->
        DisplayHandler.to_dict_value (decode data) f
        = Ok (VFloat (Fin (Qmake (zoned_number data) (Z.to_pos (10 ^ k))))))
  /\ (forall p n,
        picture f = Some (p ++ "V9(" ++ str_of_int n ++ ")")%string ->
        contains "V" p = false -> 0 <= n -> n + 1 < len data ->
        DisplayHandler.to_dict_value (decode data) f
        = Ok (VFloat (Fin (Qmake (zoned_number data) (Z.to_pos (10 ^ (n + 1))))))).
Proof.
  intros H9 HX HA Hdig Hlen.
  pose proof (zoned_digits_text data Hdig) as Hd.
  pose proof (zoned_digits_value data Hdig) as Hv.
  assert (Hne : map decode_byte data <> []).
  { destruct data; [change (len (@nil byte)) with 0 in Hlen; lia|discriminate]. }
  split; [|split; [|split]].
  - intros HV Hdot. unfold DisplayHandler.to_dict_value, decode.
    rewrite H9, HX, HA, HV, Hdot. cbn [orb].
    unfold as_int, int_of. rewrite parse_int_of_digits by assumption.
    cbn [bind except_ValueError]. now rewrite Hv.
  - intros _ HV Hdot. unfold DisplayHandler.to_dict_value, decode.
    rewrite H9, HX, HA, HV, Hdot. cbn [orb andb].
    unfold as_float, float_of. rewrite parse_float_of_digits by assumption.
    cbn [bind except_ValueError]. now rewrite Hv.
  - intros p k Hp HV Hk.
    destruct (decimal_places_nines f p k Hp HV) as [Ek EV]; [lia|].
    apply display_scaled_digits; try assumption; lia.
  - intros p n Hp HV Hn Hk.
    destruct (decimal_places_count f p n Hp HV Hn) as [Ek EV].
    apply display_scaled_digits; try assumption; lia.
Qed.

Lemma display_digits_value_witness :
  DisplayHandler.to_dict_value (decode [xf0; xf0; xf1; xf2; xf3])
    (elementary "AMT" "9(3)V99" None)
  = Ok (VFloat (Fin (123 # 100)))
  /\ DisplayHandler.to_dict_value (decode [xf0; xf0; xf1; xf2; xf3])
       (elementary "AMT" "9(3)V9(2)" None)
     = Ok (VFloat (Fin (123 # 1000))).
Proof.
  split.
  - refine (proj1 (proj2 (proj2
      (display_digits_value [xf0; xf0; xf1; xf2; xf3]
         (elementary "AMT" "9(3)V99" None)
         eq_refl eq_refl eq_refl eq_refl _))) "9(3)"%string 2 eq_refl eq_refl _).
    + split; [reflexivity|vm_compute; discriminate].
    + split; reflexivity.
  - refine (proj2 (proj2 (proj2
      (display_digits_value [xf0; xf0; xf1; xf2; xf3]
         (elementary "AMT" "9(3)V9(2)" None)
         eq_refl eq_refl eq_refl eq_refl _))) "9(3)"%string 2 eq_refl eq_refl _ _).
    + split; [reflexivity|vm_compute; discriminate].
    + discriminate.
    + reflexivity.
Defined.

(** ** The DISPLAY decoder: no sign from the zone, the scale from the
    picture *)




(** ** The field tree *)

Lemma sizes_unfold f :
  calculate_field_sizes f =
  if is_group f && nonempty (children f) then
    with_size (with_children f (map calculate_field_sizes (children f)))
      (sum (map size (map calculate_field_sizes (children f))))
  else
    match picture f with
    | Some ((String _ _) as pic) =>
        match occurs f with
        | Some n =>
            if n =? 0 then with_size f (calculate_picture_size pic (usage f))
            else with_size f (calculate_picture_size pic (usage f) * n)
        | None => with_size f (calculate_picture_size pic (usage f))
        end
    | _ => with_size f 0
    end.
Proof. destruct f; reflexivity. Qed.

Lemma nonempty_map {A B : Type} (g : A -> B) l : nonempty (map g l) = nonempty l.
Proof. destruct l; reflexivity. Qed.

(** X10.  Resolving the sizes of a tree whose sizes are resolved
    changes nothing. *)
Theorem calculate_field_sizes_idempotent (f : Field) :
  calculate_field_sizes (calculate_field_sizes f) = calculate_field_sizes f.
Proof.
  induction f as [f IH] using field_induction.
  rewrite (sizes_unfold f).
  destruct (is_group f && nonempty (children f)) eqn:Eg.
  - rewrite sizes_unfold.
    destruct f as [lv nm pic us oc rd vl fl gr jr bz ss sl sy ch sz off cd].
    cbn [is_group children with_size with_children] in *.
    rewrite nonempty_map, Eg.
    assert (Hmap : map calculate_field_sizes (map calculate_field_sizes ch)
                   = map calculate_field_sizes ch).
    { rewrite map_map. apply map_ext_in. intros c Hc.
      revert c Hc. now apply Forall_forall. }
    unfold with_size, with_children.
    cbn [level name picture usage occurs redefines Copybook.value is_filler is_group
         justified_right blank_when_zero sign_separate sign_leading synchronized
         children size offset conditions].
    now rewrite Hmap.
  - destruct f as [lv nm pic us oc rd vl fl gr jr bz ss sl sy ch sz off cd].
    cbn [is_group children picture occurs usage] in *.
    destruct pic as [[|c p]|]; try (rewrite sizes_unfold; cbn; rewrite Eg; reflexivity).
    destruct oc as [n|]; [destruct (n =? 0) eqn:En|];
      rewrite sizes_unfold; cbn; rewrite Eg, ?En; reflexivity.
Qed.

Lemma offsets_unfold f start_offset :
  calculate_field_offsets f start_offset =
  if is_group f && nonempty (children f) then
    let (ch, next_offset) := offsets_loop (children f) [] start_offset in
    (with_children (with_offset f start_offset) ch, next_offset)
  else (with_offset f start_offset, start_offset + size f).
Proof. destruct f; reflexivity. Qed.

Lemma sum_cons x l : sum (x :: l) = x + sum l.
Proof.
  unfold sum. cbn [fold_left].
  assert (H : forall l a, fold_left Z.add l a = a + fold_left Z.add l 0).
  { clear. induction l as [|y l IH]; intros a; cbn [fold_left]; [lia|].
    rewrite (IH (a + y)), (IH (0 + y)). lia. }
  rewrite (H l (0 + x)). lia.
Qed.

Lemma offsets_loop_end rest :
  Forall (fun c => truthy_str (redefines c) = false
                   /\ forall s, snd (calculate_field_offsets c s) = s + size c) rest ->
  forall done next,
    snd (offsets_loop rest done next) = next + sum (map size rest).
Proof.
  induction 1 as [|c rest [Hr Hc] Hrest IH]; intros done next.
  - cbn. unfold sum. cbn. lia.
  - cbn [offsets_loop]. rewrite Hr.
    destruct (calculate_field_offsets c next) as [c' n] eqn:E.
    fold offsets_loop. rewrite IH. cbn [map]. rewrite sum_cons.
    specialize (Hc next). rewrite E in Hc. cbn [snd] in Hc. lia.
Qed.

Lemma sizes_keep_redefines f :
  redefines (calculate_field_sizes f) = redefines f.
Proof.
  rewrite sizes_unfold. destruct f as [lv nm pic us oc rd vl fl gr jr bz ss sl sy ch sz off cd].
  cbn [is_group children picture occurs usage].
  destruct (gr && nonempty ch); [reflexivity|].
  destruct pic as [[|c p]|]; try reflexivity.
  destruct oc as [n|]; [destruct (n =? 0)|]; reflexivity.
Qed.

(** X11.  In a tree without REDEFINES whose sizes are resolved, the
    offsets end where the sizes say: [calculate_field_offsets] gives the
    field the starting offset and returns, as the next free offset, the
    starting offset plus the size of the field. *)
Theorem offsets_end_at_size (f : Field) :
  no_redefines_below f = true ->
  forall start_offset,
    snd (calculate_field_offsets (calculate_field_sizes f) start_offset)
    = start_offset + size (calculate_field_sizes f)
    /\ offset (fst (calculate_field_offsets (calculate_field_sizes f) start_offset))
       = start_offset.
Proof.
  induction f as [f IH] using field_induction. intros Hno s.
  split.
  2: { rewrite offsets_unfold.
       destruct (is_group _ && _); [|reflexivity].
       destruct (offsets_loop _ _ _). reflexivity. }
  rewrite (sizes_unfold f).
  destruct (is_group f && nonempty (children f)) eqn:Eg.
  - rewrite offsets_unfold.
    destruct f as [lv nm pic us oc rd vl fl gr jr bz ss sl sy ch sz off cd].
    cbn [is_group children with_size with_children size] in *.
    rewrite nonempty_map, Eg.
    destruct (offsets_loop (map calculate_field_sizes ch) [] s) as [ch' n] eqn:El.
    cbn [snd]. change n with (snd (ch', n)). rewrite <- El.
    apply offsets_loop_end.
    apply Forall_forall. intros c' Hc'. apply in_map_iff in Hc' as (c & <- & Hc).
    cbn [no_redefines_below children] in Hno.
    rewrite forallb_forall in Hno. specialize (Hno c Hc).
    apply andb_true_iff in Hno as [Hr Hbelow].
    split.
    + rewrite sizes_keep_redefines. now apply negb_true_iff.
    + intros s'. rewrite Forall_forall in IH. now apply IH.
  - rewrite offsets_unfold.
    assert (Hsame : forall x, is_group (with_size f x) && nonempty (children (with_size f x))
                              = false)
      by (intros x; destruct f; exact Eg).
    destruct (picture f) as [[|c p]|]; try (rewrite Hsame; reflexivity).
    destruct (occurs f) as [n|]; [destruct (n =? 0)|]; rewrite Hsame; reflexivity.
Qed.

Lemma offsets_end_at_size_witness :
  let f := mkField 1 "G" None None None None None false true false false false
             false false
             [elementary "A" "X(4)" None; elementary "B" "9(2)" None] 0 0 [] in
  snd (calculate_field_offsets (calculate_field_sizes f) 10)
  = 10 + size (calculate_field_sizes f)
  /\ offset (fst (calculate_field_offsets (calculate_field_sizes f) 10)) = 10.
Proof.
  apply (offsets_end_at_size
           (mkField 1 "G" None None None None None false true false false false
              false false
              [elementary "A" "X(4)" None; elementary "B" "9(2)" None] 0 0 [])).
  reflexivity.
Defined.

(** ** The record walker *)

Lemma process_field_unfold gh record f result :
  ConversionEngine._process_field gh record f result =
  if level f =? 0 then process_each gh record (children f) result
  else if is_filler f then Ok result
  else if level f =? 88 then Ok result
  else if is_group f then
    group_result <- process_each gh record (children f) [] ;;
    Ok (dict_set result (name f) (VDict group_result))
  else if truthy_str (picture f) || truthy_str (usage f) then
    handler <- gh f ;;
    v <- extract_from_record handler record f ;;
    Ok (dict_set result (name f) v)
  else Ok result.
Proof. destruct f; reflexivity. Qed.

Lemma dict_set_fresh d k v :
  ~ In k (keys d) -> dict_set d k v = d ++ [(k, v)].
Proof.
  induction d as [|[k' v'] d IH]; intros H; [reflexivity|].
  cbn [dict_set]. destruct (String.eqb_spec k' k) as [->|Hne].
  - exfalso. apply H. now left.
  - cbn [app]. f_equal. apply IH. intros Hin. apply H. now right.
Qed.

Lemma fold_set_fresh items : forall acc,
  NoDup (keys acc ++ keys items) ->
  fold_left (fun d (kv : string * value) => dict_set d (fst kv) (snd kv)) items acc
  = acc ++ items.
Proof.
  induction items as [|[k v] items IH]; intros acc H.
  - cbn. now rewrite List.app_nil_r.
  - cbn [fold_left fst snd]. cbn [keys map fst] in H.
    rewrite dict_set_fresh.
    + rewrite IH; [now rewrite <- app_assoc|].
      unfold keys in *. rewrite map_app. cbn [map fst]. now rewrite <- app_assoc.
    + intros Hin. apply NoDup_remove_2 in H. apply H. apply in_or_app. now left.
Qed.

Section FlatRecord.
Variable gh : Field -> res Handler.
Variable record : list byte.
Variable value_of : Field -> value.

Lemma process_flat_children : forall ch acc,
  (forall c, In c ch -> level c <> 0 /\ is_group c = false) ->
  (forall c, In c ch -> visible c = true ->
     decode_field gh record c = Ok (value_of c)) ->
  process_each gh record ch acc
  = Ok (store_all (map (entry value_of) (filter visible ch)) acc).
Proof.
  induction ch as [|c ch IH]; intros acc Hf Hd; [reflexivity|].
  cbn [process_each]. rewrite process_field_unfold.
  destruct (Hf c (or_introl eq_refl)) as [Hl0 Hg].
  apply Z.eqb_neq in Hl0. rewrite Hl0, Hg.
  assert (Hf' : forall x, In x ch -> level x <> 0 /\ is_group x = false)
    by (intros x Hx; apply Hf; now right).
  assert (Hd' : forall x, In x ch -> visible x = true ->
            decode_field gh record x = Ok (value_of x))
    by (intros x Hx; apply Hd; now right).
  cbn [filter]. pose proof (Hd c (or_introl eq_refl)) as Hv.
  unfold visible in *.
  destruct (is_filler c); [cbn [bind]; now apply IH|].
  destruct (level c =? 88); [cbn [bind]; now apply IH|].
  destruct (truthy_str (picture c) || truthy_str (usage c));
    [|cbn [bind]; now apply IH].
  cbn [negb andb] in Hv |- *. specialize (Hv eq_refl).
  unfold decode_field in Hv. destruct (gh c) as [h|e]; [|discriminate Hv].
  cbn [bind] in Hv |- *. rewrite Hv. cbn [bind map].
  unfold store_all. cbn [fold_left fst snd entry]. now apply IH.
Qed.

End FlatRecord.

(** X12.  A flat record: under the root, fields that are no groups.
    The decoded record holds, in the order of the copybook, the value
    decoded for every field that is neither a FILLER nor a condition and
    has a picture or a usage; a field of a name already stored replaces
    the value in place.  When the names are distinct, the record is the
    list of names and values. *)
Theorem convert_flat_record (gh : Field -> res Handler) (record : list byte)
    (root : Field) (value_of : Field -> value) :
  level root = 0 ->
  (forall c, In c (children root) -> level c <> 0 /\ is_group c = false) ->
  (forall c, In c (children root) -> visible c = true ->
     decode_field gh record c = Ok (value_of c)) ->
  let entries := map (entry value_of) (filter visible (children root)) in
  ConversionEngine.convert gh root record = Ok (store_all entries [])
  /\ (NoDup (map fst entries) ->
      ConversionEngine.convert gh root record = Ok entries).
Proof.
  intros Hroot Hflat Hdec entries.
  assert (E : ConversionEngine.convert gh root record = Ok (store_all entries [])).
  { unfold ConversionEngine.convert. rewrite process_field_unfold, Hroot.
    change (0 =? 0) with true. cbv iota.
    now apply process_flat_children. }
  split; [exact E|]. intros Hn. rewrite E. f_equal.
  unfold store_all. now rewrite fold_set_fresh.
Qed.

Lemma convert_flat_record_witness :
  let gh := get_handler_for_field display_handler false in
  let record := [xc8; xc9; x40; x12; x3d; xf4; xf2] in
  ConversionEngine.convert gh (resolve flat_root) record
  = Ok [("A"%string, VStr "42"); ("B"%string, VInt (-123))]
  /\ ConversionEngine.convert gh (resolve flat_root_distinct) record
     = Ok [("A"%string, VStr "HI"); ("B"%string, VInt (-123));
           ("C"%string, VStr "42")].
Proof.
  intros gh record. split.
  - refine (eq_trans (proj1 (convert_flat_record gh record (resolve flat_root)
             (decoded_or_none gh record) eq_refl _ _)) _).
    + intros c Hc. vm_compute in Hc.
      repeat (destruct Hc as [<-|Hc]; [split; [discriminate|reflexivity]|]).
      destruct Hc.
    + intros c Hc _. vm_compute in Hc.
      repeat (destruct Hc as [<-|Hc]; [reflexivity|]).
      destruct Hc.
    + reflexivity.
  - refine (eq_trans (proj2 (convert_flat_record gh record
             (resolve flat_root_distinct)
             (decoded_or_none gh record) eq_refl _ _) _) _).
    + intros c Hc. vm_compute in Hc.
      repeat (destruct Hc as [<-|Hc]; [split; [discriminate|reflexivity]|]).
      destruct Hc.
    + intros c Hc _. vm_compute in Hc.
      repeat (destruct Hc as [<-|Hc]; [reflexivity|]).
      destruct Hc.
    + vm_compute. repeat constructor; cbn; intuition discriminate.
    + reflexivity.
Defined.

(** X13.  A field under the root whose decoding raises fails the
    conversion of the record: the walker raises and returns no partial
    record. *)
Theorem convert_fails_with_field (gh : Field -> res Handler)
    (record : list byte) (root c : Field) (e : exn) :
  level root = 0 -> In c (children root) ->
  level c <> 0 -> is_group c = false -> visible c = true ->
  decode_field gh record c = Raise e ->
  exists e', ConversionEngine.convert gh root record = Raise e'.
Proof.
  intros Hroot Hin Hl0 Hg Hv He.
  unfold ConversionEngine.convert. rewrite process_field_unfold, Hroot.
  change (0 =? 0) with true. cbv iota.
  generalize (@nil (string * value)) as acc.
  induction (children root) as [|x ch IH]; intros acc; [contradiction|].
  cbn [process_each].
  destruct (ConversionEngine._process_field gh record x acc) as [acc'|e'] eqn:Ex;
    [|cbn [bind]; eauto].
  cbn [bind]. destruct Hin as [->|Hin]; [|now apply IH].
  exfalso. rewrite process_field_unfold in Ex.
  apply Z.eqb_neq in Hl0. rewrite Hl0, Hg in Ex. unfold visible in Hv.
  apply andb_true_iff in Hv as [Hv Hp]. apply andb_true_iff in Hv as [Hfl H88].
  apply negb_true_iff in Hfl, H88. rewrite Hfl, H88, Hp in Ex.
  unfold decode_field in He. destruct (gh c) as [h|]; cbn [bind] in He, Ex.
  - rewrite He in Ex. discriminate Ex.
  - discriminate Ex.
Qed.

Lemma convert_fails_with_field_witness :
  let bal := mkField 5 "BAL" (Some "S9(3)"%string) None None None None false false
               false false true false false [] 4 0 [] in
  let root := mkField 0 "ROOT" None None None None None false true false false
                false false false [bal] 0 0 [] in
  exists e',
    ConversionEngine.convert (get_handler_for_field display_handler false) root []
    = Raise e'.
Proof.
  apply (convert_fails_with_field (get_handler_for_field display_handler false) []
           (mkField 0 "ROOT" None None None None None false true false false
              false false false
              [mkField 5 "BAL" (Some "S9(3)"%string) None None None None false false
                 false false true false false [] 4 0 []] 0 0 [])
           (mkField 5 "BAL" (Some "S9(3)"%string) None None None None false false
              false false true false false [] 4 0 [])
           IndexError);
    try reflexivity.
  - left. reflexivity.
  - discriminate.
Defined.

(** ** The record reader: reading back, lengths that are not positive *)

Section ReaderMore.

Lemma records_cons rl (r rest : list byte) :
  0 < EbcdicReader.record_length rl -> len r = EbcdicReader.record_length rl ->
  EbcdicReader.records rl (r ++ rest) = r :: EbcdicReader.records rl rest.
Proof.
  intros HL Hr. rewrite records_unfold, read_record_positive by exact HL.
  rewrite len_app. pose proof (len_nonneg rest).
  destruct (len r + len rest <? EbcdicReader.record_length rl) eqn:E;
    [apply Z.ltb_lt in E; lia|].
  rewrite <- Hr. unfold len. rewrite Nat2Z.id.
  rewrite firstn_app, Nat.sub_diag, firstn_all, firstn_O, List.app_nil_r.
  rewrite skipn_app, Nat.sub_diag, skipn_all. reflexivity.
Qed.

Lemma records_short rl (tail : list byte) :
  0 < EbcdicReader.record_length rl -> len tail < EbcdicReader.record_length rl -> EbcdicReader.records rl tail = [].
Proof.
  intros HL Ht. rewrite records_unfold, read_record_positive by exact HL.
  apply Z.ltb_lt in Ht. now rewrite Ht.
Qed.

End ReaderMore.

(** X14.  Records of the record length, written one after the other
    and followed by less than a record, are read back as they were. *)
Theorem reader_reads_back_records (L : Z) (recs : list (list byte))
    (tail : list byte) :
  0 < L -> Forall (fun r => len r = L) recs -> len tail < L ->
  EbcdicReader.iterate (Some L) (List.concat recs ++ tail) = Ok recs.
Proof.
  intros HL Hall Ht. unfold EbcdicReader.iterate. f_equal.
  induction Hall as [|r recs Hr _ IH]; cbn [List.concat app].
  - now apply records_short.
  - rewrite <- app_assoc, records_cons by assumption. now rewrite IH.
Qed.

Lemma reader_reads_back_records_witness :
  EbcdicReader.iterate (Some 2) (List.concat [[x01; x02]; [x03; x04]] ++ [x05])
  = Ok [[x01; x02]; [x03; x04]].
Proof.
  apply (reader_reads_back_records 2 [[x01; x02]; [x03; x04]] [x05]).
  - reflexivity.
  - repeat constructor.
  - reflexivity.
Defined.

(** X15.  A record length of 0 reads nothing, and the reader yields
    no record; with -1 a read takes the rest of the file, and the reader
    yields a file that is not empty as one record. *)
Theorem reader_without_positive_length (contents : list byte) :
  EbcdicReader.iterate (Some 0) contents = Ok []
  /\ EbcdicReader.iterate (Some (-1)) contents
     = Ok (if nonempty contents then [contents] else []).
Proof.
  unfold EbcdicReader.iterate. split.
  - rewrite records_unfold. reflexivity.
  - f_equal. rewrite records_unfold.
    unfold EbcdicReader.read_record, EbcdicReader.file_read.
    cbn [EbcdicReader.record_length]. change (-1 <? 0) with true. cbv iota.
    destruct contents as [|b rest]; [reflexivity|].
    cbn [nonempty negb orb].
    assert (E : (len (b :: rest) <? -1) = false).
    { apply Z.ltb_ge. pose proof (len_nonneg (b :: rest)). lia. }
    rewrite E. rewrite records_unfold. reflexivity.
Qed.

(** ** utils.py: byte swapping, the sample record *)

Lemma swap_pairs (P : list byte -> Prop) :
  P [] -> (forall a, P [a]) -> (forall a b l, P l -> P (a :: b :: l)) ->
  forall l, P l.
Proof.
  intros H0 H1 H2.
  assert (H : forall l, P l /\ forall a, P (a :: l)).
  { induction l as [|x l [IHa IHb]]; [split; auto|].
    split; [apply IHb|]. intros a. apply H2. exact IHa. }
  intros l. apply H.
Qed.

(** X16.  [swap_endianness] applied twice gives the bytes back, and it
    keeps their number. *)
Theorem swap_endianness_twice (data : list byte) :
  Utils.swap_endianness (Utils.swap_endianness data) = data
  /\ len (Utils.swap_endianness data) = len data.
Proof.
  induction data as [| a | a b l [IH1 IH2]] using swap_pairs;
    [split; reflexivity..|].
  cbn [Utils.swap_endianness]. split; [now rewrite IH1|].
  unfold len in *. cbn [List.length]. lia.
Qed.

Lemma len_concat_repeat (fill : list byte) (n : nat) :
  len (List.concat (List.repeat fill n)) = Z.of_nat n * len fill.
Proof.
  induction n as [|n IH]; [reflexivity|].
  cbn [List.repeat List.concat]. rewrite len_app, IH. lia.
Qed.

(** X17.  For a structure of positive size, the sample record made of
    a one-byte fill has the size of the structure, and a reader whose
    record length is [get_record_length_from_structure] reads it as one
    record. *)
Theorem sample_record_is_one_record (structure : Field) (b : byte) :
  0 < size structure ->
  len (Utils.create_sample_record structure [b]) = size structure
  /\ EbcdicReader.iterate
       (Some (Utils.get_record_length_from_structure structure))
       (Utils.create_sample_record structure [b])
     = Ok [Utils.create_sample_record structure [b]].
Proof.
  intros Hs.
  assert (Hl : len (Utils.create_sample_record structure [b]) = size structure).
  { unfold Utils.create_sample_record, Utils.bytes_times,
      Utils.get_record_length_from_structure.
    rewrite len_concat_repeat. change (len [b]) with 1. lia. }
  split; [exact Hl|].
  unfold Utils.get_record_length_from_structure.
  pose proof (reader_cons_one := records_cons (Some (size structure))
                (Utils.create_sample_record structure [b]) [] Hs Hl).
  unfold EbcdicReader.iterate. f_equal.
  rewrite List.app_nil_r in reader_cons_one. rewrite reader_cons_one.
  f_equal. apply records_short; [exact Hs|]. exact Hs.
Qed.

Lemma sample_record_is_one_record_witness :
  len (Utils.create_sample_record amt [x00]) = size amt
  /\ EbcdicReader.iterate (Some (Utils.get_record_length_from_structure amt))
       (Utils.create_sample_record amt [x00])
     = Ok [Utils.create_sample_record amt [x00]].
Proof.
  apply (sample_record_is_one_record amt x00). reflexivity.
Defined.

Import Validation.

(** ** Dictionaries *)

Lemma dict_set_keys d k v :
  (In k (keys d) /\ keys (dict_set d k v) = keys d)
  \/ (~ In k (keys d) /\ keys (dict_set d k v) = keys d ++ [k]).
Proof.
  induction d as [|[k' v'] d IH]; [right; split; [intros []|reflexivity]|].
  cbn [dict_set]. destruct (String.eqb_spec k' k) as [E|Hne].
  - left. subst k'. split; [now left|reflexivity].
  - unfold keys in *. cbn [map fst] in *. destruct IH as [[Hi E]|[Hn E]].
    + left. split; [now right|now rewrite E].
    + right. split; [|now rewrite E].
      intros [H|H]; [congruence|contradiction].
Qed.

Lemma dict_set_nodup d k v : NoDup (keys d) -> NoDup (keys (dict_set d k v)).
Proof.
  intros H. destruct (dict_set_keys d k v) as [[_ E]|[Hn E]]; rewrite E; [exact H|].
  apply NoDup_app; [exact H|repeat constructor; intros []|].
  intros x Hx [<-|[]]. contradiction.
Qed.

Lemma dict_set_values (P : value -> Prop) d k v :
  P v -> Forall (fun kv => P (snd kv)) d ->
  Forall (fun kv => P (snd kv)) (dict_set d k v).
Proof.
  intros Hv. induction 1 as [|[k' v'] d Hx Hd IH]; cbn [dict_set].
  - now repeat constructor.
  - destruct (String.eqb k' k); constructor; auto.
Qed.

Lemma dict_of_items_from acc items :
  fold_left (fun d kv => dict_set d (fst kv) (snd kv)) items acc
  = fold_left (fun d (kv : string * value) => dict_set d (fst kv) (snd kv)) items acc.
Proof. reflexivity. Qed.

Lemma fold_set_nodup items : forall acc,
  NoDup (keys acc) ->
  NoDup (keys (fold_left (fun d (kv : string * value) => dict_set d (fst kv) (snd kv)) items acc)).
Proof.
  induction items as [|[k v] items IH]; intros acc H; [exact H|].
  cbn [fold_left]. apply IH. now apply dict_set_nodup.
Qed.

Lemma fold_set_values (P : value -> Prop) items : forall acc,
  Forall (fun kv => P (snd kv)) items -> Forall (fun kv => P (snd kv)) acc ->
  Forall (fun kv => P (snd kv))
    (fold_left (fun d (kv : string * value) => dict_set d (fst kv) (snd kv)) items acc).
Proof.
  induction items as [|[k v] items IH]; intros acc Hi Ha; [exact Ha|].
  cbn [fold_left]. inversion Hi; subst. apply IH; [assumption|].
  now apply dict_set_values.
Qed.

Lemma dict_of_items_nodup items :
  NoDup (keys (DualPassValidator.dict_of_items items)).
Proof. apply fold_set_nodup. constructor. Qed.

Lemma dict_of_items_distinct items :
  NoDup (keys items) -> DualPassValidator.dict_of_items items = items.
Proof. intros H. unfold DualPassValidator.dict_of_items. now rewrite fold_set_fresh. Qed.

Lemma dict_get_in d k v : NoDup (keys d) -> In (k, v) d -> dict_get d k = Some v.
Proof.
  induction d as [|[k' v'] d IH]; intros Hn Hin; [contradiction|].
  cbn [dict_get]. cbn [keys map fst] in Hn. inversion Hn as [|? ? Hk Hd]; subst.
  destruct Hin as [E|Hin].
  - inversion E; subst. now rewrite String.eqb_refl.
  - destruct (String.eqb_spec k' k) as [->|Hne]; [|now apply IH].
    exfalso. apply Hk. change k with (fst (k, v)). now apply in_map.
Qed.

(** ** Flattening *)

Lemma flatten_unfold entries parent_key :
  DualPassValidator._flatten_dict (VDict entries) parent_key
  = DualPassValidator.dict_of_items (flatten_items parent_key entries).
Proof. reflexivity. Qed.

Lemma flatten_values (P : value -> Prop) entries parent_key :
  Forall (fun kv => P (snd kv)) (flatten_items parent_key entries) ->
  Forall (fun kv => P (snd kv)) (DualPassValidator._flatten_dict (VDict entries) parent_key).
Proof. intros H. rewrite flatten_unfold. apply fold_set_values; [exact H|constructor]. Qed.

Lemma flatten_items_flat parent_key entries :
  forallb (fun kv => negb (is_dict (snd kv))) entries = true ->
  flatten_items parent_key entries
  = map (fun kv => (DualPassValidator.new_key parent_key (fst kv), snd kv)) entries.
Proof.
  induction entries as [|[k v] entries IH]; intros H; [reflexivity|].
  cbn [forallb] in H. apply andb_true_iff in H as [Hv H].
  cbn [flatten_items map fst snd]. fold (flatten_items parent_key).
  rewrite IH by exact H. destruct v; try reflexivity. discriminate Hv.
Qed.

(** Flattening a dictionary that holds no dictionary changes nothing. *)
Lemma flatten_flat entries :
  NoDup (keys entries) ->
  forallb (fun kv => negb (is_dict (snd kv))) entries = true ->
  DualPassValidator._flatten_dict (VDict entries) EmptyString = entries.
Proof.
  intros Hn Hf. rewrite flatten_unfold, flatten_items_flat by exact Hf.
  assert (E : map (fun kv : string * value =>
                     (DualPassValidator.new_key EmptyString (fst kv), snd kv)) entries = entries).
  { clear. induction entries as [|[k v] e IH]; [reflexivity|].
    cbn [map fst snd]. now rewrite IH. }
  rewrite E. now apply dict_of_items_distinct.
Qed.

Lemma flatten_no_dict d : forall parent_key,
  Forall (fun kv => is_dict (snd kv) = false) (DualPassValidator._flatten_dict d parent_key).
Proof.
  induction d as [| | | | |entries IH] using value_induction; intros pk;
    try constructor.
  rewrite flatten_unfold.
  apply (fold_set_values (fun v => is_dict v = false)); [|constructor].
  induction IH as [|[k v] entries Hv _ IHe]; [constructor|].
  cbn [flatten_items]. fold (flatten_items pk). apply Forall_app. split; [|exact IHe].
  cbn [snd] in Hv. destruct v; try (repeat constructor). apply Hv.
Qed.

(** X18.  [_flatten_dict] yields a flat dictionary: no value of it is
    a dictionary, no key occurs twice, and flattening it again changes
    nothing. *)
Theorem flatten_dict_is_flat (entries : list (string * value))
    (parent_key : string) :
  let flat := DualPassValidator._flatten_dict (VDict entries) parent_key in
  Forall (fun kv => is_dict (snd kv) = false) flat
  /\ NoDup (keys flat)
  /\ DualPassValidator._flatten_dict (VDict flat) EmptyString = flat.
Proof.
  cbv zeta.
  assert (Hn : NoDup (keys (DualPassValidator._flatten_dict (VDict entries) parent_key)))
    by (rewrite flatten_unfold; apply dict_of_items_nodup).
  pose proof (flatten_no_dict (VDict entries) parent_key) as Hf.
  split; [exact Hf|]. split; [exact Hn|].
  apply flatten_flat; [exact Hn|].
  apply forallb_forall. intros kv Hin.
  rewrite Forall_forall in Hf. now rewrite (Hf kv Hin).
Qed.

(** ** Classification after a failed comparison *)


Lemma qabs_int_gap (m n : Z) :
  (Qabs (inject_Z m - inject_Z n) == inject_Z (Z.abs (m - n)))%Q.
Proof.
  unfold Qminus, Qplus, Qopp, inject_Z, Qabs, Qeq. cbn [Qnum Qden].
  rewrite !Z.mul_1_r. f_equal.
Qed.

Lemma int_gap_beyond m n tolerance :
  m <> n ->
  feq (fabs (fsub (of_int m) (of_int n))) (of_int 1) = false ->
  flt tolerance (of_int 2) = true ->
  fle (fabs (fsub (of_int m) (of_int n))) tolerance = false.
Proof.
  intros Hne H1 H2. unfold of_int in *. cbn [fsub fabs feq] in *.
  assert (Hgap : (inject_Z 2 <= Qabs (inject_Z m - inject_Z n))%Q).
  { rewrite qabs_int_gap. rewrite <- Zle_Qle.
    assert (Z.abs (m - n) <> 1).
    { intros E. rewrite qabs_int_gap in H1.
      assert (Qeq_bool (inject_Z (Z.abs (m - n))) (inject_Z 1) = true)
        by (apply Qeq_bool_iff; now rewrite E).
      congruence. }
    lia. }
  destruct tolerance as [t|s|]; cbn [flt fle feq] in *.
  - unfold Qlt_bool in *. apply negb_true_iff in H2.
    unfold fle, flt, feq, Qlt_bool.
    destruct (Qle_bool t (Qabs (inject_Z m - inject_Z n))) eqn:E1; cbn [negb orb].
    + destruct (Qeq_bool _ t) eqn:E2; [|reflexivity].
      apply Qeq_bool_iff in E2. rewrite E2 in Hgap.
      apply Qle_bool_iff in Hgap. congruence.
    + assert (Hle : (Qabs (inject_Z m - inject_Z n) <= t)%Q).
      { apply Qlt_le_weak. apply Qnot_le_lt. intros H.
        apply Qle_bool_iff in H. congruence. }
      assert (H : (inject_Z 2 <= t)%Q) by (eapply Qle_trans; eassumption).
      apply Qle_bool_iff in H. congruence.
  - destruct s; [reflexivity|discriminate H2].
  - discriminate H2.
Qed.

Ltac class_differs := cbn [fst]; split; discriminate.

Lemma numeric_class_reported v1 v2 a b tolerance :
  fle (fabs (fsub a b)) tolerance = false ->
  reported (fst (classify_numeric_error v1 v2 a b tolerance)).
Proof.
  intros H. unfold classify_numeric_error. rewrite H. clear H.
  destruct (flt _ _); [class_differs|].
  destruct (feq _ _); [class_differs|].
  destruct (scale_exponent _ _ _ _ _); class_differs.
Qed.

Lemma string_class_reported s t :
  String.eqb (strip s) (strip t) = false ->
  reported (fst (classify_string_error s t)).
Proof.
  intros H. unfold classify_string_error. rewrite H. clear H.
  destruct (String.eqb _ _); [class_differs|].
  destruct (encoding_issue _ _); [class_differs|].
  destruct (_ || _); class_differs.
Qed.

Lemma classify_after_unequal tolerance v1 v2 :
  flt tolerance (of_int 2) = true ->
  _values_equal tolerance v1 v2 = false ->
  reported (fst (classify_error v1 v2 tolerance)).
Proof.
  intros Ht He.
  destruct v1, v2; try class_differs;
    cbn [_values_equal number is_float orb py_eq] in He;
    cbn [classify_error type_name number String.eqb Ascii.eqb Bool.eqb negb].
  - (* int, int *)
    unfold classify_numeric_error.
    destruct (flt (fmul _ _) _); [class_differs|].
    destruct (feq _ _) eqn:E1; [class_differs|].
    apply Z.eqb_neq in He.
    rewrite (int_gap_beyond _ _ _ He E1 Ht).
    destruct (scale_exponent _ _ _ _ _); class_differs.
  - now apply numeric_class_reported.
  - now apply string_class_reported.
Qed.

Section Never.
Variable tolerance : pyfloat.
Hypothesis Htol : flt tolerance (of_int 2) = true.

Lemma compare_first_reported items flat_second index : forall found,
  DualPassValidator.compare_first tolerance items flat_second index = Ok found ->
  Forall (fun m => reported (DualPassValidator.error_type m)) found.
Proof.
  induction items as [|[path v] items IH]; intros found H; cbn in H.
  - inversion H. constructor.
  - destruct (dict_get flat_second path) as [second_value|].
    + destruct (normalize_value v) as [nf|]; [|discriminate H]. cbn [bind] in H.
      destruct (normalize_value second_value) as [ns|]; [|discriminate H].
      cbn [bind] in H.
      destruct (_values_equal tolerance nf ns) eqn:E; [now apply IH|].
      pose proof (classify_after_unequal _ _ _ Htol E) as Hc.
      destruct (classify_error nf ns tolerance) as [ty det].
      destruct (DualPassValidator.compare_first _ _ _ _) as [more|]; [|discriminate H].
      cbn [bind] in H. inversion H; subst. constructor; [exact Hc|now apply IH].
    + destruct (DualPassValidator.compare_first _ _ _ _) as [more|]; [|discriminate H].
      cbn [bind] in H. inversion H; subst.
      constructor; [class_differs|now apply IH].
Qed.

Lemma compare_second_reported items flat_first index :
  Forall (fun m => reported (DualPassValidator.error_type m))
    (DualPassValidator.compare_second items flat_first index).
Proof.
  induction items as [|[path v] items IH]; cbn; [constructor|].
  destruct (DualPassValidator.has_key _ _); [exact IH|].
  constructor; [class_differs|exact IH].
Qed.

End Never.

(** X19.  With a tolerance below 2, which the default 0.01 is, no
    mismatch that [_compare_records] lists is a precision_loss or a
    whitespace_error: the values the classifier is given have failed the
    very test these two classes repeat. *)
Theorem compare_never_reports_precision_or_whitespace (tolerance : pyfloat)
    (first second : list (string * value)) (index : Z)
    (found : list DualPassValidator.mismatch) :
  flt tolerance (of_int 2) = true ->
  DualPassValidator._compare_records tolerance first second index = Ok found ->
  Forall (fun m => DualPassValidator.error_type m <> "precision_loss"%string
                   /\ DualPassValidator.error_type m <> "whitespace_error"%string)
    found.
Proof.
  intros Ht H. unfold DualPassValidator._compare_records in H.
  destruct (DualPassValidator.compare_first _ _ _ _) as [l|] eqn:E; [|discriminate H].
  cbn [bind] in H. inversion H; subst. apply Forall_app. split.
  - exact (compare_first_reported tolerance Ht _ _ _ _ E).
  - apply compare_second_reported.
Qed.

Lemma compare_never_reports_precision_or_whitespace_witness :
  let found :=
    [DualPassValidator.mkMismatch 0 "A" (VInt 1) (VInt 5) "numeric_mismatch"
       (Validation.About "Numeric values don't match" (VInt 1) (VInt 5))] in
  Forall (fun m => DualPassValidator.error_type m <> "precision_loss"%string
                   /\ DualPassValidator.error_type m <> "whitespace_error"%string)
    found.
Proof.
  apply (compare_never_reports_precision_or_whitespace (Fin (1 # 100))
           [("A"%string, VInt 1)] [("A"%string, VInt 5)] 0);
    reflexivity.
Defined.

(** ** The run of the validator *)

Section Run.
Import DualPassValidator.
Variable tolerance : pyfloat.

Lemma compare_second_all items index :
  compare_second items [] index = map (missing_in_first index) items.
Proof.
  induction items as [|[path v] items IH]; [reflexivity|].
  cbn [compare_second has_key dict_get map]. now rewrite IH.
Qed.

Lemma compare_empty_first second index :
  _compare_records tolerance [] second index
  = Ok (map (missing_in_first index) (_flatten_dict (VDict second) EmptyString)).
Proof.
  unfold _compare_records.
  change (_flatten_dict (VDict []) EmptyString) with (@nil (string * value)).
  cbn [compare_first bind app]. now rewrite compare_second_all.
Qed.

Variable gh : Field -> res Handler.
Variable structure : Field.

Lemma validate_loop_counts pairs : forall index acc r,
  validate_loop tolerance gh structure pairs index acc = Ok r ->
  total_fields acc = 0 ->
  mismatches acc = len (mismatch_details acc) ->
  Forall only_missing (mismatch_details acc) ->
  total_records r = total_records acc + len pairs
  /\ total_fields r = 0
  /\ mismatches r = len (mismatch_details r)
  /\ Forall only_missing (mismatch_details r).
Proof.
  induction pairs as [|[rec line] pairs IH]; intros index acc r H Hf Hm Ha.
  - inversion H; subst. change (len (@nil (list byte * string))) with 0.
    rewrite Z.add_0_r. auto.
  - cbn [validate_loop] in H.
    destruct (ConversionEngine.convert gh structure rec) as [second|];
      [|discriminate H].
    cbn [bind] in H. unfold _parse_ascii_line in H.
    rewrite compare_empty_first in H. cbn [bind] in H.
    apply IH in H; cbn [total_fields mismatches mismatch_details total_records].
    + destruct H as (H1 & H2 & H3 & H4). repeat split; try assumption.
      rewrite H1. cbn [total_records]. unfold len. cbn [List.length]. lia.
    + rewrite Hf. reflexivity.
    + rewrite Hm, len_app. reflexivity.
    + apply Forall_app. split; [exact Ha|].
      apply Forall_forall. intros m Hin. apply in_map_iff in Hin as (kv & <- & _).
      split; reflexivity.
Qed.

End Run.

(** X20.  The first pass is read by [_parse_ascii_line], which returns
    the empty record for every line.  So a run of [validate] that ends
    counts as many records as there are whole 80-byte records and lines,
    counts no field at all, and lists only mismatches of the class
    missing_field without a first-pass value, as many as [mismatches]
    says; the mismatch rate of the reports is 0. *)
Theorem validate_counts_no_field (tolerance : pyfloat)
    (get_handler_for_field : Field -> res Handler) (structure : Field)
    (contents : list byte) (ascii_lines : list string)
    (r : DualPassValidator.results) :
  DualPassValidator.validate tolerance get_handler_for_field structure
    contents ascii_lines = Ok r ->
  DualPassValidator.total_records r
    = Z.min (len contents / 80) (len ascii_lines)
  /\ DualPassValidator.total_fields r = 0
  /\ DualPassValidator.mismatches r = len (DualPassValidator.mismatch_details r)
  /\ Forall (fun m => DualPassValidator.error_type m = "missing_field"%string
                      /\ DualPassValidator.first_pass m = VNone)
       (DualPassValidator.mismatch_details r)
  /\ mismatch_rate r = VInt 0.
Proof.
  intros H. unfold DualPassValidator.validate in H.
  apply validate_loop_counts in H; try reflexivity; [|constructor].
  destruct H as (H1 & H2 & H3 & H4).
  split; [|split; [exact H2|split; [exact H3|split; [exact H4|]]]].
  - rewrite H1. cbn [DualPassValidator.total_records].
    unfold len at 1. rewrite length_combine.
    assert (Hl : 0 < EbcdicReader.record_length None) by reflexivity.
    destruct (records_whole None Hl (List.length contents) contents (le_n _))
      as (_ & _ & Hc).
    change (EbcdicReader.record_length None) with 80 in Hc.
    rewrite <- Hc. unfold len. lia.
  - unfold mismatch_rate. now rewrite H2.
Qed.

Lemma validate_counts_no_field_witness :
  let r :=
    DualPassValidator.mkResults 1 0 1
      [missing_in_first 0 ("ITEM"%string, VStr "111111111")] in
  DualPassValidator.total_records r = Z.min (len (List.repeat xf1 80) / 80) (len ["x"%string])
  /\ DualPassValidator.total_fields r = 0
  /\ DualPassValidator.mismatches r = len (DualPassValidator.mismatch_details r)
  /\ Forall (fun m => DualPassValidator.error_type m = "missing_field"%string
                      /\ DualPassValidator.first_pass m = VNone)
       (DualPassValidator.mismatch_details r)
  /\ mismatch_rate r = VInt 0.
Proof.
  apply (validate_counts_no_field (Fin (1 # 100))
           (get_handler_for_field display_handler false) (resolve occurs_root)
           (List.repeat xf1 80) ["x"%string]).
  vm_compute. reflexivity.
Defined.

(** ** A record against itself *)

Lemma in_firstn {A : Type} (x : A) n l : In x (firstn n l) -> In x l.
Proof. intros H. rewrite <- (firstn_skipn n l). apply in_or_app. now left. Qed.

Lemma in_skipn {A : Type} (x : A) n l : In x (skipn n l) -> In x l.
Proof. intros H. rewrite <- (firstn_skipn n l). apply in_or_app. now right. Qed.

Lemma in_slice {A : Type} (x : A) l a b : In x (slice l a b) -> In x l.
Proof. unfold slice. intros H. eapply in_skipn, in_firstn, H. Qed.

Lemma lstrip_by_incl p d l : In d (lstrip_by p l) -> In d l.
Proof.
  induction l as [|c l IH]; [auto|]. cbn [lstrip_by].
  destruct (p c); [right; auto|auto].
Qed.

Lemma rstrip_by_incl p d l : In d (rstrip_by p l) -> In d l.
Proof.
  unfold rstrip_by. intros H. apply in_rev in H. apply lstrip_by_incl in H.
  now apply in_rev in H.
Qed.

Lemma lstrip_by_in p d l : p d = false -> In d l -> In d (lstrip_by p l).
Proof.
  intros Hd. induction l as [|c l IH]; [auto|]. cbn [lstrip_by].
  destruct (p c) eqn:E; [|auto].
  intros [->|H]; [congruence|auto].
Qed.

Lemma rstrip_by_in p d l : p d = false -> In d l -> In d (rstrip_by p l).
Proof.
  intros Hd H. unfold rstrip_by. apply -> in_rev.
  apply lstrip_by_in; [exact Hd|]. now apply -> in_rev.
Qed.

Lemma all_isdigit_has_digit s :
  all_isdigit s = true -> exists d, isdigit d = true /\ In d (chars s).
Proof.
  destruct s as [|c s]; [discriminate|]. unfold all_isdigit.
  change (chars (String c s)) with (c :: chars s). cbn [forallb].
  intros H. apply andb_true_iff in H as [H _]. exists c. split; [exact H|now left].
Qed.

Lemma split_dot_head s : forall p ps,
  split_dot s = p :: ps -> incl (chars p) (chars s).
Proof.
  induction s as [|c s IH]; intros p ps H; cbn [split_dot] in H.
  - inversion H. apply incl_refl.
  - destruct (Ascii.eqb c "."); [inversion H; intros x []|].
    destruct (split_dot s) as [|q qs] eqn:E.
    + inversion H; subst. intros x [->|[]]. now left.
    + inversion H; subst. intros x [->|Hx]; [now left|].
      right. exact (IH _ _ eq_refl x Hx).
Qed.

(** A numeric string holds a digit. *)
Lemma numeric_string_has_digit w :
  is_numeric_string w = true -> exists d, isdigit d = true /\ In d (chars w).
Proof.
  unfold is_numeric_string. intros H.
  assert (Hstrip : forall d, In d (chars (strip w)) -> In d (chars w)).
  { intros d Hd. unfold strip in Hd. rewrite chars_str in Hd.
    eapply lstrip_by_incl, rstrip_by_incl, Hd. }
  destruct (strip w) as [|c0 v] eqn:Ev; [discriminate H|].
  set (u := String c0 v) in *.
  assert (Hv1 : forall d,
             In d (chars (if startswith "-" u then sslice u (Some 1) None else u)) ->
             In d (chars u)).
  { intros d. destruct (startswith "-" u); [|auto].
    unfold sslice. rewrite chars_str. apply in_slice. }
  destruct (contains "." _).
  - destruct (split_dot _) as [|p0 [|p1 [|]]] eqn:Es; try discriminate H.
    apply andb_true_iff in H as [H0 _].
    destruct (all_isdigit_has_digit _ H0) as (d & Hd & Hin).
    exists d. split; [exact Hd|].
    apply Hstrip, Hv1. exact (split_dot_head _ _ _ Es d Hin).
  - destruct (all_isdigit_has_digit _ H) as (d & Hd & Hin).
    exists d. split; [exact Hd|]. now apply Hstrip, Hv1.
Qed.

Lemma isdigit_not_space c : isdigit c = true -> isspace_conv c = false.
Proof.
  intros H. destruct c as [[] [] [] [] [] [] [] []]; try discriminate H; reflexivity.
Qed.

Lemma isdigit_lower c : isdigit c = true -> lower c = c.
Proof.
  intros H. destruct c as [[] [] [] [] [] [] [] []]; try discriminate H; reflexivity.
Qed.

Lemma isdigit_not_sign c :
  isdigit c = true -> Ascii.eqb c "-" = false /\ Ascii.eqb c "+" = false.
Proof.
  intros H. destruct c as [[] [] [] [] [] [] [] []]; try discriminate H;
    split; reflexivity.
Qed.

(** A text that lower-cases to a word without digits holds no digit. *)
Lemma lower_word_no_digit l word d :
  String.eqb (lower_all l) word = true ->
  forallb (fun c => negb (isdigit c)) (chars word) = true ->
  In d l -> isdigit d = false.
Proof.
  intros E Hw Hin. apply String.eqb_eq in E. subst word.
  unfold lower_all in Hw. rewrite chars_str in Hw.
  destruct (isdigit d) eqn:Ed; [|reflexivity].
  rewrite forallb_forall in Hw.
  assert (Hl : In (lower d) (map lower l)) by now apply in_map.
  apply Hw in Hl. rewrite (isdigit_lower d Ed), Ed in Hl. discriminate Hl.
Qed.

(** The float of a text that holds a digit is finite. *)
Lemma parse_float_digit_finite w d x :
  isdigit d = true -> In d (chars w) -> parse_float w = Some x ->
  exists q, x = Fin q.
Proof.
  intros Hd Hin. unfold parse_float.
  assert (Hs : In d (strip_conv w)).
  { unfold strip_conv. apply rstrip_by_in, lstrip_by_in; auto using isdigit_not_space. }
  destruct (scan_sign (strip_conv w)) as [neg l] eqn:Es.
  assert (Hl : In d l).
  { unfold scan_sign in Es. destruct (strip_conv w) as [|c r]; [contradiction|].
    destruct (isdigit_not_sign d Hd) as [Hm Hp].
    destruct (Ascii.eqb c "-") eqn:E1.
    - inversion Es; subst. destruct Hs as [->|Hs]; [congruence|exact Hs].
    - destruct (Ascii.eqb c "+") eqn:E2; inversion Es; subst; [|exact Hs].
      destruct Hs as [->|Hs]; [congruence|exact Hs]. }
  destruct (String.eqb (lower_all l) "inf") eqn:E1.
  { pose proof (lower_word_no_digit l _ d E1 eq_refl Hl). congruence. }
  destruct (String.eqb (lower_all l) "infinity") eqn:E2.
  { pose proof (lower_word_no_digit l _ d E2 eq_refl Hl). congruence. }
  destruct (String.eqb (lower_all l) "nan") eqn:E3.
  { pose proof (lower_word_no_digit l _ d E3 eq_refl Hl). congruence. }
  cbn [orb]. destruct (scan_floatnumber l) as [q|]; [|discriminate].
  intros H. inversion H. eauto.
Qed.

Lemma self_within (q : Q) tolerance :
  fle (of_int 0) tolerance = true ->
  fle (fabs (fsub (Fin q) (Fin q))) tolerance = true.
Proof.
  intros H. cbn [fsub fabs].
  assert (E : (Qabs (q - q) == inject_Z 0)%Q).
  { assert (E0 : (q - q == 0)%Q) by ring. rewrite E0. reflexivity. }
  destruct tolerance as [t|s|]; cbn [fle flt feq of_int] in *; [|exact H|exact H].
  unfold Qlt_bool in *.
  apply orb_true_iff in H. apply orb_true_iff.
  destruct H as [H|H].
  - left. apply negb_true_iff in H. apply negb_true_iff.
    destruct (Qle_bool t (Qabs (q - q))) eqn:E1; [|reflexivity].
    apply Qle_bool_iff in E1. rewrite E in E1. apply Qle_bool_iff in E1. congruence.
  - right. apply Qeq_bool_iff in H. apply Qeq_bool_iff. now rewrite E.
Qed.

Lemma self_equal_int tolerance n : _values_equal tolerance (VInt n) (VInt n) = true.
Proof. cbn. apply Z.eqb_refl. Qed.

Lemma self_equal_float tolerance q :
  fle (of_int 0) tolerance = true ->
  _values_equal tolerance (VFloat (Fin q)) (VFloat (Fin q)) = true.
Proof. intros H. cbn [_values_equal number is_float orb]. now apply self_within. Qed.

Lemma normalize_plain tolerance v :
  fle (of_int 0) tolerance = true -> plain v = true ->
  exists v', normalize_value v = Ok v' /\ _values_equal tolerance v' v' = true.
Proof.
  intros Ht Hp. destruct v as [|n|[q| |]|s| |]; try discriminate Hp.
  - exists VNone. split; reflexivity.
  - exists (VInt n). split; [apply normalize_int|apply self_equal_int].
  - cbn [normalize_value normalize_numeric].
    destruct (is_integer q); [eexists; split; [reflexivity|apply self_equal_int]|].
    cbv zeta. destruct (_ =? 0);
      eexists; (split; [reflexivity|]);
      [apply self_equal_int|now apply self_equal_float].
  - cbn [normalize_value]. unfold normalize_string.
    assert (Htext : _values_equal tolerance (VStr (strip s)) (VStr (strip s)) = true)
      by (cbn; apply String.eqb_refl).
    destruct (is_numeric_string (strip s)) eqn:En; [|eauto].
    destruct (numeric_string_has_digit _ En) as (d & Hd & Hin).
    unfold float_of. destruct (parse_float (strip s)) as [x|] eqn:Ef.
    + destruct (parse_float_digit_finite _ _ _ Hd Hin Ef) as (q & ->).
      cbn [bind except_ValueError].
      destruct (is_integer q); cbn [except_ValueError]; eexists;
        (split; [reflexivity|]);
        [apply self_equal_int|now apply self_equal_float].
    + cbn [bind except_ValueError]. eauto.
Qed.

Section Itself.
Import DualPassValidator.
Variable tolerance : pyfloat.
Hypothesis Htol : fle (of_int 0) tolerance = true.

Lemma compare_first_itself flat index : forall items,
  NoDup (keys flat) -> incl items flat ->
  Forall (fun kv => plain (snd kv) = true) items ->
  compare_first tolerance items flat index = Ok [].
Proof.
  intros items Hn. induction items as [|[path v] items IH]; intros Hi Hp;
    [reflexivity|].
  cbn [compare_first]. inversion Hp as [|? ? Hv Hr]; subst. cbn [snd] in Hv.
  rewrite (dict_get_in flat path v Hn) by (apply Hi; now left).
  destruct (normalize_plain tolerance v Htol Hv) as (v' & En & Ee).
  rewrite En. cbn [bind]. rewrite Ee. apply IH; [|exact Hr].
  intros x Hx. apply Hi. now right.
Qed.

Lemma has_key_in flat k v : In (k, v) flat -> has_key flat k = true.
Proof.
  unfold has_key. induction flat as [|[k' v'] flat IH]; [contradiction|].
  cbn [dict_get]. destruct (String.eqb_spec k' k) as [|Hne]; [reflexivity|].
  intros [E|H]; [inversion E; congruence|auto].
Qed.

Lemma compare_second_itself flat index : forall items,
  incl items flat -> compare_second items flat index = [].
Proof.
  induction items as [|[path v] items IH]; intros Hi; [reflexivity|].
  cbn [compare_second]. rewrite (has_key_in flat path v) by (apply Hi; now left).
  apply IH. intros x Hx. apply Hi. now right.
Qed.

End Itself.

(** X21.  A record compared against itself has no mismatch, when the
    tolerance is not negative and the leaves of the record are missing
    values, integers, finite floats or texts, within the range of a
    float. *)
Theorem compare_record_with_itself (tolerance : pyfloat)
    (record : list (string * value)) (index : Z) :
  fle (of_int 0) tolerance = true ->
  Forall (fun kv => plain (snd kv) = true)
    (DualPassValidator._flatten_dict (VDict record) EmptyString) ->
  DualPassValidator._compare_records tolerance record record index = Ok [].
Proof.
  intros Ht Hp. unfold DualPassValidator._compare_records.
  assert (Hn : NoDup (keys (DualPassValidator._flatten_dict (VDict record) EmptyString)))
    by (rewrite flatten_unfold; apply dict_of_items_nodup).
  rewrite (compare_first_itself tolerance Ht _ index _ Hn (incl_refl _) Hp).
  cbn [bind app]. now rewrite compare_second_itself by apply incl_refl.
Qed.

Lemma compare_record_with_itself_witness :
  DualPassValidator._compare_records (Fin (1 # 100))
    [("A"%string, VInt 5); ("B"%string, VStr " x");
     ("G"%string, VDict [("C"%string, VFloat (Fin (1 # 2)))])]
    [("A"%string, VInt 5); ("B"%string, VStr " x");
     ("G"%string, VDict [("C"%string, VFloat (Fin (1 # 2)))])] 7
  = Ok [].
Proof.
  apply (compare_record_with_itself (Fin (1 # 100))
           [("A"%string, VInt 5); ("B"%string, VStr " x");
            ("G"%string, VDict [("C"%string, VFloat (Fin (1 # 2)))])] 7).
  - reflexivity.
  - apply Forall_forall.
    apply (proj1 (forallb_forall (fun kv => plain (snd kv)) _)).
    vm_compute. reflexivity.
Defined.

(** ** The class of an error does not depend on the order of the values *)


Lemma fmul_comm a b : fmul a b = fmul b a.
Proof.
  destruct a as [x|s|], b as [y|t|]; cbn [fmul]; try reflexivity.
  - f_equal. unfold Qmult. f_equal; [apply Z.mul_comm|apply Pos.mul_comm].
  - now rewrite xorb_comm.
Qed.

Lemma fabs_fsub_sym a b : fabs (fsub a b) = fabs (fsub b a).
Proof.
  destruct a as [x|s|], b as [y|t|]; cbn [fsub fabs]; try reflexivity.
  - f_equal. apply Qabs_Qminus.
  - now destruct s, t.
Qed.

Lemma scale_exponent_sym a b tolerance n : forall i,
  scale_exponent a b tolerance i n = scale_exponent b a tolerance i n.
Proof.
  induction n as [|n IH]; intros i; [reflexivity|].
  cbn [scale_exponent].
  rewrite (fabs_fsub_sym (fmul b _) a), (fabs_fsub_sym b (fmul a _)).
  rewrite orb_comm, IH. reflexivity.
Qed.

Lemma classify_numeric_sym v1 v2 a b tolerance :
  fst (classify_numeric_error v1 v2 a b tolerance)
  = fst (classify_numeric_error v2 v1 b a tolerance).
Proof.
  unfold classify_numeric_error.
  rewrite (fmul_comm b a), (fabs_fsub_sym b a), (scale_exponent_sym b a).
  destruct (flt (fmul a b) _); [reflexivity|].
  destruct (feq _ _); [reflexivity|].
  destruct (fle _ _); [reflexivity|].
  destruct (scale_exponent _ _ _ _ _); reflexivity.
Qed.

Lemma encoding_issue_sym s : forall t, encoding_issue s t = encoding_issue t s.
Proof.
  induction s as [|c s IH]; intros [|d t]; try reflexivity.
  cbn [encoding_issue]. rewrite IH, (Ascii.eqb_sym c d), (orb_comm (127 <? ord c)).
  reflexivity.
Qed.

Lemma classify_string_sym s t :
  fst (classify_string_error s t) = fst (classify_string_error t s).
Proof.
  unfold classify_string_error.
  rewrite (String.eqb_sym (strip t)), (String.eqb_sym (lower_str t)),
    (encoding_issue_sym t s), (orb_comm (String.prefix s t)).
  destruct (String.eqb (strip s) _); [reflexivity|].
  destruct (String.eqb (lower_str s) _); [reflexivity|].
  destruct (encoding_issue s t); [reflexivity|].
  destruct (_ || _); reflexivity.
Qed.

(** X22.  The class [classify_error] gives two values is the same in
    either order of the two. *)
Theorem classify_error_symmetric (value1 value2 : value) (tolerance : pyfloat) :
  fst (classify_error value1 value2 tolerance)
  = fst (classify_error value2 value1 tolerance).
Proof.
  destruct value1, value2; try reflexivity; cbn.
  - apply classify_numeric_sym.
  - apply classify_numeric_sym.
  - apply classify_string_sym.
Qed.
